(** * deluge-lint: the rule evaluation engine of [src/index.ts]

    A shallow embedding of [analyzeDeluge] and of the JavaScript string
    and regular-expression primitives it relies on, followed by the
    properties of the scanner: scope tracking, rule evaluation,
    diagnostic order and configuration handling. *)

From Stdlib Require Import QArith Ascii String NArith.
From stdpp Require Import gmap strings list fin_maps sorting.

Close Scope Q_scope.
Open Scope nat_scope.

(** ** JavaScript strings

    A JavaScript string is a sequence of UTF-16 code units.  The scanner
    classifies code units (white space, digits, word characters), so the
    source text is modelled as a list of code units. *)

Module Js.

Definition jschar := N.
Definition jsstring := list jschar.

(** A code unit from an ASCII character literal, a string from an ASCII
    string literal. *)
Definition ch (a : ascii) : jschar := N_of_ascii a.
Definition js (s : string) : jsstring := map ch (list_ascii_of_string s).

(** The line feed ['\n'] and the double quote. *)
Definition newline : jschar := 10%N.
Definition quote : jschar := 34%N.

#[global] Arguments ch : simpl never.
#[global] Arguments js : simpl never.

Definition inRange (lo hi c : N) : bool := ((lo <=? c) && (c <=? hi))%N.

(** [\d] *)
Definition isDigit (c : jschar) : bool := inRange 48 57 c.

(** [\w], also written [[a-zA-Z0-9_]] *)
Definition isWordChar (c : jschar) : bool :=
  inRange 97 122 c || inRange 65 90 c || inRange 48 57 c || (c =? 95)%N.

(** [\s], and the characters removed by [String.prototype.trim]:
    ECMAScript WhiteSpace and LineTerminator. *)
Definition isSpace (c : jschar) : bool :=
  inRange 9 13 c || (c =? 32)%N || (c =? 160)%N || (c =? 5760)%N
  || inRange 8192 8202 c || (c =? 8232)%N || (c =? 8233)%N
  || (c =? 8239)%N || (c =? 8287)%N || (c =? 12288)%N || (c =? 65279)%N.

Fixpoint dropSpaces (s : jsstring) : jsstring :=
  match s with
  | c :: s' => if isSpace c then dropSpaces s' else s
  | [] => []
  end.

Definition trimStart (s : jsstring) : jsstring := dropSpaces s.
Definition trimEnd (s : jsstring) : jsstring := rev (dropSpaces (rev s)).
Definition trim (s : jsstring) : jsstring := trimEnd (trimStart s).

Fixpoint startsWith (p s : jsstring) : bool :=
  match p, s with
  | [], _ => true
  | a :: p', c :: s' => (c =? a)%N && startsWith p' s'
  | _ :: _, [] => false
  end.

Definition endsWith (p s : jsstring) : bool := startsWith (rev p) (rev s).

(** [s.split(sep)] for a non-empty separator: [skip] counts the code
    units of a separator occurrence still to be passed over, [cur] holds
    the current piece in reverse. *)
Fixpoint splitGo (sep : jsstring) (skip : nat) (cur s : jsstring)
  : list jsstring :=
  match s with
  | [] => [rev cur]
  | c :: s' =>
      match skip with
      | S k => splitGo sep k cur s'
      | O =>
          if startsWith sep s
          then rev cur :: splitGo sep (length sep - 1) [] s'
          else splitGo sep 0 (c :: cur) s'
      end
  end.

Definition split (sep s : jsstring) : list jsstring := splitGo sep 0 [] s.

(** [s.split(sep)[0]]; [split] never returns the empty array. *)
Definition first (l : list jsstring) : jsstring :=
  match l with
  | x :: _ => x
  | [] => []
  end.

End Js.

Import Js.

(** ** Regular expressions

    The fragment of ECMAScript regular expressions used by the linter:
    literals and character classes, sequence, alternation, greedy
    repetition of a class, capturing groups, [^], [$] and [\b].  Matching is
    by backtracking with an explicit continuation, alternatives tried
    left to right and repetitions longest first, as the language
    specifies. *)

Module Re.

Inductive Regex : Type :=
| Empty
| Class (p : jschar -> bool)
| Seq (r1 r2 : Regex)
| Alt (r1 r2 : Regex)
| Star (p : jschar -> bool)
| Group (r : Regex)
| Bol
| Eol
| WordB.

(** Derived forms. *)
Definition Plus (p : jschar -> bool) : Regex := Seq (Class p) (Star p).
Definition Opt (r : Regex) : Regex := Alt r Empty.

Fixpoint Lit (s : jsstring) : Regex :=
  match s with
  | [] => Empty
  | c :: s' => Seq (Class (N.eqb c)) (Lit s')
  end.

Fixpoint Rep (n : nat) (r : Regex) : Regex :=
  match n with
  | O => Empty
  | S n' => Seq r (Rep n' r)
  end.

(** A matcher position: the code unit before it (if any), the remaining
    input, and the captures recorded so far. *)
Definition Cont : Type :=
  option jschar -> jsstring -> list jsstring -> option (list jsstring).

Definition isWordAt (c : option jschar) : bool :=
  match c with
  | Some x => isWordChar x
  | None => false
  end.

Fixpoint starLoop (p : jschar -> bool) (k : Cont)
    (prev : option jschar) (s : jsstring) (caps : list jsstring)
  : option (list jsstring) :=
  match s with
  | c :: s' =>
      if p c then
        match starLoop p k (Some c) s' caps with
        | Some r => Some r
        | None => k prev s caps
        end
      else k prev s caps
  | [] => k prev s caps
  end.

Fixpoint exec (r : Regex) (k : Cont)
    (prev : option jschar) (s : jsstring) (caps : list jsstring)
  : option (list jsstring) :=
  match r with
  | Empty => k prev s caps
  | Class p =>
      match s with
      | c :: s' => if p c then k (Some c) s' caps else None
      | [] => None
      end
  | Seq r1 r2 => exec r1 (exec r2 k) prev s caps
  | Alt r1 r2 =>
      match exec r1 k prev s caps with
      | Some x => Some x
      | None => exec r2 k prev s caps
      end
  | Star p => starLoop p k prev s caps
  | Group r' =>
      exec r'
        (fun prev' s' caps' =>
           k prev' s' (caps' ++ [take (length s - length s') s]))
        prev s caps
  | Bol =>
      match prev with
      | None => k prev s caps
      | Some _ => None
      end
  | Eol =>
      match s with
      | [] => k prev s caps
      | _ :: _ => None
      end
  | WordB =>
      if xorb (isWordAt prev) (isWordAt (head s))
      then k prev s caps else None
  end.

Definition accept : Cont := fun _ _ caps => Some caps.

(** The first match, scanning start positions left to right; the result
    is the list of captured groups. *)
Fixpoint searchFrom (r : Regex) (prev : option jschar) (s : jsstring)
  : option (list jsstring) :=
  match exec r accept prev s [] with
  | Some caps => Some caps
  | None =>
      match s with
      | [] => None
      | c :: s' => searchFrom r (Some c) s'
      end
  end.

(** [re.test(s)] *)
Definition test (r : Regex) (s : jsstring) : bool :=
  match searchFrom r None s with
  | Some _ => true
  | None => false
  end.

(** [s.match(re)] for a regular expression without the [g] flag: [None]
    is [null], otherwise the captured groups [m[1], m[2], ...]. *)
Definition matchGroups (r : Regex) (s : jsstring)
  : option (list jsstring) := searchFrom r None s.

(** [s.match(/[...]/g)] for a single character class: every matching
    code unit in order, or [null] when there is none. *)
Definition matchAllClass (p : jschar -> bool) (s : jsstring)
  : option (list jschar) :=
  match List.filter p s with
  | [] => None
  | l => Some l
  end.

End Re.

Import Re.

(** ** Configuration and diagnostics *)

(** A JavaScript number.  Every finite double is a rational, and the
    scanner only compares a number with an integer and tests it for
    truthiness, both exact on rationals. *)
Inductive JsNumber : Type :=
| NaN
| Infinity (negative : bool)
| Finite (q : Q).

(** A value of the [rules] index signature, [string | number]; the
    third alternative, [undefined], is the absence of the key. *)
Inductive RuleValue : Type :=
| VStr (s : string)
| VNum (n : JsNumber).

Record Env : Type := { app : option string; version : option string }.

Record DelugeConfig : Type := {
  rules : gmap string RuleValue;
  exclude : option (list string);
  env : option Env
}.

Definition defaultConfig : DelugeConfig := {|
  rules :=
    <["no-hardcoded-ids" := VStr "warn"]>
    (<["require-semicolon" := VStr "error"]>
    (<["camelcase-vars" := VStr "warn"]>
    (<["max-lines-per-function" := VStr "off"]>
    (<["no-unused-maps" := VStr "warn"]>
    (<["enforce-timeout-awareness" := VStr "warn"]> ∅)))));
  exclude := Some ["scripts/deprecated/**"; "tests/**"];
  env := Some {| app := Some "crm"; version := Some "2.0" |}
|}.

Inductive Severity : Type := warning | error.

(** Diagnostic messages.  The message of the length rule interpolates
    two numbers; their decimal rendering is kept symbolic. *)
Inductive Message : Type :=
| Text (s : jsstring)
| FunctionLength (len : nat) (maxLines : JsNumber).

Record LintError : Type := {
  line : nat;
  message : Message;
  type : Severity;
  ruleId : option string
}.

(** *** JavaScript operators on rule values *)

(** [n > m] for an array length [n] and a number [m]. *)
Definition lengthGt (n : nat) (m : JsNumber) : bool :=
  match m with
  | NaN => false
  | Infinity negative => negative
  | Finite q => negb (Qle_bool (inject_Z (Z.of_nat n)) q)
  end.

(** ToBoolean on [string | number]. *)
Definition truthy (v : RuleValue) : bool :=
  match v with
  | VStr s => negb (String.eqb s "")
  | VNum NaN => false
  | VNum (Infinity _) => true
  | VNum (Finite q) => negb (Qeq_bool q 0)
  end.

(** [v || d], where [v] may be [undefined]. *)
Definition orElse (v : option RuleValue) (d : RuleValue) : RuleValue :=
  match v with
  | Some x => if truthy x then x else d
  | None => d
  end.

(** [v === s] for a string literal [s]. *)
Definition strictEq (v : RuleValue) (s : string) : bool :=
  match v with
  | VStr t => String.eqb t s
  | VNum _ => false
  end.

(** [rule === 'error' ? 'error' : 'warning'] *)
Definition severityOf (rule : RuleValue) : Severity :=
  if strictEq rule "error" then error else warning.

(** ** The regular expressions of [analyzeDeluge] *)

(** [/\bfor\s+each\b/] *)
Definition forEachRe : Regex :=
  Seq WordB (Seq (Lit (js "for")) (Seq (Plus isSpace)
    (Seq (Lit (js "each")) WordB))).

(** [/[{}]/g] *)
Definition isBrace (c : jschar) : bool :=
  (c =? ch "{")%N || (c =? ch "}")%N.

(** [/\d{18,20}/] *)
Definition hardcodedIdRe : Regex :=
  Seq (Rep 18 (Class isDigit))
    (Seq (Opt (Class isDigit)) (Opt (Class isDigit))).

(** [/^(if|else|for|while)\b/] *)
Definition controlFlowRe : Regex :=
  Seq Bol (Seq
    (Group (Alt (Lit (js "if")) (Alt (Lit (js "else"))
      (Alt (Lit (js "for")) (Lit (js "while"))))))
    WordB).

(** [/^\s*([a-zA-Z0-9_]+)\s*=/] *)
Definition assignmentRe : Regex :=
  Seq Bol (Seq (Star isSpace) (Seq (Group (Plus isWordChar))
    (Seq (Star isSpace) (Lit (js "="))))).

(** [/^[a-z][a-zA-Z0-9]*$/] *)
Definition isLower (c : jschar) : bool := inRange 97 122 c.
Definition isAlnum (c : jschar) : bool :=
  inRange 97 122 c || inRange 65 90 c || inRange 48 57 c.
Definition camelCaseRe : Regex :=
  Seq Bol (Seq (Class isLower) (Seq (Star isAlnum) Eol)).

(** [/(zoho\.[a-zA-Z0-9_]+\.[a-zA-Z0-9_]+|invokeurl)\s*\(/] *)
Definition apiCallRe : Regex :=
  Seq (Group (Alt
         (Seq (Lit (js "zoho.")) (Seq (Plus isWordChar)
            (Seq (Lit (js ".")) (Plus isWordChar))))
         (Lit (js "invokeurl"))))
    (Seq (Star isSpace) (Lit (js "("))).

(** ** The scanner *)

(** The mutable state shared by the line callback: the brace stack
    (top of the stack at the end of the list, as [push] and [pop] have
    it), the pending-loop flag and the diagnostics collected so far. *)
Record ScanState : Type := {
  braceStack : list bool;
  expectingLoopBrace : bool;
  errors : list LintError
}.

Definition pushError (st : ScanState) (e : LintError) : ScanState :=
  {| braceStack := braceStack st;
     expectingLoopBrace := expectingLoopBrace st;
     errors := errors st ++ [e] |}.

(** The body of [braces.forEach]: [push] on an opening brace, [pop] on
    a closing one; [pop] on the empty array does nothing. *)
Definition braceStep (st : ScanState) (brace : jschar) : ScanState :=
  if (brace =? ch "{")%N then
    {| braceStack := braceStack st ++ [expectingLoopBrace st];
       expectingLoopBrace := false;
       errors := errors st |}
  else if (brace =? ch "}")%N then
    {| braceStack := removelast (braceStack st);
       expectingLoopBrace := expectingLoopBrace st;
       errors := errors st |}
  else st.

(** The state update of one line: keyword scan, then brace scan. *)
Definition updateScope (content : jsstring) (st : ScanState) : ScanState :=
  let st1 :=
    if test forEachRe content then
      {| braceStack := braceStack st;
         expectingLoopBrace := true;
         errors := errors st |}
    else st in
  match matchAllClass isBrace content with
  | Some braces => fold_left braceStep braces st1
  | None => st1
  end.

(** [trimmed.startsWith('//') || trimmed.startsWith('/*')] *)
Definition isCommentLine (content : jsstring) : bool :=
  let trimmed := trim content in
  startsWith (js "//") trimmed || startsWith (js "/*") trimmed.

(** [trimmed.split('//')[0].trim()] *)
Definition codePartOf (content : jsstring) : jsstring :=
  trim (first (split (js "//") (trim content))).

(** Rule 1: hardcoded ids. *)
Definition checkHardcodedIds (config : DelugeConfig) (content : jsstring)
    (lineNumber : nat) (st : ScanState) : ScanState :=
  let hardcodedIdRule :=
    orElse (rules config !! "no-hardcoded-ids") (VStr "warn") in
  if negb (strictEq hardcodedIdRule "off") then
    if test hardcodedIdRe content then
      pushError st
        {| line := lineNumber;
           message :=
             Text (js "Avoid using hardcoded IDs. Use configuration variables.");
           type := severityOf hardcodedIdRule;
           ruleId := Some "no-hardcoded-ids" |}
    else st
  else st.

(** Rule 2: missing semicolon. *)
Definition checkSemicolon (config : DelugeConfig) (content : jsstring)
    (lineNumber : nat) (st : ScanState) : ScanState :=
  let semicolonRule :=
    orElse (rules config !! "require-semicolon") (VStr "error") in
  if negb (strictEq semicolonRule "off") then
    let codePart := codePartOf content in
    if negb (length codePart =? 0)
       && (0 <? length codePart)
       && negb (endsWith (js ";") codePart)
       && negb (endsWith (js "{") codePart)
       && negb (endsWith (js "}") codePart)
       && negb (endsWith (js ":") codePart)
       && negb (test controlFlowRe codePart)
    then
      pushError st
        {| line := lineNumber;
           message := Text (js "Missing semicolon at the end of the line.");
           type := severityOf semicolonRule;
           ruleId := Some "require-semicolon" |}
    else st
  else st.

(** Rule 3: variables that are not in camelCase. *)
Definition checkCamelCase (config : DelugeConfig) (content : jsstring)
    (lineNumber : nat) (st : ScanState) : ScanState :=
  let camelCaseRule :=
    orElse (rules config !! "camelcase-vars") (VStr "warn") in
  if negb (strictEq camelCaseRule "off") then
    match matchGroups assignmentRe content with
    | Some assignmentMatch =>
        let variableName := first assignmentMatch in
        if negb (test camelCaseRe variableName) then
          pushError st
            {| line := lineNumber;
               message :=
                 Text (js "Variable '" ++ variableName
                         ++ js "' should be in camelCase.");
               type := severityOf camelCaseRule;
               ruleId := Some "camelcase-vars" |}
        else st
    | None => st
    end
  else st.

(** [braceStack.some(isLoop => isLoop)] *)
Definition isInsideLoop (stack : list bool) : bool :=
  existsb (fun isLoop => isLoop) stack.

(** Rule 4: API calls inside loops. *)
Definition checkTimeout (config : DelugeConfig) (content : jsstring)
    (lineNumber : nat) (st : ScanState) : ScanState :=
  let timeoutRule :=
    orElse (rules config !! "enforce-timeout-awareness") (VStr "warn") in
  if negb (strictEq timeoutRule "off") then
    if isInsideLoop (braceStack st) then
      if test apiCallRe content then
        pushError st
          {| line := lineNumber;
             message :=
               Text (js "Avoid using API calls (zoho.*, invokeurl) inside loops. This may cause "
                       ++ [quote] ++ js "Time limit exceeded" ++ [quote]
                       ++ js " errors.");
             type := severityOf timeoutRule;
             ruleId := Some "enforce-timeout-awareness" |}
      else st
    else st
  else st.

(** The callback of [lines.forEach]. *)
Definition lineCallback (config : DelugeConfig) (st : ScanState)
    (content : jsstring) (index : nat) : ScanState :=
  let lineNumber := index + 1 in
  if isCommentLine content then st
  else
    let st := updateScope content st in
    let st := checkHardcodedIds config content lineNumber st in
    let st := checkSemicolon config content lineNumber st in
    let st := checkCamelCase config content lineNumber st in
    checkTimeout config content lineNumber st.

(** [lines.forEach((content, index) => ...)], from position [index]. *)
Fixpoint forEachFrom (f : ScanState -> jsstring -> nat -> ScanState)
    (lines : list jsstring) (index : nat) (st : ScanState) : ScanState :=
  match lines with
  | [] => st
  | content :: rest => forEachFrom f rest (S index) (f st content index)
  end.

(** The length rule, checked once before the scan. *)
Definition checkMaxLines (config : DelugeConfig) (lines : list jsstring)
  : list LintError :=
  match rules config !! "max-lines-per-function" with
  | Some (VNum maxLinesRule) =>
      if lengthGt (length lines) maxLinesRule then
        [ {| line := 1;
             message := FunctionLength (length lines) maxLinesRule;
             type := warning;
             ruleId := Some "max-lines-per-function" |} ]
      else []
  | _ => []
  end.

Definition initialState (errs : list LintError) : ScanState :=
  {| braceStack := []; expectingLoopBrace := false; errors := errs |}.

(** The state in which the scan of [code] ends. *)
Definition scan (code : jsstring) (config : DelugeConfig) : ScanState :=
  let lines := split [newline] code in
  forEachFrom (lineCallback config) lines 0
    (initialState (checkMaxLines config lines)).

Definition analyzeDeluge (code : jsstring) (config : DelugeConfig)
  : list LintError := errors (scan code config).

(** [analyzeDeluge(code)], the configuration defaulted. *)
Definition analyzeDelugeDefault (code : jsstring) : list LintError :=
  analyzeDeluge code defaultConfig.

(** ** The command line ([src/cli.ts]) and [getConfig] *)

(** What a configuration file may hold, as far as [main] and
    [analyzeDeluge] tell it apart: an object of the declared type; an
    object whose [rules] is [undefined] or [null], with its [exclude]
    when that is an array; or no object at all ([undefined] or [null],
    as for an empty file).  [getConfig] returns it unchecked. *)
Inductive Loaded : Type :=
| Typed (config : DelugeConfig)
| WithoutRules (excl : option (list string))
| NoObject.

(** What [explorer.search()] gives: a rejection, [null], or a result
    holding what the configuration file held. *)
Inductive SearchResult : Type :=
| SearchFails
| NotFound
| Found (loaded : Loaded).

(** [getConfig]: what was found, else [defaultConfig]; [None] when the
    search rejects. *)
Definition getConfig (result : SearchResult) : option Loaded :=
  match result with
  | SearchFails => None
  | NotFound => Some (Typed defaultConfig)
  | Found loaded => Some loaded
  end.

(** [config.exclude], when it is an array; the outer [None] is the
    TypeError of reading a property of [undefined] or [null]. *)
Definition excludeOf (loaded : Loaded) : option (option (list string)) :=
  match loaded with
  | Typed config => Some (exclude config)
  | WithoutRules excl => Some excl
  | NoObject => None
  end.

(** [analyzeDeluge(code, config as any)]; [None] is the TypeError of
    [config.rules['max-lines-per-function']] when [rules] is missing. *)
Definition analyzeLoaded (code : jsstring) (loaded : Loaded)
  : option (list LintError) :=
  match loaded with
  | Typed config => Some (analyzeDeluge code config)
  | WithoutRules _ => None
  | NoObject => None
  end.

(** The surroundings of one run of [main]: the arguments, whether
    [.delugerc] exists and whether writing it succeeds, the outcome of
    the configuration search, the path of the file relative to the
    working directory with [/] as separator, the glob matcher of the
    [minimatch] package (taken as a total function), and the content of
    a file ([None] when reading it throws). *)
Record Process : Type := {
  argv : list string;
  existsSync : bool;
  writeFileSync : bool;
  search : SearchResult;
  normalizedPathOf : string -> string;
  minimatch : string -> string -> bool;
  readFileSync : string -> option jsstring
}.

(** The configuration that [--init] writes. *)
Definition initialConfig : DelugeConfig := {|
  rules :=
    <["no-hardcoded-ids" := VStr "error"]>
    (<["require-semicolon" := VStr "error"]>
    (<["camelcase-vars" := VStr "warn"]>
    (<["max-lines-per-function" := VNum (Finite (inject_Z 100))]>
    (<["no-unused-maps" := VStr "warn"]>
    (<["enforce-timeout-awareness" := VStr "warn"]> ∅)))));
  exclude := Some ["scripts/deprecated/**"; "tests/**"];
  env := Some {| app := Some "crm"; version := Some "2.0" |}
|}.

Inductive Color : Type := Red | Yellow.

(** What a run does that can be seen from outside, one constructor for
    each [console] call and for [fs.writeFileSync]; the fixed texts are
    those of the source, the line of a diagnostic is kept as its
    parts. *)
Inductive Output : Type :=
| ErrorConfigExists
| WriteConfig (config : DelugeConfig)
| LogCreated
| ErrorNoFile
| LogIgnored (normalizedPath : string)
| LogClean
| LogDiagnostic (color : Color) (lineNumber : nat) (label : string)
    (text : Message) (rule : option string)
| ErrorProcessing.

(** How [main] ends: [process.exit(code)], by returning, or with an
    exception that nothing catches. *)
Inductive ExitStatus : Type :=
| Exit (code : nat)
| Returns
| Uncaught.

Record Outcome : Type := {
  outputs : list Output;
  status : ExitStatus
}.

(** [err.type.toUpperCase()] *)
Definition upperType (t : Severity) : string :=
  match t with
  | warning => "WARNING"
  | error => "ERROR"
  end.

(** The body of [results.forEach] but for [hasError]: the line logged
    for one diagnostic. *)
Definition render (err : LintError) : Output :=
  let color := match type err with error => Red | warning => Yellow end in
  let ruleId :=
    match ruleId err with
    | Some s => if String.eqb s "" then None else Some s
    | None => None
    end in
  LogDiagnostic color (line err) (upperType (type err)) (message err) ruleId.

(** [hasError] after the loop over the results. *)
Definition hasError (results : list LintError) : bool :=
  existsb (fun err => match type err with error => true | warning => false end)
    results.

(** [config.exclude.some(pattern => minimatch(normalizedPath, pattern))],
    guarded by [config.exclude && Array.isArray(config.exclude)]. *)
Definition excludedBy (p : Process) (excl : option (list string))
    (normalizedPath : string) : bool :=
  match excl with
  | Some patterns => existsb (minimatch p normalizedPath) patterns
  | None => false
  end.

Definition isExcluded (p : Process) (config : DelugeConfig)
    (normalizedPath : string) : bool :=
  match exclude config with
  | Some patterns => existsb (minimatch p normalizedPath) patterns
  | None => false
  end.

(** The report of the results: the clean-code line, or one line for
    each diagnostic and [process.exit(1)] if one is an error. *)
Definition report (results : list LintError) : Outcome :=
  if length results =? 0 then
    {| outputs := [LogClean]; status := Returns |}
  else
    {| outputs := map render results;
       status := if hasError results then Exit 1 else Returns |}.

Definition main (p : Process) : Outcome :=
  if existsb (String.eqb "--init") (argv p) then
    if existsSync p then
      {| outputs := [ErrorConfigExists]; status := Exit 1 |}
    else if writeFileSync p then
      {| outputs := [WriteConfig initialConfig; LogCreated];
         status := Exit 0 |}
    else {| outputs := []; status := Uncaught |}
  else
    match nth_error (argv p) 2 with
    | None => {| outputs := [ErrorNoFile]; status := Exit 1 |}
    | Some filePath =>
        if String.eqb filePath "" then
          {| outputs := [ErrorNoFile]; status := Exit 1 |}
        else
          match getConfig (search p) with
          | None => {| outputs := [ErrorProcessing]; status := Exit 1 |}
          | Some config =>
              match excludeOf config with
              | None =>
                  {| outputs := [ErrorProcessing]; status := Exit 1 |}
              | Some excl =>
                  let normalizedPath := normalizedPathOf p filePath in
                  if excludedBy p excl normalizedPath then
                    {| outputs := [LogIgnored normalizedPath];
                       status := Exit 0 |}
                  else
                    match readFileSync p filePath with
                    | None =>
                        {| outputs := [ErrorProcessing];
                           status := Exit 1 |}
                    | Some code =>
                        match analyzeLoaded code config with
                        | None =>
                            {| outputs := [ErrorProcessing];
                               status := Exit 1 |}
                        | Some results => report results
                        end
                    end
              end
          end
    end.

(** ** The scope tracker as a state machine

    The scope part of the scan state, and the events that change it: a
    line on which the loop keyword is found, an opening brace, a closing
    brace.  The lemmas below show that the scanner's scope state is the
    result of running these events in scan order. *)

Definition Scope : Type := list bool * bool.

Definition scopeOf (st : ScanState) : Scope :=
  (braceStack st, expectingLoopBrace st).

Inductive Event : Type := Keyword | Open | Close.

#[global] Instance Event_eq_dec : EqDecision Event.
Proof. solve_decision. Defined.

Definition stepEvent (sc : Scope) (e : Event) : Scope :=
  match e with
  | Keyword => (sc.1, true)
  | Open => (sc.1 ++ [sc.2], false)
  | Close => (removelast sc.1, sc.2)
  end.

Definition runEvents (evs : list Event) (sc : Scope) : Scope :=
  fold_left stepEvent evs sc.

Definition braceEvent (c : jschar) : Event :=
  if (c =? ch "{")%N then Open else Close.

(** The events of one line, in the order the scanner processes them. *)
Definition lineEvents (content : jsstring) : list Event :=
  if isCommentLine content then []
  else (if test forEachRe content then [Keyword] else [])
         ++ map braceEvent (List.filter isBrace content).

Definition scanEvents (code : jsstring) : list Event :=
  flat_map lineEvents (split [newline] code).

(** The number of opening braces not yet matched by a closing brace: a
    closing brace matches the latest unmatched opening brace, and
    matches nothing when there is none. *)
Fixpoint unmatchedFrom (open : nat) (evs : list Event) : nat :=
  match evs with
  | [] => open
  | Open :: rest => unmatchedFrom (S open) rest
  | Close :: rest => unmatchedFrom (pred open) rest
  | Keyword :: rest => unmatchedFrom open rest
  end.

Definition unmatchedOpen (evs : list Event) : nat := unmatchedFrom 0 evs.

(** Event sequences whose braces are properly nested. *)
Inductive Balanced : list Event -> Prop :=
| Balanced_nil : Balanced []
| Balanced_keyword w : Balanced w -> Balanced (Keyword :: w)
| Balanced_block w1 w2 :
    Balanced w1 -> Balanced w2 -> Balanced (Open :: w1 ++ Close :: w2).

(** The [isLoop] tags of the frames pushed while running [evs], in
    order, popped or not. *)
Fixpoint pushLog (evs : list Event) (sc : Scope) : list bool :=
  match evs with
  | [] => []
  | e :: rest =>
      match e with
      | Open => sc.2 :: pushLog rest (stepEvent sc e)
      | _ => pushLog rest (stepEvent sc e)
      end
  end.

Definition countTrue (l : list bool) : nat :=
  length (List.filter (fun b => b) l).

Definition countKeyword (evs : list Event) : nat :=
  length (List.filter (fun e => bool_decide (e = Keyword)) evs).

(** ** The diagnostics of one line

    What a rule check appends for a line, read off the check itself by
    running it on a state without diagnostics. *)

Definition ruleDiags
    (check : DelugeConfig -> jsstring -> nat -> ScanState -> ScanState)
    (config : DelugeConfig) (content : jsstring) (lineNumber : nat)
    (stack : list bool) : list LintError :=
  errors (check config content lineNumber
            {| braceStack := stack; expectingLoopBrace := false;
               errors := [] |}).

Definition lineDiags (config : DelugeConfig) (content : jsstring)
    (lineNumber : nat) (stack : list bool) : list LintError :=
  ruleDiags checkHardcodedIds config content lineNumber stack
  ++ ruleDiags checkSemicolon config content lineNumber stack
  ++ ruleDiags checkCamelCase config content lineNumber stack
  ++ ruleDiags checkTimeout config content lineNumber stack.

Fixpoint diagsFrom (config : DelugeConfig) (lines : list jsstring)
    (index : nat) (sc : Scope) : list LintError :=
  match lines with
  | [] => []
  | content :: rest =>
      let sc' := runEvents (lineEvents content) sc in
      (if isCommentLine content then []
       else lineDiags config content (index + 1) sc'.1)
      ++ diagsFrom config rest (S index) sc'
  end.

(** ** Vocabulary of the properties *)

(** The rules and the position of each in the order of evaluation: the
    length rule runs before the scan, the four line rules in this
    order on every line. *)
Definition ruleRank (id : option string) : nat :=
  match id with
  | Some s =>
      if String.eqb s "max-lines-per-function" then 0
      else if String.eqb s "no-hardcoded-ids" then 1
      else if String.eqb s "require-semicolon" then 2
      else if String.eqb s "camelcase-vars" then 3
      else if String.eqb s "enforce-timeout-awareness" then 4
      else 5
  | None => 5
  end.

Definition lineEvaluators : list string :=
  ["no-hardcoded-ids"; "require-semicolon"; "camelcase-vars";
   "enforce-timeout-awareness"].

(** Position of a diagnostic in the output order: line first, then
    rule. *)
Definition diagBefore (d1 d2 : LintError) : Prop :=
  line d1 < line d2
  \/ (line d1 = line d2 /\ ruleRank (ruleId d1) < ruleRank (ruleId d2)).

(** The documented default of every rule. *)
Definition documentedDefaults : list (string * string) :=
  [("no-hardcoded-ids", "warn"); ("require-semicolon", "error");
   ("camelcase-vars", "warn"); ("enforce-timeout-awareness", "warn");
   ("max-lines-per-function", "off")].

Definition setRule (k : string) (v : RuleValue) (config : DelugeConfig)
  : DelugeConfig :=
  {| rules := <[k := v]> (rules config);
     exclude := exclude config; env := env config |}.

Definition unsetRule (k : string) (config : DelugeConfig) : DelugeConfig :=
  {| rules := delete k (rules config);
     exclude := exclude config; env := env config |}.

Definition hasRule (id : string) (d : LintError) : bool :=
  match ruleId d with
  | Some s => String.eqb s id
  | None => false
  end.

(** "The line count [n] exceeds the configured number [m]". *)
Definition exceeds (n : nat) (m : JsNumber) : Prop :=
  match m with
  | NaN => False
  | Infinity negative => negative = true
  | Finite q => (q < inject_Z (Z.of_nat n))%Q
  end.

(** The trigger of the semicolon rule in the words of the rule table:
    the code part is not empty, does not end with one of [; { } :] and
    does not start with a control-flow keyword as a whole word. *)
Definition endsWithChar (c : ascii) (s : jsstring) : Prop :=
  exists pre, s = pre ++ [ch c].

Definition startsWithWord (kw : string) (s : jsstring) : Prop :=
  exists rest, s = js kw ++ rest /\
    match rest with
    | [] => True
    | c :: _ => isWordChar c = false
    end.

Definition controlKeywords : list string := ["if"; "else"; "for"; "while"].

Definition semicolonExpected (codePart : jsstring) : Prop :=
  codePart <> []
  /\ (forall c, In c [";"; "{"; "}"; ":"]%char -> ~ endsWithChar c codePart)
  /\ (forall kw, In kw controlKeywords -> ~ startsWithWord kw codePart).

(** The inputs of the worked examples. *)
Definition joinLines (lines : list string) : jsstring :=
  match lines with
  | [] => []
  | l :: rest => js l ++ flat_map (fun x => newline :: js x) rest
  end.

Definition loopExample : jsstring :=
  joinLines ["for each r in records"; "{"; "    zoho.crm.getRecords();"; "}"].

Definition callLine : jsstring := js "    zoho.crm.getRecords();".

Definition withErrors (st : ScanState) (ds : list LintError) : ScanState :=
  {| braceStack := braceStack st;
     expectingLoopBrace := expectingLoopBrace st;
     errors := errors st ++ ds |}.

(** The diagnostics a rule [id] with default [dv] may append for line
    [n]: none, or one of that rule on that line, the rule being enabled
    and the severity the configured one. *)
Definition ruleShape (config : DelugeConfig) (id dv : string) (n : nat)
    (ds : list LintError) : Prop :=
  ds = [] \/
  exists d, ds = [d] /\ line d = n /\ ruleId d = Some id
    /\ strictEq (orElse (rules config !! id) (VStr dv)) "off" = false
    /\ type d = severityOf (orElse (rules config !! id) (VStr dv)).

(** Where a diagnostic of the result comes from. *)
Definition fromLengthRule (config : DelugeConfig) (d : LintError) : Prop :=
  ruleId d = Some "max-lines-per-function" /\ line d = 1
  /\ type d = warning
  /\ exists n, rules config !! "max-lines-per-function" = Some (VNum n).

Definition fromLineRule (config : DelugeConfig) (d : LintError) : Prop :=
  exists id dv, In (id, dv) documentedDefaults
    /\ In id lineEvaluators
    /\ ruleId d = Some id
    /\ strictEq (orElse (rules config !! id) (VStr dv)) "off" = false
    /\ type d = severityOf (orElse (rules config !! id) (VStr dv)).

Definition lineRuleAt (config : DelugeConfig) (n r : nat) (d : LintError)
  : Prop :=
  line d = n /\ ruleRank (ruleId d) = r /\ fromLineRule config d.

(** Two configurations under which every rule reads the same value. *)
Definition configAgree (c1 c2 : DelugeConfig) : Prop :=
  (forall id dv, In (id, dv) documentedDefaults -> In id lineEvaluators ->
     orElse (rules c1 !! id) (VStr dv) = orElse (rules c2 !! id) (VStr dv))
  /\ (forall lines, checkMaxLines c1 lines = checkMaxLines c2 lines).

(** The default configuration with the length rule set to a number. *)
Definition thresholdConfig (n : Z) : DelugeConfig :=
  setRule "max-lines-per-function" (VNum (Finite (inject_Z n)))
    defaultConfig.

Definition threeLines : jsstring := joinLines ["a = 1;"; "b = 2;"; "c = 3;"].

Definition lengthDiag (len : nat) (n : Z) : LintError :=
  {| line := 1;
     message := FunctionLength len (Finite (inject_Z n));
     type := warning;
     ruleId := Some "max-lines-per-function" |}.

(** The code unit before the position reached after matching the
    literal [w]. *)
Definition afterLit (prev : option jschar) (w : jsstring) : option jschar :=
  match last w with
  | Some c => Some c
  | None => prev
  end.

(** The keyword [kw] at the start of [s], ending at a word boundary. *)
Definition keywordAt (kw : string) (s : jsstring) : bool :=
  startsWith (js kw) s
  && negb (isWordAt (head (drop (length (js kw)) s))).

(** The condition under which the semicolon rule reports a line. *)
Definition semicolonFires (content : jsstring) : bool :=
  let codePart := codePartOf content in
  negb (length codePart =? 0)
  && (0 <? length codePart)
  && negb (endsWith (js ";") codePart)
  && negb (endsWith (js "{") codePart)
  && negb (endsWith (js "}") codePart)
  && negb (endsWith (js ":") codePart)
  && negb (test controlFlowRe codePart).

Definition semicolonDiag (config : DelugeConfig) (n : nat) : LintError :=
  {| line := n;
     message := Text (js "Missing semicolon at the end of the line.");
     type := severityOf
               (orElse (rules config !! "require-semicolon") (VStr "error"));
     ruleId := Some "require-semicolon" |}.

(** Whether a match attempt succeeded. *)
Definition matched {A} (o : option A) : bool :=
  match o with
  | Some _ => true
  | None => false
  end.

(** [pieces.join(sep)], the inverse of [split]. *)
Fixpoint join (sep : jsstring) (pieces : list jsstring) : jsstring :=
  match pieces with
  | [] => []
  | [x] => x
  | x :: rest => x ++ sep ++ join sep rest
  end.

(** ** Vocabulary of the further properties *)

(** The diagnostics of the line rules: everything but the length
    rule's. *)
Definition lineDiagnostics (ds : list LintError) : list LintError :=
  List.filter (fun d => negb (hasRule "max-lines-per-function" d)) ds.

(** The scope state after the first [n] lines of [lines]. *)
Definition scopeAfter (lines : list jsstring) (n : nat) : Scope :=
  runEvents (flat_map lineEvents (take n lines)) ([], false).

(** The keys [analyzeDeluge] reads. *)
Definition ruleIds : list string :=
  "max-lines-per-function" :: lineEvaluators.

(** The configured value of a rule is falsy: the key is absent, or
    holds the empty string, zero or NaN. *)
Definition falsyRule (v : option RuleValue) : Prop :=
  match v with
  | None => True
  | Some x => truthy x = false
  end.

(** A diagnostic moved [n] lines down. *)
Definition shiftLine (n : nat) (d : LintError) : LintError :=
  {| line := line d + n; message := message d;
     type := type d; ruleId := ruleId d |}.

(** ** What a pattern matches

    [Matches r prev s prev' s' caps]: the pattern [r] matches the input
    [s], preceded by the code unit [prev], up to the remaining input
    [s'], preceded by [prev'], and records the captures [caps].  The
    matcher [exec] is shown below to find a match exactly when there is
    one. *)
Fixpoint Matches (r : Regex) (prev : option jschar) (s : jsstring)
    (prev' : option jschar) (s' : jsstring) (caps : list jsstring) : Prop :=
  match r with
  | Empty => prev' = prev /\ s' = s /\ caps = []
  | Class p =>
      exists c, s = c :: s' /\ p c = true /\ prev' = Some c /\ caps = []
  | Seq r1 r2 =>
      exists pm sm c1 c2,
        Matches r1 prev s pm sm c1 /\ Matches r2 pm sm prev' s' c2
        /\ caps = c1 ++ c2
  | Alt r1 r2 =>
      Matches r1 prev s prev' s' caps \/ Matches r2 prev s prev' s' caps
  | Star p =>
      exists a,
        s = a ++ s' /\ Forall (fun c => p c = true) a
        /\ prev' = afterLit prev a /\ caps = []
  | Group r' =>
      exists c,
        Matches r' prev s prev' s' c
        /\ caps = c ++ [take (length s - length s') s]
  | Bol => prev = None /\ prev' = prev /\ s' = s /\ caps = []
  | Eol => s = [] /\ prev' = prev /\ s' = s /\ caps = []
  | WordB =>
      xorb (isWordAt prev) (isWordAt (head s)) = true
      /\ prev' = prev /\ s' = s /\ caps = []
  end.

(** [r] matches somewhere in [s]. *)
Definition MatchesIn (r : Regex) (s : jsstring) (caps : list jsstring)
  : Prop :=
  exists pre rest prev' s',
    s = pre ++ rest /\ Matches r (afterLit None pre) rest prev' s' caps.

(** All code units of a string are in a class. *)
Definition allOf (p : jschar -> bool) (s : jsstring) : Prop :=
  Forall (fun c => p c = true) s.

(** A line that assigns to [name]: white space, the name (a run of
    word characters), white space, an equals sign. *)
Definition AssignmentTo (name content : jsstring) : Prop :=
  exists ws ws' rest,
    content = ws ++ name ++ ws' ++ ch "=" :: rest
    /\ allOf isSpace ws /\ name <> [] /\ allOf isWordChar name
    /\ allOf isSpace ws'.

(** A name in camelCase: a lower-case letter, then letters and digits. *)
Definition CamelCase (name : jsstring) : Prop :=
  exists c rest, name = c :: rest /\ isLower c = true /\ allOf isAlnum rest.

(** The run of [p] ends where [s] begins. *)
Definition stops (p : jschar -> bool) (s : jsstring) : Prop :=
  match s with
  | [] => True
  | c :: _ => p c = false
  end.

Definition camelCaseMessage (name : jsstring) : Message :=
  Text (js "Variable '" ++ name ++ js "' should be in camelCase.").

(** A line that holds an API call: [zoho.], a module name, a dot, a
    function name, or the word [invokeurl]; then white space and an
    opening parenthesis. *)
Definition ApiCall (content : jsstring) : Prop :=
  exists pre ws post,
    allOf isSpace ws
    /\ ((exists m f,
           m <> [] /\ allOf isWordChar m /\ f <> [] /\ allOf isWordChar f
           /\ content
              = pre ++ js "zoho." ++ m ++ js "." ++ f ++ ws
                  ++ ch "(" :: post)
        \/ content = pre ++ js "invokeurl" ++ ws ++ ch "(" :: post).

(** A line that holds the loop keyword: [for], white space, [each], as
    whole words. *)
Definition LoopKeyword (content : jsstring) : Prop :=
  exists pre ws post,
    content = pre ++ js "for" ++ ws ++ js "each" ++ post
    /\ ws <> [] /\ allOf isSpace ws
    /\ isWordAt (last pre) = false /\ stops isWordChar post.

(** The process [p] reading files through [reader]. *)
Definition withReader (p : Process) (reader : string -> option jsstring)
  : Process :=
  {| argv := argv p; existsSync := existsSync p;
     writeFileSync := writeFileSync p; search := search p;
     normalizedPathOf := normalizedPathOf p; minimatch := minimatch p;
     readFileSync := reader |}.

(** A run that lints the file [filePath] under [config]: no [--init],
    the file named as first argument, the configuration loaded and of
    the declared type. *)
Definition lintsFile (p : Process) (filePath : string)
    (config : DelugeConfig) : Prop :=
  ~ In "--init" (argv p)
  /\ nth_error (argv p) 2 = Some filePath /\ filePath <> ""
  /\ getConfig (search p) = Some (Typed config).

(** A diagnostic whose rule the configuration makes an error. *)
Definition fromErrorRule (config : DelugeConfig) (d : LintError) : Prop :=
  exists id,
    In id lineEvaluators /\ ruleId d = Some id
    /\ (rules config !! id = Some (VStr "error")
        \/ (id = "require-semicolon" /\ falsyRule (rules config !! id))).

(** A run on [script.dg] holding [code], with no configuration file
    and a matcher that matches nothing. *)
Definition exampleRun (args : list string) (code : jsstring) : Process :=
  {| argv := "node" :: "deluge-lint" :: args;
     existsSync := false; writeFileSync := true; search := NotFound;
     normalizedPathOf := fun f => f;
     minimatch := fun _ _ => false;
     readFileSync := fun _ => Some code |}.

(** The same run on [script.dg] with a [.delugerc] that holds an object
    without [rules]. *)
Definition rulesLessRun (code : jsstring) : Process :=
  {| argv := ["node"; "deluge-lint"; "script.dg"];
     existsSync := true; writeFileSync := true;
     search := Found (WithoutRules None);
     normalizedPathOf := fun f => f;
     minimatch := fun _ _ => false;
     readFileSync := fun _ => Some code |}.

(** ** Vocabulary of the loop tag and of the rule defaults *)

(** A line on which the scanner finds the loop keyword. *)
Definition keywordLine (content : jsstring) : bool :=
  negb (isCommentLine content) && test forEachRe content.

(** A line with an opening brace before the loop keyword and one after
    it, and a text in which a call follows the end of that loop's
    body. *)
Definition braceBeforeKeyword : jsstring :=
  js "if (c) { for each r in rows {".

Definition callAfterLoopBody : jsstring :=
  joinLines ["if (c) { for each r in rows {"; "}";
             "zoho.crm.getRecords(x);"; "}"].

(** What a line rule looks for on line [k + 1] of [lines], holding
    [content]: 18 digits in a row; a code part that should end with a
    semicolon; an assignment to a name that is not in camelCase; an
    API call while a loop frame is on the stack. *)
Definition ruleFires (id : string) (lines : list jsstring) (k : nat)
    (content : jsstring) : Prop :=
  if String.eqb id "no-hardcoded-ids" then
    exists pre run post,
      content = pre ++ run ++ post /\ length run = 18 /\ allOf isDigit run
  else if String.eqb id "require-semicolon" then
    semicolonExpected (codePartOf content)
  else if String.eqb id "camelcase-vars" then
    exists name, AssignmentTo name content /\ ~ CamelCase name
  else if String.eqb id "enforce-timeout-awareness" then
    isInsideLoop (scopeAfter lines (S k)).1 = true /\ ApiCall content
  else False.

(** ** Structure of the scan *)

Section ScanStructure.

Variable config : DelugeConfig.

Lemma braceStep_scope st c :
  isBrace c = true ->
  scopeOf (braceStep st c) = stepEvent (scopeOf st) (braceEvent c).
Proof.
  unfold isBrace, braceStep, braceEvent. intros Hb.
  apply orb_true_iff in Hb.
  destruct (c =? ch "{")%N eqn:Ho; [reflexivity|].
  destruct Hb as [Hb|Hb]; [discriminate|]. rewrite Hb. reflexivity.
Qed.

Lemma braceStep_errors st c : errors (braceStep st c) = errors st.
Proof.
  unfold braceStep.
  destruct (c =? ch "{")%N; [reflexivity|].
  destruct (c =? ch "}")%N; reflexivity.
Qed.

Lemma fold_braceStep_scope bs : forall st,
  Forall (fun c => isBrace c = true) bs ->
  scopeOf (fold_left braceStep bs st)
  = runEvents (map braceEvent bs) (scopeOf st).
Proof.
  induction bs as [|c bs IH]; intros st Hall; [reflexivity|].
  inversion Hall as [|? ? Hc Hbs]; subst. simpl.
  rewrite IH by assumption. unfold runEvents.
  rewrite braceStep_scope by assumption. reflexivity.
Qed.

Lemma fold_braceStep_errors bs : forall st,
  errors (fold_left braceStep bs st) = errors st.
Proof.
  induction bs as [|c bs IH]; intros st; [reflexivity|].
  simpl. rewrite IH. apply braceStep_errors.
Qed.

Lemma filter_isBrace_all content :
  Forall (fun c => isBrace c = true) (List.filter isBrace content).
Proof.
  apply List.Forall_forall. intros c Hin.
  apply List.filter_In in Hin. tauto.
Qed.

Lemma updateScope_scope content st :
  scopeOf (updateScope content st)
  = runEvents ((if test forEachRe content then [Keyword] else [])
                 ++ map braceEvent (List.filter isBrace content))
      (scopeOf st).
Proof.
  unfold updateScope, matchAllClass.
  pose proof (filter_isBrace_all content) as Hall.
  destruct (List.filter isBrace content) as [|b bs] eqn:Hf.
  - destruct (test forEachRe content); reflexivity.
  - rewrite fold_braceStep_scope by assumption.
    destruct (test forEachRe content); reflexivity.
Qed.

Lemma updateScope_errors content st :
  errors (updateScope content st) = errors st.
Proof.
  unfold updateScope, matchAllClass.
  destruct (List.filter isBrace content) as [|b bs];
    [|rewrite fold_braceStep_errors];
    destruct (test forEachRe content); reflexivity.
Qed.

Lemma withErrors_nil st : withErrors st [] = st.
Proof. destruct st. unfold withErrors. simpl. by rewrite app_nil_r. Qed.

Lemma pushError_withErrors st e : pushError st e = withErrors st [e].
Proof. reflexivity. Qed.

Ltac frame_check :=
  intros; unfold ruleDiags;
  repeat match goal with
  | |- context [if ?b then _ else _] => destruct b eqn:?
  | |- context [match ?o with Some _ => _ | None => _ end] =>
      destruct o eqn:?
  end;
  simpl; rewrite ?withErrors_nil; try reflexivity; try discriminate.

Lemma checkHardcodedIds_frame content n st :
  checkHardcodedIds config content n st
  = withErrors st
      (ruleDiags checkHardcodedIds config content n (braceStack st)).
Proof. unfold checkHardcodedIds. frame_check. Qed.

Lemma checkSemicolon_frame content n st :
  checkSemicolon config content n st
  = withErrors st
      (ruleDiags checkSemicolon config content n (braceStack st)).
Proof. unfold checkSemicolon. frame_check. Qed.

Lemma checkCamelCase_frame content n st :
  checkCamelCase config content n st
  = withErrors st
      (ruleDiags checkCamelCase config content n (braceStack st)).
Proof. unfold checkCamelCase. frame_check. Qed.

Lemma checkTimeout_frame content n st :
  checkTimeout config content n st
  = withErrors st
      (ruleDiags checkTimeout config content n (braceStack st)).
Proof.
  unfold checkTimeout, ruleDiags. simpl.
  destruct (negb _); [|by rewrite withErrors_nil].
  destruct (isInsideLoop _); [|by rewrite withErrors_nil].
  destruct (test _ _); [reflexivity|by rewrite withErrors_nil].
Qed.

Lemma lineCallback_scope st content index :
  scopeOf (lineCallback config st content index)
  = runEvents (lineEvents content) (scopeOf st).
Proof.
  unfold lineCallback, lineEvents.
  destruct (isCommentLine content); [reflexivity|].
  rewrite checkTimeout_frame, checkCamelCase_frame,
    checkSemicolon_frame, checkHardcodedIds_frame.
  unfold withErrors, scopeOf at 1. simpl.
  apply (updateScope_scope content st).
Qed.

Lemma lineCallback_errors st content index :
  errors (lineCallback config st content index)
  = errors st
    ++ (if isCommentLine content then []
        else lineDiags config content (index + 1)
               (runEvents (lineEvents content) (scopeOf st)).1).
Proof.
  pose proof (lineCallback_scope st content index) as Hsc.
  unfold lineCallback, lineEvents in *.
  destruct (isCommentLine content); [by rewrite app_nil_r|].
  rewrite <- Hsc. clear Hsc.
  rewrite checkTimeout_frame, checkCamelCase_frame,
    checkSemicolon_frame, checkHardcodedIds_frame.
  unfold withErrors, lineDiags, scopeOf. simpl.
  rewrite updateScope_errors, <- !app_assoc. reflexivity.
Qed.

Lemma forEachFrom_scope lines : forall index st,
  scopeOf (forEachFrom (lineCallback config) lines index st)
  = runEvents (flat_map lineEvents lines) (scopeOf st).
Proof.
  induction lines as [|content rest IH]; intros index st; [reflexivity|].
  simpl. rewrite IH, lineCallback_scope. unfold runEvents.
  by rewrite fold_left_app.
Qed.

Lemma forEachFrom_errors lines : forall index st,
  errors (forEachFrom (lineCallback config) lines index st)
  = errors st ++ diagsFrom config lines index (scopeOf st).
Proof.
  induction lines as [|content rest IH]; intros index st.
  - simpl. by rewrite app_nil_r.
  - simpl. rewrite IH, lineCallback_errors, lineCallback_scope.
    by rewrite <- app_assoc.
Qed.

Lemma analyzeDeluge_eq code :
  analyzeDeluge code config
  = checkMaxLines config (split [newline] code)
    ++ diagsFrom config (split [newline] code) 0 ([], false).
Proof. unfold analyzeDeluge, scan. apply forEachFrom_errors. Qed.

Lemma scan_scope code :
  scopeOf (scan code config) = runEvents (scanEvents code) ([], false).
Proof. unfold scan, scanEvents. apply forEachFrom_scope. Qed.

End ScanStructure.

(** ** The diagnostics of each rule *)

Section RuleDiagnostics.

Variable config : DelugeConfig.

Ltac shape_check :=
  unfold ruleShape, ruleDiags; simpl;
  repeat match goal with
  | |- context [if negb ?b then _ else _] => destruct b eqn:?; simpl
  | |- context [if ?b then _ else _] => destruct b eqn:?; simpl
  | |- context [match ?o with Some _ => _ | None => _ end] =>
      destruct o eqn:?; simpl
  end;
  first [ by left | right; eexists; repeat split; eauto ].

Lemma hardcodedIds_shape content n stack :
  ruleShape config "no-hardcoded-ids" "warn" n
    (ruleDiags checkHardcodedIds config content n stack).
Proof. unfold checkHardcodedIds. shape_check. Qed.

Lemma semicolon_shape content n stack :
  ruleShape config "require-semicolon" "error" n
    (ruleDiags checkSemicolon config content n stack).
Proof. unfold checkSemicolon. shape_check. Qed.

Lemma camelCase_shape content n stack :
  ruleShape config "camelcase-vars" "warn" n
    (ruleDiags checkCamelCase config content n stack).
Proof. unfold checkCamelCase. shape_check. Qed.

Lemma timeout_shape content n stack :
  ruleShape config "enforce-timeout-awareness" "warn" n
    (ruleDiags checkTimeout config content n stack).
Proof. unfold checkTimeout. shape_check. Qed.

End RuleDiagnostics.

(** ** Order and provenance of the diagnostics *)

Section Diagnostics.

Variable config : DelugeConfig.

Lemma ruleShape_elem id dv n ds d :
  In (id, dv) documentedDefaults -> In id lineEvaluators ->
  ruleShape config id dv n ds -> d ∈ ds ->
  lineRuleAt config n (ruleRank (Some id)) d.
Proof.
  intros Hdoc Hev [->|(d' & -> & Hl & Hid & Hon & Hty)] Hin.
  - by apply elem_of_nil in Hin.
  - apply list_elem_of_singleton in Hin. subst d'.
    unfold lineRuleAt, fromLineRule. rewrite Hid.
    split; [done|]. split; [done|]. exists id, dv. done.
Qed.

Lemma ruleShape_sorted id dv n ds :
  ruleShape config id dv n ds -> StronglySorted diagBefore ds.
Proof.
  intros [->|(d & -> & _)]; repeat constructor.
Qed.

Lemma sorted_app_rank n r (l1 l2 : list LintError) :
  (forall d, d ∈ l1 -> line d = n /\ ruleRank (ruleId d) < r) ->
  (forall d, d ∈ l2 -> line d = n /\ r <= ruleRank (ruleId d)) ->
  StronglySorted diagBefore l1 -> StronglySorted diagBefore l2 ->
  StronglySorted diagBefore (l1 ++ l2).
Proof.
  intros H1 H2 S1 S2. apply StronglySorted_app. split; [|done].
  intros d1 d2 Hd1 Hd2.
  destruct (H1 d1 Hd1) as [? ?]. destruct (H2 d2 Hd2) as [? ?].
  right. split; [congruence|lia].
Qed.

Lemma lineDiags_elem content n stack d :
  d ∈ lineDiags config content n stack ->
  line d = n /\ 1 <= ruleRank (ruleId d) <= 4 /\ fromLineRule config d.
Proof.
  unfold lineDiags. rewrite !elem_of_app.
  intros [H|[H|[H|H]]].
  - eapply ruleShape_elem in H; [|..|apply hardcodedIds_shape];
      [|simpl; tauto..].
    destruct H as (? & Hr & ?). simpl in Hr. split_and!; [done|lia..|done].
  - eapply ruleShape_elem in H; [|..|apply semicolon_shape];
      [|simpl; tauto..].
    destruct H as (? & Hr & ?). simpl in Hr. split_and!; [done|lia..|done].
  - eapply ruleShape_elem in H; [|..|apply camelCase_shape];
      [|simpl; tauto..].
    destruct H as (? & Hr & ?). simpl in Hr. split_and!; [done|lia..|done].
  - eapply ruleShape_elem in H; [|..|apply timeout_shape];
      [|simpl; tauto..].
    destruct H as (? & Hr & ?). simpl in Hr. split_and!; [done|lia..|done].
Qed.

Lemma lineDiags_sorted content n stack :
  StronglySorted diagBefore (lineDiags config content n stack).
Proof.
  pose proof (hardcodedIds_shape config content n stack) as S1.
  pose proof (semicolon_shape config content n stack) as S2.
  pose proof (camelCase_shape config content n stack) as S3.
  pose proof (timeout_shape config content n stack) as S4.
  assert (E1 := fun d => ruleShape_elem "no-hardcoded-ids" "warn" _ _ d
     ltac:(simpl; tauto) ltac:(simpl; tauto) S1).
  assert (E2 := fun d => ruleShape_elem "require-semicolon" "error" _ _ d
     ltac:(simpl; tauto) ltac:(simpl; tauto) S2).
  assert (E3 := fun d => ruleShape_elem "camelcase-vars" "warn" _ _ d
     ltac:(simpl; tauto) ltac:(simpl; tauto) S3).
  assert (E4 := fun d => ruleShape_elem "enforce-timeout-awareness" "warn" _ _ d
     ltac:(simpl; tauto) ltac:(simpl; tauto) S4).
  unfold lineRuleAt in *. simpl in E1, E2, E3, E4.
  unfold lineDiags.
  apply (sorted_app_rank n 2); [ | |eauto using ruleShape_sorted|].
  - intros d Hd. destruct (E1 d Hd) as (? & -> & _). split; [done|lia].
  - intros d. rewrite !elem_of_app. intros [Hd|[Hd|Hd]].
    + destruct (E2 d Hd) as (? & -> & _). split; [done|lia].
    + destruct (E3 d Hd) as (? & -> & _). split; [done|lia].
    + destruct (E4 d Hd) as (? & -> & _). split; [done|lia].
  - apply (sorted_app_rank n 3); [ | |eauto using ruleShape_sorted|].
    + intros d Hd. destruct (E2 d Hd) as (? & -> & _). split; [done|lia].
    + intros d. rewrite !elem_of_app. intros [Hd|Hd].
      * destruct (E3 d Hd) as (? & -> & _). split; [done|lia].
      * destruct (E4 d Hd) as (? & -> & _). split; [done|lia].
    + apply (sorted_app_rank n 4); eauto using ruleShape_sorted.
      * intros d Hd. destruct (E3 d Hd) as (? & -> & _). split; [done|lia].
      * intros d Hd. destruct (E4 d Hd) as (? & -> & _). split; [done|lia].
Qed.

Lemma diagsFrom_elem lines : forall index sc d,
  d ∈ diagsFrom config lines index sc ->
  index < line d /\ 1 <= ruleRank (ruleId d) <= 4 /\ fromLineRule config d.
Proof.
  induction lines as [|content rest IH]; intros index sc d Hd.
  - by apply elem_of_nil in Hd.
  - simpl in Hd. apply elem_of_app in Hd. destruct Hd as [Hd|Hd].
    + destruct (isCommentLine content); [by apply elem_of_nil in Hd|].
      apply lineDiags_elem in Hd. destruct Hd as (Hl & ? & ?).
      split_and!; [lia|tauto..].
    + apply IH in Hd. destruct Hd as (Hl & ? & ?).
      split_and!; [lia|tauto..].
Qed.

Lemma diagsFrom_sorted lines : forall index sc,
  StronglySorted diagBefore (diagsFrom config lines index sc).
Proof.
  induction lines as [|content rest IH]; intros index sc; [constructor|].
  simpl. apply StronglySorted_app. split_and!; [|..|apply IH].
  - intros d1 d2 Hd1 Hd2.
    destruct (isCommentLine content); [by apply elem_of_nil in Hd1|].
    apply lineDiags_elem in Hd1. apply (diagsFrom_elem _ _ _ _) in Hd2.
    left. lia.
  - destruct (isCommentLine content); [constructor|].
    apply lineDiags_sorted.
Qed.

Lemma checkMaxLines_elem lines d :
  d ∈ checkMaxLines config lines -> fromLengthRule config d.
Proof.
  unfold checkMaxLines, fromLengthRule.
  destruct (rules config !! "max-lines-per-function") as [[s|m]|] eqn:Hm;
    try (intros H; by apply elem_of_nil in H).
  destruct (lengthGt _ _); [|intros H; by apply elem_of_nil in H].
  intros H. apply list_elem_of_singleton in H. subst d. simpl.
  split_and!; eauto.
Qed.

Lemma analyzeDeluge_sorted code :
  StronglySorted diagBefore (analyzeDeluge code config).
Proof.
  rewrite analyzeDeluge_eq. apply StronglySorted_app.
  split_and!; [| |apply diagsFrom_sorted].
  - intros d1 d2 Hd1 Hd2.
    apply checkMaxLines_elem in Hd1.
    apply (diagsFrom_elem _ _ _ _) in Hd2.
    destruct Hd1 as (Hid & Hl & _). destruct Hd2 as (? & ? & _).
    unfold diagBefore. rewrite Hid, Hl. simpl. lia.
  - unfold checkMaxLines.
    destruct (rules config !! "max-lines-per-function") as [[s|m]|];
      try constructor.
    destruct (lengthGt _ _); repeat constructor.
Qed.

Lemma analyzeDeluge_provenance code d :
  d ∈ analyzeDeluge code config ->
  fromLengthRule config d \/ (1 <= line d /\ fromLineRule config d).
Proof.
  rewrite analyzeDeluge_eq, elem_of_app. intros [H|H].
  - left. by eapply checkMaxLines_elem.
  - right. apply (diagsFrom_elem _ _ _ _) in H. split; [lia|tauto].
Qed.

End Diagnostics.

Lemma filter_none {A} (f : A -> bool) (l : list A) :
  (forall x, x ∈ l -> f x = false) -> List.filter f l = [].
Proof.
  induction l as [|x l IH]; intros H; [reflexivity|].
  simpl. rewrite (H x) by (apply elem_of_cons; by left).
  apply IH. intros y Hy. apply H, elem_of_cons. by right.
Qed.

Lemma StronglySorted_lookup {A} (R : A -> A -> Prop) (l : list A) :
  StronglySorted R l ->
  forall i j a b, l !! i = Some a -> l !! j = Some b -> i < j -> R a b.
Proof.
  induction 1 as [|x l Hs IH Hall]; intros i j a b Hi Hj Hlt.
  - by rewrite lookup_nil in Hi.
  - destruct j as [|j]; [lia|]. simpl in Hj. destruct i as [|i].
    + simpl in Hi. injection Hi as <-.
      rewrite Forall_forall in Hall. apply Hall.
      by eapply list_elem_of_lookup_2.
    + simpl in Hi. eapply IH; eauto. lia.
Qed.

(** ** Dependence on the configuration *)

Section ConfigAgreement.

Variables c1 c2 : DelugeConfig.
Hypothesis agree : configAgree c1 c2.

Lemma lineDiags_agree content n stack :
  lineDiags c1 content n stack = lineDiags c2 content n stack.
Proof.
  destruct agree as [Hr _].
  unfold lineDiags, ruleDiags, checkHardcodedIds, checkSemicolon,
    checkCamelCase, checkTimeout.
  rewrite (Hr "no-hardcoded-ids" "warn") by (simpl; tauto).
  rewrite (Hr "require-semicolon" "error") by (simpl; tauto).
  rewrite (Hr "camelcase-vars" "warn") by (simpl; tauto).
  rewrite (Hr "enforce-timeout-awareness" "warn") by (simpl; tauto).
  reflexivity.
Qed.

Lemma diagsFrom_agree lines : forall index sc,
  diagsFrom c1 lines index sc = diagsFrom c2 lines index sc.
Proof.
  induction lines as [|content rest IH]; intros index sc; [reflexivity|].
  simpl. by rewrite IH, lineDiags_agree.
Qed.

Lemma analyzeDeluge_agree code :
  analyzeDeluge code c1 = analyzeDeluge code c2.
Proof.
  rewrite !analyzeDeluge_eq, diagsFrom_agree.
  destruct agree as [_ Hm]. by rewrite Hm.
Qed.

End ConfigAgreement.

Lemma lineEvaluators_not_maxLines id :
  In id lineEvaluators -> id <> "max-lines-per-function".
Proof. simpl. intros [<-|[<-|[<-|[<-|[]]]]]; discriminate. Qed.

Lemma fromLineRule_not_maxLines config d :
  fromLineRule config d -> ruleId d <> Some "max-lines-per-function".
Proof.
  intros (id & dv & _ & Hev & Hid & _) Heq. rewrite Hid in Heq.
  injection Heq as ->. by apply lineEvaluators_not_maxLines in Hev.
Qed.

Lemma lengthGt_exceeds n m : lengthGt n m = true <-> exceeds n m.
Proof.
  destruct m as [|neg|q]; simpl; [split; [discriminate|tauto]|tauto|].
  rewrite negb_true_iff. split.
  - intros Hle. apply Qnot_le_lt. intros H.
    apply Qle_bool_iff in H. congruence.
  - intros Hlt. destruct (Qle_bool _ q) eqn:E; [|reflexivity].
    apply Qle_bool_iff in E. by apply Qlt_not_le in Hlt.
Qed.

Lemma splitGo_newline_snoc s : forall cur,
  splitGo [newline] 0 cur (s ++ [newline])
  = splitGo [newline] 0 cur s ++ [[]].
Proof.
  induction s as [|c s IH]; intros cur; [reflexivity|].
  simpl. destruct (c =? newline)%N; simpl; by rewrite IH.
Qed.

Lemma split_newline_snoc code :
  split [newline] (code ++ [newline]) = split [newline] code ++ [[]].
Proof. apply splitGo_newline_snoc. Qed.

Lemma splitGo_nonempty sep s : forall skip cur, splitGo sep skip cur s <> [].
Proof.
  induction s as [|c s IH]; intros skip cur; simpl; [done|].
  destruct skip; [|apply IH]. destruct (startsWith sep (c :: s)); [done|].
  apply IH.
Qed.

Lemma join_cons sep x rest :
  rest <> [] -> join sep (x :: rest) = x ++ sep ++ join sep rest.
Proof. by destruct rest. Qed.

Lemma splitGo_newline_cons c s cur :
  splitGo [newline] 0 cur (c :: s)
  = if (c =? newline)%N then rev cur :: splitGo [newline] 0 [] s
    else splitGo [newline] 0 (c :: cur) s.
Proof. simpl. by destruct (c =? newline)%N. Qed.

Lemma join_splitGo_newline s : forall cur,
  join [newline] (splitGo [newline] 0 cur s) = rev cur ++ s.
Proof.
  induction s as [|c s IH]; intros cur.
  - simpl. by rewrite app_nil_r.
  - rewrite splitGo_newline_cons.
    destruct (N.eqb_spec c newline) as [->|Hne].
    + rewrite join_cons by apply splitGo_nonempty.
      rewrite (IH []). reflexivity.
    + rewrite (IH (c :: cur)). simpl. by rewrite <- app_assoc.
Qed.

Lemma elem_of_rev {A} (x : A) (l : list A) : x ∈ rev l <-> x ∈ l.
Proof. rewrite !list_elem_of_In. symmetry. apply in_rev. Qed.

Lemma splitGo_newline_free s : forall cur,
  newline ∉ cur ->
  Forall (fun l => newline ∉ l) (splitGo [newline] 0 cur s).
Proof.
  induction s as [|c s IH]; intros cur Hcur.
  - simpl. constructor; [|constructor]. by rewrite elem_of_rev.
  - rewrite splitGo_newline_cons.
    destruct (N.eqb_spec c newline) as [->|Hne].
    + constructor; [by rewrite elem_of_rev|].
      apply IH. apply not_elem_of_nil.
    + apply IH. apply not_elem_of_cons. split; [congruence|done].
Qed.

Lemma split_newline_lines code :
  join [newline] (split [newline] code) = code
  /\ Forall (fun l => newline ∉ l) (split [newline] code).
Proof.
  split.
  - apply (join_splitGo_newline code []).
  - apply splitGo_newline_free, not_elem_of_nil.
Qed.

Lemma maxLines_diagnostics (code : jsstring) (config : DelugeConfig)
    (threshold : JsNumber) :
  rules config !! "max-lines-per-function" = Some (VNum threshold) ->
  (exceeds (length (split [newline] code)) threshold ->
   exists d rest,
     analyzeDeluge code config = d :: rest
     /\ ruleId d = Some "max-lines-per-function" /\ line d = 1
     /\ List.filter (hasRule "max-lines-per-function")
          (analyzeDeluge code config) = [d])
  /\ (~ exceeds (length (split [newline] code)) threshold ->
      List.filter (hasRule "max-lines-per-function")
        (analyzeDeluge code config) = []).
Proof.
  intros Hcfg.
  assert (Hrest : List.filter (hasRule "max-lines-per-function")
            (diagsFrom config (split [newline] code) 0 ([], false)) = []).
  { apply filter_none. intros d Hd.
    apply (diagsFrom_elem _ _ _ _) in Hd.
    destruct Hd as (_ & _ & Hline).
    pose proof (fromLineRule_not_maxLines _ _ Hline) as Hne.
    unfold hasRule. destruct (ruleId d) as [s|]; [|reflexivity].
    destruct (String.eqb_spec s "max-lines-per-function"); [|reflexivity].
    congruence. }
  rewrite analyzeDeluge_eq. unfold checkMaxLines. rewrite Hcfg. split.
  - intros Hex. apply lengthGt_exceeds in Hex. rewrite Hex.
    eexists _, _. split; [reflexivity|]. split; [reflexivity|].
    split; [reflexivity|]. simpl. f_equal. exact Hrest.
  - intros Hex. destruct (lengthGt _ threshold) eqn:E.
    + by apply lengthGt_exceeds in E.
    + exact Hrest.
Qed.

(** ** The loop example *)

Lemma loopExample_lines :
  split [newline] loopExample
  = [js "for each r in records"; js "{"; callLine; js "}"].
Proof. vm_compute. reflexivity. Qed.

Lemma filter_line_other config content n m stack :
  n <> m ->
  List.filter (fun d => line d =? m) (lineDiags config content n stack) = [].
Proof.
  intros Hne. apply filter_none. intros d Hd.
  apply lineDiags_elem in Hd. destruct Hd as [-> _].
  by apply Nat.eqb_neq.
Qed.

Lemma filter_line_same config content n stack :
  List.filter (fun d => line d =? n) (lineDiags config content n stack)
  = lineDiags config content n stack.
Proof.
  apply List.forallb_filter_id, List.forallb_forall. intros d Hd.
  apply list_elem_of_In, lineDiags_elem in Hd. destruct Hd as [-> _].
  apply Nat.eqb_refl.
Qed.

Lemma filter_line_maxLines config lines m :
  1 <> m ->
  List.filter (fun d => line d =? m) (checkMaxLines config lines) = [].
Proof.
  intros Hne. apply filter_none. intros d Hd.
  apply checkMaxLines_elem in Hd. destruct Hd as (_ & -> & _).
  by apply Nat.eqb_neq.
Qed.

Lemma callLine_diags config n stack :
  lineDiags config callLine n stack
  = ruleDiags checkTimeout config callLine n stack.
Proof.
  assert (H1 : test hardcodedIdRe callLine = false)
    by (vm_compute; reflexivity).
  assert (H2 : endsWith (js ";") (codePartOf callLine) = true)
    by (vm_compute; reflexivity).
  assert (H3 : matchGroups assignmentRe callLine = None)
    by (vm_compute; reflexivity).
  unfold lineDiags.
  replace (ruleDiags checkHardcodedIds config callLine n stack) with
    (@nil LintError)
    by (unfold ruleDiags, checkHardcodedIds; rewrite H1;
        by destruct (negb _)).
  replace (ruleDiags checkSemicolon config callLine n stack) with
    (@nil LintError)
    by (unfold ruleDiags, checkSemicolon; rewrite H2;
        rewrite !andb_false_r; simpl; by destruct (negb _)).
  replace (ruleDiags checkCamelCase config callLine n stack) with
    (@nil LintError)
    by (unfold ruleDiags, checkCamelCase; rewrite H3;
        by destruct (negb _)).
  reflexivity.
Qed.

(** ** The scope machine *)

Lemma runEvents_app evs1 evs2 sc :
  runEvents (evs1 ++ evs2) sc = runEvents evs2 (runEvents evs1 sc).
Proof. apply fold_left_app. Qed.

Lemma removelast_snoc {A} (l : list A) (x : A) : removelast (l ++ [x]) = l.
Proof. apply removelast_last. Qed.

Lemma length_removelast {A} (l : list A) :
  length (removelast l) = pred (length l).
Proof.
  induction l as [|x [|y l] IH]; [reflexivity..|].
  change (S (length (removelast (y :: l))) = S (length l)).
  rewrite IH. reflexivity.
Qed.

Lemma runEvents_depth evs : forall sc,
  length (runEvents evs sc).1 = unmatchedFrom (length sc.1) evs.
Proof.
  induction evs as [|e evs IH]; intros sc; [reflexivity|].
  change (runEvents (e :: evs) sc) with (runEvents evs (stepEvent sc e)).
  rewrite IH. destruct e; simpl.
  - reflexivity.
  - rewrite length_app. simpl. by rewrite Nat.add_1_r.
  - by rewrite length_removelast.
Qed.

Lemma runEvents_balanced w :
  Balanced w -> forall sc, (runEvents w sc).1 = sc.1.
Proof.
  induction 1 as [|w Hw IH|w1 w2 H1 IH1 H2 IH2]; intros sc.
  - reflexivity.
  - change (runEvents (Keyword :: w) sc)
      with (runEvents w (stepEvent sc Keyword)).
    by rewrite IH.
  - change (runEvents (Open :: w1 ++ Close :: w2) sc)
      with (runEvents (w1 ++ Close :: w2) (stepEvent sc Open)).
    rewrite runEvents_app.
    change (runEvents (Close :: w2) ?s)
      with (runEvents w2 (stepEvent s Close)).
    rewrite IH2. simpl. rewrite IH1. simpl. apply removelast_snoc.
Qed.

Lemma unmatchedFrom_app evs1 : forall evs2 n,
  unmatchedFrom n (evs1 ++ evs2) = unmatchedFrom (unmatchedFrom n evs1) evs2.
Proof.
  induction evs1 as [|e evs1 IH]; intros evs2 n; [reflexivity|].
  destruct e; simpl; apply IH.
Qed.

Lemma unmatchedFrom_balanced w :
  Balanced w -> forall n, unmatchedFrom n w = n.
Proof.
  induction 1 as [|w Hw IH|w1 w2 H1 IH1 H2 IH2]; intros n.
  - reflexivity.
  - simpl. apply IH.
  - simpl. rewrite unmatchedFrom_app, IH1. simpl. apply IH2.
Qed.

Lemma isInsideLoop_elem stack : isInsideLoop stack = true <-> true ∈ stack.
Proof.
  unfold isInsideLoop. rewrite List.existsb_exists. split.
  - intros (b & Hin & ->). by apply list_elem_of_In.
  - intros Hin. exists true. split; [by apply list_elem_of_In|done].
Qed.

Lemma runEvents_cons e evs sc :
  runEvents (e :: evs) sc = runEvents evs (stepEvent sc e).
Proof. reflexivity. Qed.

Lemma flag_kept_until_open pre : forall sc,
  Open ∉ pre -> sc.2 = true -> (runEvents pre sc).2 = true.
Proof.
  induction pre as [|e pre IH]; intros sc Hno Hflag; [done|].
  rewrite runEvents_cons. apply not_elem_of_cons in Hno as [Hne Hno].
  apply IH; [done|]. by destruct e.
Qed.

Lemma flag_clear_until_keyword mid : forall sc,
  Keyword ∉ mid -> sc.2 = false -> (runEvents mid sc).2 = false.
Proof.
  induction mid as [|e mid IH]; intros sc Hno Hflag; [done|].
  rewrite runEvents_cons. apply not_elem_of_cons in Hno as [Hne Hno].
  apply IH; [done|]. by destruct e.
Qed.

Lemma runEvents_open evs sc :
  runEvents (evs ++ [Open]) sc
  = ((runEvents evs sc).1 ++ [(runEvents evs sc).2], false).
Proof. by rewrite runEvents_app. Qed.

Lemma pushLog_count evs : forall sc,
  countTrue (pushLog evs sc)
  <= countKeyword evs + (if sc.2 then 1 else 0).
Proof.
  unfold countTrue, countKeyword.
  induction evs as [|e evs IH]; intros sc; [simpl; lia|].
  destruct e; simpl.
  - specialize (IH (sc.1, true)). simpl in IH. destruct sc.2; lia.
  - specialize (IH (sc.1 ++ [sc.2], false)). simpl in IH.
    destruct sc.2; simpl; lia.
  - specialize (IH (removelast sc.1, sc.2)). simpl in IH. lia.
Qed.

Lemma lineEvents_keyword content :
  isCommentLine content = false -> test forEachRe content = true ->
  lineEvents content
  = Keyword :: map braceEvent (List.filter isBrace content).
Proof. unfold lineEvents. by intros -> ->. Qed.

Lemma pushLog_app evs1 : forall evs2 sc,
  pushLog (evs1 ++ evs2) sc
  = pushLog evs1 sc ++ pushLog evs2 (runEvents evs1 sc).
Proof.
  induction evs1 as [|e evs1 IH]; intros evs2 sc; [reflexivity|].
  rewrite runEvents_cons. destruct e; simpl; by rewrite IH.
Qed.

Lemma pushLog_no_open pre : forall sc, Open ∉ pre -> pushLog pre sc = [].
Proof.
  induction pre as [|e pre IH]; intros sc Hno; [reflexivity|].
  apply not_elem_of_cons in Hno as [Hne Hno].
  destruct e; [|done|]; simpl; by apply IH.
Qed.

Lemma pushLog_plain mid : forall sc,
  Keyword ∉ mid -> sc.2 = false ->
  Forall (fun isLoop => isLoop = false) (pushLog mid sc).
Proof.
  induction mid as [|e mid IH]; intros sc Hno Hflag; [constructor|].
  apply not_elem_of_cons in Hno as [Hne Hno].
  destruct e; [done| |]; simpl.
  - constructor; [done|]. by apply IH.
  - by apply IH.
Qed.

Lemma countKeyword_app evs1 evs2 :
  countKeyword (evs1 ++ evs2) = countKeyword evs1 + countKeyword evs2.
Proof. unfold countKeyword. by rewrite List.filter_app, length_app. Qed.

Lemma countKeyword_braces bs : countKeyword (map braceEvent bs) = 0.
Proof.
  unfold countKeyword. induction bs as [|c bs IH]; [reflexivity|].
  cbn [map List.filter].
  assert (Hne : braceEvent c <> Keyword)
    by (unfold braceEvent; by destruct (c =? ch "{")%N).
  by rewrite bool_decide_eq_false_2.
Qed.

Lemma countKeyword_lines lines :
  countKeyword (flat_map lineEvents lines)
  = length (List.filter keywordLine lines).
Proof.
  induction lines as [|content rest IH]; [reflexivity|].
  cbn [flat_map List.filter]. rewrite countKeyword_app, IH.
  unfold lineEvents, keywordLine.
  destruct (isCommentLine content); [reflexivity|].
  rewrite countKeyword_app, countKeyword_braces.
  by destruct (test forEachRe content).
Qed.

Lemma keyword_line_scope pre mid stack flag :
  Open ∉ pre ->
  runEvents (Keyword :: pre ++ Open :: mid) (stack, flag)
  = runEvents mid ((runEvents pre (stack, true)).1 ++ [true], false).
Proof.
  intros Hno. rewrite runEvents_cons, runEvents_app, runEvents_cons.
  simpl. by rewrite (flag_kept_until_open pre (stack, true)).
Qed.

(** ** Strings and patterns *)

Lemma startsWith_prefix p : forall s,
  startsWith p s = true <-> exists rest, s = p ++ rest.
Proof.
  induction p as [|a p IH]; intros s; simpl.
  - split; [intros _; by exists s|done].
  - destruct s as [|c s]; [split; [done|by intros [? ?]]|].
    rewrite andb_true_iff, N.eqb_eq, IH. split.
    + intros [-> [rest ->]]. by exists rest.
    + intros [rest Heq]. injection Heq as -> ->. split; [done|by exists rest].
Qed.

Lemma endsWith_suffix c s :
  endsWith [c] s = true <-> exists pre, s = pre ++ [c].
Proof.
  unfold endsWith. rewrite startsWith_prefix. simpl. split.
  - intros [rest Heq]. exists (rev rest).
    rewrite <- (rev_involutive s), Heq. reflexivity.
  - intros [pre ->]. exists (rev pre). by rewrite rev_app_distr.
Qed.

Lemma afterLit_cons prev x w : afterLit (Some x) w = afterLit prev (x :: w).
Proof.
  unfold afterLit. destruct w as [|y w]; [reflexivity|].
  change (last (x :: y :: w)) with (last (y :: w)).
  destruct (last (y :: w)) eqn:E; [reflexivity|].
  by apply last_None in E.
Qed.

Lemma exec_Lit w k : forall prev s caps,
  exec (Lit w) k prev s caps
  = if startsWith w s then k (afterLit prev w) (drop (length w) s) caps
    else None.
Proof.
  induction w as [|c w IH]; intros prev s caps; [reflexivity|].
  destruct s as [|x s]; [reflexivity|]. simpl.
  rewrite (N.eqb_sym x c). destruct (N.eqb_spec c x) as [->|Hne]; simpl.
  - rewrite IH. by rewrite (afterLit_cons prev).
  - reflexivity.
Qed.

Lemma searchFrom_unfold r prev s :
  searchFrom r prev s
  = match exec r accept prev s [] with
    | Some caps => Some caps
    | None =>
        match s with
        | [] => None
        | c :: s' => searchFrom r (Some c) s'
        end
    end.
Proof. by destruct s. Qed.

Lemma searchFrom_Bol_inside r s : forall c,
  searchFrom (Seq Bol r) (Some c) s = None.
Proof. induction s as [|x s IH]; intros c; simpl; [done|apply IH]. Qed.

Lemma test_Bol r s :
  test (Seq Bol r) s = matched (exec r accept None s []).
Proof.
  unfold test. rewrite searchFrom_unfold. simpl.
  destruct (exec r accept None s []) as [caps|] eqn:E; [reflexivity|].
  destruct s; [|rewrite searchFrom_Bol_inside]; reflexivity.
Qed.

Lemma matched_orelse {A} (a b : option A) :
  matched match a with Some x => Some x | None => b end
  = matched a || matched b.
Proof. by destruct a. Qed.

Lemma matched_Lit w k prev s caps :
  matched (exec (Lit w) k prev s caps)
  = startsWith w s
    && matched (k (afterLit prev w) (drop (length w) s) caps).
Proof. rewrite exec_Lit. by destruct (startsWith w s). Qed.

Lemma matched_WordB prev s caps :
  matched (exec WordB accept prev s caps)
  = xorb (isWordAt prev) (isWordAt (head s)).
Proof. simpl. by destruct (xorb _ _). Qed.

Lemma exec_Seq r1 r2 k prev s caps :
  exec (Seq r1 r2) k prev s caps = exec r1 (exec r2 k) prev s caps.
Proof. reflexivity. Qed.

Lemma exec_Alt r1 r2 k prev s caps :
  exec (Alt r1 r2) k prev s caps
  = match exec r1 k prev s caps with
    | Some x => Some x
    | None => exec r2 k prev s caps
    end.
Proof. reflexivity. Qed.

Lemma exec_Group r k prev s caps :
  exec (Group r) k prev s caps
  = exec r
      (fun prev' s' caps' =>
         k prev' s' (caps' ++ [take (length s - length s') s]))
      prev s caps.
Proof. reflexivity. Qed.

Lemma test_controlFlowRe s :
  test controlFlowRe s
  = keywordAt "if" s || keywordAt "else" s || keywordAt "for" s
    || keywordAt "while" s.
Proof.
  unfold controlFlowRe. rewrite test_Bol. unfold keywordAt.
  rewrite exec_Seq, exec_Group, !exec_Alt.
  rewrite !matched_orelse, !matched_Lit. cbv beta.
  rewrite !matched_WordB.
  replace (isWordAt (afterLit None (js "if"))) with true by reflexivity.
  replace (isWordAt (afterLit None (js "else"))) with true by reflexivity.
  replace (isWordAt (afterLit None (js "for"))) with true by reflexivity.
  replace (isWordAt (afterLit None (js "while"))) with true by reflexivity.
  cbn [xorb]. by rewrite !orb_assoc.
Qed.

Lemma keywordAt_word kw s : keywordAt kw s = true <-> startsWithWord kw s.
Proof.
  unfold keywordAt, startsWithWord.
  rewrite andb_true_iff, negb_true_iff, startsWith_prefix. split.
  - intros [[rest ->] Hb]. exists rest. split; [done|].
    rewrite drop_app_length in Hb. by destruct rest.
  - intros (rest & -> & Hb). split; [by exists rest|].
    rewrite drop_app_length. by destruct rest.
Qed.

Lemma semicolonFires_expected content :
  semicolonFires content = true <-> semicolonExpected (codePartOf content).
Proof.
  unfold semicolonFires, semicolonExpected.
  generalize (codePartOf content) as codePart. intros codePart.
  rewrite !andb_true_iff, !negb_true_iff, test_controlFlowRe.
  rewrite !orb_false_iff, Nat.eqb_neq, Nat.ltb_lt.
  change (js ";") with [ch ";"]. change (js "{") with [ch "{"].
  change (js "}") with [ch "}"]. change (js ":") with [ch ":"].
  split.
  - intros ((((((Hne & _) & H1) & H2) & H3) & H4) & ((K1 & K2) & K3) & K4).
    split_and!.
    + intros ->. by apply Hne.
    + intros c Hc Hend. apply endsWith_suffix in Hend.
      simpl in Hc. destruct Hc as [<-|[<-|[<-|[<-|[]]]]]; congruence.
    + intros kw Hkw Hstart. apply keywordAt_word in Hstart.
      simpl in Hkw. destruct Hkw as [<-|[<-|[<-|[<-|[]]]]]; congruence.
  - intros (Hne & Hend & Hkw).
    assert (Hc : forall c, In c [";"; "{"; "}"; ":"]%char ->
                   endsWith [ch c] codePart = false).
    { intros c Hc. destruct (endsWith [ch c] codePart) eqn:E; [|done].
      apply endsWith_suffix in E. by apply Hend in E. }
    assert (Hk : forall kw, In kw controlKeywords ->
                   keywordAt kw codePart = false).
    { intros kw Hin. destruct (keywordAt kw codePart) eqn:E; [|done].
      apply keywordAt_word in E. by apply Hkw in E. }
    assert (0 < length codePart) by (destruct codePart; simpl; [done|lia]).
    split_and!; try (apply Hc; simpl; tauto);
      try (apply Hk; simpl; tauto); lia.
Qed.

Lemma rule_enabled v dv :
  dv <> "off" ->
  strictEq (orElse v (VStr dv)) "off" = false <-> v <> Some (VStr "off").
Proof.
  intros Hdv.
  assert (Hd : String.eqb dv "off" = false) by by apply String.eqb_neq.
  destruct v as [[s|n]|]; simpl.
  - destruct (String.eqb_spec s "") as [->|Hs]; simpl.
    + split; [done|by intros _].
    + rewrite String.eqb_neq. split; [congruence|]. intros H ->. by apply H.
  - match goal with |- context [if ?b then _ else _] => destruct b end;
      simpl; rewrite ?Hd; (split; [done|by intros _]).
  - rewrite Hd. split; [done|by intros _].
Qed.

Section SemicolonRule.

Variable config : DelugeConfig.
Hypothesis enabled : rules config !! "require-semicolon" <> Some (VStr "off").

Lemma semicolon_diags content n stack :
  ruleDiags checkSemicolon config content n stack
  = if semicolonFires content then [semicolonDiag config n] else [].
Proof.
  unfold ruleDiags, checkSemicolon. fold (semicolonFires content).
  assert (Hon : strictEq (orElse (rules config !! "require-semicolon")
                            (VStr "error")) "off" = false)
    by (by apply rule_enabled).
  rewrite Hon. simpl. by destruct (semicolonFires content).
Qed.

Lemma lineDiags_semicolon content n stack :
  (exists d, d ∈ lineDiags config content n stack
             /\ ruleId d = Some "require-semicolon")
  <-> semicolonFires content = true.
Proof.
  unfold lineDiags. split.
  - intros (d & Hd & Hid). rewrite !elem_of_app in Hd.
    destruct Hd as [H|[H|[H|H]]].
    + eapply (ruleShape_elem _ "no-hardcoded-ids" "warn") in H;
        [|simpl; tauto..|apply hardcodedIds_shape].
      destruct H as (_ & Hr & _). rewrite Hid in Hr. discriminate.
    + rewrite semicolon_diags in H.
      destruct (semicolonFires content); [done|by apply elem_of_nil in H].
    + eapply (ruleShape_elem _ "camelcase-vars" "warn") in H;
        [|simpl; tauto..|apply camelCase_shape].
      destruct H as (_ & Hr & _). rewrite Hid in Hr. discriminate.
    + eapply (ruleShape_elem _ "enforce-timeout-awareness" "warn") in H;
        [|simpl; tauto..|apply timeout_shape].
      destruct H as (_ & Hr & _). rewrite Hid in Hr. discriminate.
  - intros Hfire. exists (semicolonDiag config n). split; [|done].
    rewrite !elem_of_app, semicolon_diags, Hfire. right. left.
    by apply list_elem_of_singleton.
Qed.

Lemma diagsFrom_semicolon lines : forall index sc k content,
  lines !! k = Some content ->
  (exists d, d ∈ diagsFrom config lines index sc
             /\ line d = index + k + 1
             /\ ruleId d = Some "require-semicolon")
  <-> isCommentLine content = false /\ semicolonFires content = true.
Proof.
  induction lines as [|content0 rest IH]; intros index sc k content Hk.
  - by rewrite lookup_nil in Hk.
  - destruct k as [|k]; simpl in Hk.
    + injection Hk as ->. simpl. split.
      * intros (d & Hd & Hl & Hid). apply elem_of_app in Hd.
        destruct Hd as [Hd|Hd].
        -- destruct (isCommentLine content);
             [by apply elem_of_nil in Hd|].
           split; [done|]. eapply lineDiags_semicolon. eauto.
        -- apply (diagsFrom_elem _ _ _ _) in Hd. lia.
      * intros [Hc Hfire]. rewrite Hc.
        destruct (proj2 (lineDiags_semicolon content (index + 1)
                           (runEvents (lineEvents content) sc).1) Hfire)
          as (d & Hd & Hid).
        exists d. split; [apply elem_of_app; by left|].
        apply lineDiags_elem in Hd. split; [lia|done].
    + rewrite <- (IH (S index) (runEvents (lineEvents content0) sc)
                    k content Hk).
      simpl. split.
      * intros (d & Hd & Hl & Hid). apply elem_of_app in Hd.
        destruct Hd as [Hd|Hd].
        -- destruct (isCommentLine content0);
             [by apply elem_of_nil in Hd|].
           apply lineDiags_elem in Hd. lia.
        -- exists d. split_and!; [done|lia|done].
      * intros (d & Hd & Hl & Hid). exists d.
        split_and!; [apply elem_of_app; by right|lia|done].
Qed.

End SemicolonRule.

Lemma first_splitGo sep s : forall cur,
  exists p rest,
    first (splitGo sep 0 cur s) = rev cur ++ p
    /\ s = p ++ rest
    /\ (rest = [] \/ startsWith sep rest = true)
    /\ (forall i, i < length p -> startsWith sep (drop i s) = false).
Proof.
  induction s as [|c s IH]; intros cur.
  - exists [], []. simpl. rewrite app_nil_r.
    split_and!; [done|done|by left|intros; lia].
  - simpl. destruct (startsWith sep (c :: s)) eqn:E.
    + exists [], (c :: s). simpl. rewrite app_nil_r.
      split_and!; [done|done|by right|intros; lia].
    + destruct (IH (c :: cur)) as (p & rest & Hf & -> & Hrest & Hno).
      exists (c :: p), rest. simpl in Hf.
      rewrite Hf, <- app_assoc. split_and!; [done|done|done|].
      intros [|i] Hi; [exact E|]. simpl in Hi. apply Hno. lia.
Qed.

Lemma codePartOf_before_comment content :
  exists p rest,
    trim content = p ++ rest
    /\ (rest = [] \/ startsWith (js "//") rest = true)
    /\ (forall i, i < length p ->
          startsWith (js "//") (drop i (trim content)) = false)
    /\ codePartOf content = trim p.
Proof.
  unfold codePartOf, split.
  destruct (first_splitGo (js "//") (trim content) [])
    as (p & rest & Hf & Hs & Hrest & Hno).
  exists p, rest. by rewrite Hf.
Qed.

(** ** Worked examples *)

Example hardcoded_id_example :
  map (fun d => (line d, type d, ruleId d))
    (analyzeDeluge (js "id = 409779000012345678;") defaultConfig)
  = [(1, warning, Some "no-hardcoded-ids")].
Proof. vm_compute. reflexivity. Qed.

Example camelCase_example :
  analyzeDeluge (js "myVar = 1;") defaultConfig = []
  /\ map (fun d => (line d, type d, ruleId d))
       (analyzeDeluge (js "My_Var = 1;") defaultConfig)
     = [(1, warning, Some "camelcase-vars")].
Proof. split; vm_compute; reflexivity. Qed.

Example loop_example :
  map (fun d => (line d, type d, ruleId d))
    (analyzeDeluge loopExample defaultConfig)
  = [(3, warning, Some "enforce-timeout-awareness")].
Proof. vm_compute. reflexivity. Qed.

Example brace_before_keyword_example :
  scopeOf (scan (js "{ for each x in y {") defaultConfig)
  = ([true; false], false).
Proof. vm_compute. reflexivity. Qed.

(** * Properties of the engine *)

(** C1: in the four-line loop example, with enforce-timeout-awareness
    at its default severity, line 3 (the call line) yields exactly one
    diagnostic, a warning of enforce-timeout-awareness; the call line
    alone yields no diagnostic of that rule. *)
Theorem timeout_awareness_example (config : DelugeConfig) :
  rules config !! "enforce-timeout-awareness" = None
  \/ rules config !! "enforce-timeout-awareness" = Some (VStr "warn") ->
  split [newline] loopExample !! 2 = Some callLine
  /\ (exists d,
        List.filter (fun d => line d =? 3) (analyzeDeluge loopExample config)
        = [d]
        /\ type d = warning
        /\ ruleId d = Some "enforce-timeout-awareness")
  /\ List.filter (hasRule "enforce-timeout-awareness")
       (analyzeDeluge callLine config) = [].
Proof.
  intros Hcfg.
  assert (Hrule : orElse (rules config !! "enforce-timeout-awareness")
                    (VStr "warn") = VStr "warn")
    by (destruct Hcfg as [-> | ->]; reflexivity).
  assert (Hcall : test apiCallRe callLine = true)
    by (vm_compute; reflexivity).
  split; [by rewrite loopExample_lines|]. split.
  - rewrite analyzeDeluge_eq, loopExample_lines.
    rewrite List.filter_app, filter_line_maxLines by lia.
    change (diagsFrom config
              [js "for each r in records"; js "{"; callLine; js "}"] 0
              ([], false))
      with (lineDiags config (js "for each r in records") 1 []
            ++ lineDiags config (js "{") 2 [true]
            ++ lineDiags config callLine 3 [true]
            ++ lineDiags config (js "}") 4 [] ++ []).
    rewrite !List.filter_app.
    rewrite (filter_line_other _ _ 1 3), (filter_line_other _ _ 2 3),
      (filter_line_other _ _ 4 3) by lia.
    rewrite filter_line_same, callLine_diags. simpl.
    unfold ruleDiags, checkTimeout. rewrite Hrule, Hcall. simpl.
    eexists. split; [reflexivity|]. split; reflexivity.
  - rewrite analyzeDeluge_eq.
    replace (split [newline] callLine) with [callLine]
      by (vm_compute; reflexivity).
    change (diagsFrom config [callLine] 0 ([], false))
      with (lineDiags config callLine 1 [] ++ []).
    rewrite app_nil_r, callLine_diags.
    replace (ruleDiags checkTimeout config callLine 1 []) with
      (@nil LintError)
      by (unfold ruleDiags, checkTimeout; simpl; by destruct (negb _)).
    rewrite app_nil_r. apply filter_none. intros d Hd.
    apply checkMaxLines_elem in Hd. destruct Hd as (Hid & _).
    unfold hasRule. by rewrite Hid.
Qed.

Lemma timeout_awareness_example_witness :
  (exists d,
     List.filter (fun d => line d =? 3)
       (analyzeDeluge loopExample defaultConfig) = [d]
     /\ type d = warning
     /\ ruleId d = Some "enforce-timeout-awareness")
  /\ List.filter (hasRule "enforce-timeout-awareness")
       (analyzeDeluge callLine defaultConfig) = [].
Proof.
  apply (timeout_awareness_example defaultConfig).
  right. vm_compute. reflexivity.
Defined.

(** C2: the scan of any text ends in a state, and at every point of the
    scan the depth of the brace stack is the number of unmatched opening
    braces scanned so far (an opening brace followed by a balanced block
    counts, and no longer counts once closed); a closing brace on the
    empty stack changes nothing; [isInsideLoop] holds exactly when a
    frame now on the stack is a loop frame, and once a block is closed
    the stack is what it was before the block was opened. *)
Theorem scope_stack_safety (code : jsstring) (config : DelugeConfig)
    (pre post : list Event) :
  scanEvents code = pre ++ post ->
  analyzeDeluge code config = errors (scan code config)
  /\ (forall k,
        scopeOf (forEachFrom (lineCallback config)
                   (take k (split [newline] code)) 0
                   (initialState
                      (checkMaxLines config (split [newline] code))))
        = runEvents (flat_map lineEvents (take k (split [newline] code)))
            ([], false))
  /\ (forall st braces,
        Forall (fun c => isBrace c = true) braces ->
        scopeOf (fold_left braceStep braces st)
        = runEvents (map braceEvent braces) (scopeOf st))
  /\ (forall st, braceStack st = [] -> braceStep st (ch "}") = st)
  /\ scopeOf (scan code config)
     = runEvents post (runEvents pre ([], false))
  /\ length (runEvents pre ([], false)).1 = unmatchedOpen pre
  /\ (forall before block,
        Balanced block ->
        unmatchedOpen (before ++ Open :: block)
        = S (unmatchedOpen before)
        /\ unmatchedOpen (before ++ Open :: block ++ [Close])
           = unmatchedOpen before)
  /\ ((runEvents pre ([], false)).1 = [] ->
      stepEvent (runEvents pre ([], false)) Close
      = runEvents pre ([], false))
  /\ (isInsideLoop (runEvents pre ([], false)).1 = true
      <-> true ∈ (runEvents pre ([], false)).1)
  /\ (forall before block,
        pre = before ++ Open :: block ++ [Close] -> Balanced block ->
        (runEvents pre ([], false)).1 = (runEvents before ([], false)).1
        /\ isInsideLoop (runEvents pre ([], false)).1
           = isInsideLoop (runEvents before ([], false)).1).
Proof.
  intros Hevs. split_and!.
  - reflexivity.
  - intros k. apply forEachFrom_scope.
  - intros st braces. apply fold_braceStep_scope.
  - intros [stack flag errs] Hempty. simpl in Hempty. by subst stack.
  - by rewrite scan_scope, Hevs, runEvents_app.
  - apply (runEvents_depth pre ([], false)).
  - intros before block Hbal. unfold unmatchedOpen.
    rewrite !unmatchedFrom_app. simpl.
    rewrite unmatchedFrom_app, !(unmatchedFrom_balanced block Hbal).
    done.
  - intros Hempty. destruct (runEvents pre ([], false)) as [stack flag].
    simpl in *. by subst stack.
  - apply isInsideLoop_elem.
  - intros before block -> Hbal.
    assert (Hst : (runEvents (before ++ Open :: block ++ [Close])
                     ([], false)).1
                  = (runEvents before ([], false)).1).
    { rewrite runEvents_app.
      apply (runEvents_balanced (Open :: block ++ [Close])).
      apply (Balanced_block block []); [done|constructor]. }
    by rewrite Hst.
Qed.

Lemma scope_stack_safety_witness :
  scopeOf (scan (js "} { for each x in y { } }") defaultConfig)
  = runEvents [Close] (runEvents [Keyword; Close; Open; Open; Close]
                         ([], false))
  /\ length (runEvents [Keyword; Close; Open; Open; Close] ([], false)).1
     = 1
  /\ isInsideLoop (runEvents [Keyword; Close; Open; Open; Close]
                     ([], false)).1
     = isInsideLoop (runEvents [Keyword; Close; Open] ([], false)).1.
Proof.
  destruct (scope_stack_safety (js "} { for each x in y { } }")
              defaultConfig [Keyword; Close; Open; Open; Close] [Close])
    as (_ & _ & _ & _ & Hfinal & Hdepth & _ & _ & _ & Hblock).
  - vm_compute. reflexivity.
  - split; [exact Hfinal|]. split; [exact Hdepth|].
    apply (Hblock [Keyword; Close; Open] []); [reflexivity|constructor].
Defined.

(** On a line with an opening brace before the loop keyword and one
    after it, the first brace is pushed as the loop frame and the brace
    that follows the keyword as a plain one; a call that comes after the
    end of the loop's body, still inside the first block, is reported. *)
Lemma brace_before_keyword_takes_the_tag :
  isCommentLine braceBeforeKeyword = false
  /\ test forEachRe braceBeforeKeyword = true
  /\ braceBeforeKeyword
     = js "if (c) { " ++ js "for each" ++ js " r in rows {"
  /\ List.filter isBrace (js "if (c) { ") = [ch "{"]
  /\ List.filter isBrace (js " r in rows {") = [ch "{"]
  /\ pushLog (scanEvents braceBeforeKeyword) ([], false) = [true; false]
  /\ scopeOf (scan braceBeforeKeyword defaultConfig) = ([true; false], false)
  /\ map (fun d => (line d, ruleId d))
       (analyzeDeluge callAfterLoopBody defaultConfig)
     = [(3, Some "enforce-timeout-awareness")].
Proof. split_and!; vm_compute; reflexivity. Qed.

(** C3: a non-comment line with [for each] sets the flag before any
    brace of that line is scanned; the first opening brace scanned from
    then on, which is the first one of that line, before or after the
    keyword, or else the first one of a later non-comment line, pushes a
    loop frame and clears the flag; the opening braces scanned after it
    and before another keyword line push plain frames; over any run of
    the scanner the loop frames pushed do not outnumber the keyword
    lines; and [for each x in list {] leaves the scope state that the
    two-line form leaves, one loop frame and no pending flag.  A brace
    that follows the keyword on a line with an earlier opening brace is
    pushed plain. *)
Theorem pending_loop_consumed_once (config : DelugeConfig) (st : ScanState)
    (index : nat) (content : jsstring) (after : list jsstring)
    (pre mid : list Event) :
  isCommentLine content = false -> test forEachRe content = true ->
  map braceEvent (List.filter isBrace content) ++ flat_map lineEvents after
  = pre ++ Open :: mid ->
  Open ∉ pre ->
  lineEvents content
  = Keyword :: map braceEvent (List.filter isBrace content)
  /\ scopeOf (forEachFrom (lineCallback config) (content :: after) index st)
     = runEvents mid
         ((runEvents pre (braceStack st, true)).1 ++ [true], false)
  /\ pushLog (flat_map lineEvents (content :: after)) (scopeOf st)
     = true
       :: pushLog mid
            ((runEvents pre (braceStack st, true)).1 ++ [true], false)
  /\ (Keyword ∉ mid ->
      Forall (fun isLoop => isLoop = false)
        (pushLog mid
           ((runEvents pre (braceStack st, true)).1 ++ [true], false)))
  /\ (mid = [] ->
      last (braceStack
              (forEachFrom (lineCallback config) (content :: after)
                 index st)) = Some true
      /\ expectingLoopBrace
           (forEachFrom (lineCallback config) (content :: after) index st)
         = false)
  /\ (forall mid',
        mid = mid' ++ [Open] -> Keyword ∉ mid' ->
        last (braceStack
                (forEachFrom (lineCallback config) (content :: after)
                   index st)) = Some false)
  /\ (forall lines sc0,
        countTrue (pushLog (flat_map lineEvents lines) sc0)
        <= length (List.filter keywordLine lines)
           + (if sc0.2 then 1 else 0))
  /\ (forall lines index0 st0,
        scopeOf (forEachFrom (lineCallback config) lines index0 st0)
        = runEvents (flat_map lineEvents lines) (scopeOf st0))
  /\ scopeOf (scan (js "for each x in list {") config) = ([true], false)
  /\ scopeOf (scan (joinLines ["for each x in list"; "{"]) config)
     = ([true], false)
  /\ scopeOf (scan braceBeforeKeyword config) = ([true; false], false)
  /\ (forall index0 st0,
        scopeOf (forEachFrom (lineCallback config)
                   [js "for each x in list {"] index0 st0)
        = scopeOf (forEachFrom (lineCallback config)
                     [js "for each x in list"; js "{"] index0 st0)).
Proof.
  intros Hc Hkw Hevs Hpre.
  assert (Hline : flat_map lineEvents (content :: after)
                  = Keyword :: pre ++ Open :: mid).
  { cbn [flat_map]. rewrite (lineEvents_keyword content Hc Hkw).
    rewrite <- Hevs. reflexivity. }
  split_and!.
  - by apply lineEvents_keyword.
  - rewrite forEachFrom_scope, Hline. unfold scopeOf.
    by apply keyword_line_scope.
  - rewrite Hline. unfold scopeOf. cbn [pushLog stepEvent fst snd].
    rewrite pushLog_app, (pushLog_no_open pre) by done.
    cbn [app pushLog stepEvent].
    by rewrite (flag_kept_until_open pre (braceStack st, true)).
  - intros Hmid. by apply pushLog_plain.
  - intros ->. change (braceStack ?s) with (scopeOf s).1.
    change (expectingLoopBrace ?s) with (scopeOf s).2.
    rewrite forEachFrom_scope, Hline. unfold scopeOf.
    rewrite keyword_line_scope by done. split; [apply last_snoc|done].
  - intros mid' -> Hmid. change (braceStack ?s) with (scopeOf s).1.
    rewrite forEachFrom_scope, Hline. unfold scopeOf.
    rewrite keyword_line_scope, runEvents_open by done.
    rewrite flag_clear_until_keyword by done. apply last_snoc.
  - intros lines sc0. rewrite <- countKeyword_lines. apply pushLog_count.
  - intros lines index0 st0. apply forEachFrom_scope.
  - rewrite scan_scope. vm_compute. reflexivity.
  - rewrite scan_scope. vm_compute. reflexivity.
  - rewrite scan_scope. vm_compute. reflexivity.
  - intros index0 st0. rewrite !forEachFrom_scope. f_equal.
Qed.

Lemma pending_loop_consumed_once_witness :
  (scopeOf (forEachFrom (lineCallback defaultConfig)
              [js "for each r in rows"; js "// {"; js "{"; js "if (c) {"]
              0 (initialState []))
   = ([true; false], false)
   /\ pushLog (flat_map lineEvents
                 [js "for each r in rows"; js "// {"; js "{";
                  js "if (c) {"]) ([], false)
      = [true; false])
  /\ scopeOf (forEachFrom (lineCallback defaultConfig)
                [js "} for each r in rows {"; js "{"] 7
                {| braceStack := [false; false];
                   expectingLoopBrace := false; errors := [] |})
     = ([false; true; false], false).
Proof.
  split.
  - destruct (pending_loop_consumed_once defaultConfig (initialState []) 0
                (js "for each r in rows") [js "// {"; js "{"; js "if (c) {"]
                [] [Open])
      as (_ & Hscope & Hlog & Hplain & _).
    + vm_compute. reflexivity.
    + vm_compute. reflexivity.
    + vm_compute. reflexivity.
    + apply not_elem_of_nil.
    + split; [exact Hscope|exact Hlog].
  - destruct (pending_loop_consumed_once defaultConfig
                {| braceStack := [false; false];
                   expectingLoopBrace := false; errors := [] |} 7
                (js "} for each r in rows {") [js "{"] [Close] [Open])
      as (_ & Hscope & _).
    + vm_compute. reflexivity.
    + vm_compute. reflexivity.
    + vm_compute. reflexivity.
    + intros H. apply elem_of_cons in H as [H|H]; [discriminate|].
      by apply elem_of_nil in H.
    + exact Hscope.
Defined.

(** C4: the diagnostics come out by ascending line number, and two
    diagnostics of the same line that stem from the line evaluators come
    out in the order no-hardcoded-ids, require-semicolon, camelcase-vars,
    enforce-timeout-awareness. *)
Theorem diagnostics_in_scan_order (code : jsstring) (config : DelugeConfig)
    (i j : nat) (d1 d2 : LintError) :
  analyzeDeluge code config !! i = Some d1 ->
  analyzeDeluge code config !! j = Some d2 ->
  i < j ->
  line d1 <= line d2
  /\ (line d1 = line d2 ->
      forall p1 p2 id1 id2,
        lineEvaluators !! p1 = Some id1 -> ruleId d1 = Some id1 ->
        lineEvaluators !! p2 = Some id2 -> ruleId d2 = Some id2 ->
        p1 < p2).
Proof.
  intros Hi Hj Hlt.
  pose proof (StronglySorted_lookup _ _ (analyzeDeluge_sorted config code)
                i j d1 d2 Hi Hj Hlt) as [Hb|[Heq Hrank]].
  - split; [lia|]. intros; lia.
  - split; [lia|]. intros _ p1 p2 id1 id2 Hp1 Hd1 Hp2 Hd2.
    rewrite Hd1, Hd2 in Hrank.
    destruct p1 as [|[|[|[|p1]]]]; simpl in Hp1; try discriminate;
      injection Hp1 as <-;
      (destruct p2 as [|[|[|[|p2]]]]; simpl in Hp2; try discriminate;
       injection Hp2 as <-; simpl in Hrank; lia).
Qed.

Lemma diagnostics_in_scan_order_witness :
  exists d1 d2,
    analyzeDeluge (js "My_Var = 409779000012345678") defaultConfig !! 1
      = Some d1
    /\ analyzeDeluge (js "My_Var = 409779000012345678") defaultConfig !! 2
      = Some d2
    /\ ruleId d1 = Some "require-semicolon"
    /\ ruleId d2 = Some "camelcase-vars"
    /\ line d1 <= line d2 /\ 1 < 2.
Proof.
  eexists _, _. split; [vm_compute; reflexivity|].
  split; [vm_compute; reflexivity|].
  split; [reflexivity|]. split; [reflexivity|].
  destruct (diagnostics_in_scan_order
              (js "My_Var = 409779000012345678") defaultConfig 1 2 _ _
              ltac:(vm_compute; reflexivity) ltac:(vm_compute; reflexivity)
              ltac:(lia)) as [Hline Hrule].
  split; [exact Hline|].
  apply (Hrule eq_refl 1 2 "require-semicolon" "camelcase-vars");
    reflexivity.
Defined.

(** C6: with max-lines-per-function set to a number, the result holds
    exactly one diagnostic of the rule, first in the list and on line 1,
    when the line count exceeds the number, and none otherwise. *)
Theorem max_lines_fires_once (code : jsstring) (config : DelugeConfig)
    (threshold : JsNumber) :
  rules config !! "max-lines-per-function" = Some (VNum threshold) ->
  (exceeds (length (split [newline] code)) threshold ->
   exists d rest,
     analyzeDeluge code config = d :: rest
     /\ ruleId d = Some "max-lines-per-function" /\ line d = 1
     /\ List.filter (hasRule "max-lines-per-function")
          (analyzeDeluge code config) = [d])
  /\ (~ exceeds (length (split [newline] code)) threshold ->
      List.filter (hasRule "max-lines-per-function")
        (analyzeDeluge code config) = [])
  /\ (threshold = Finite (inject_Z 2) ->
      length (split [newline] code) = 3 ->
      List.filter (hasRule "max-lines-per-function")
        (analyzeDeluge code config) = [lengthDiag 3 2]).
Proof.
  intros Hcfg.
  destruct (maxLines_diagnostics code config threshold Hcfg) as [Hyes Hno].
  split_and!; [exact Hyes|exact Hno|].
  intros -> Hlen. destruct Hyes as (d & rest & Heq & _ & _ & Hone).
  - rewrite Hlen. reflexivity.
  - rewrite Hone. f_equal. revert Heq.
    rewrite analyzeDeluge_eq. unfold checkMaxLines.
    rewrite Hcfg, Hlen. simpl. by intros [= <- _].
Qed.

Lemma max_lines_fires_once_witness :
  List.filter (hasRule "max-lines-per-function")
    (analyzeDeluge threeLines (thresholdConfig 2)) = [lengthDiag 3 2]
  /\ List.filter (hasRule "max-lines-per-function")
       (analyzeDeluge threeLines (thresholdConfig 3)) = [].
Proof.
  split.
  - destruct (proj1 (max_lines_fires_once threeLines (thresholdConfig 2)
                       (Finite (inject_Z 2)) eq_refl))
      as (d & rest & Heq & _ & _ & Hone).
    + vm_compute. reflexivity.
    + rewrite Hone. vm_compute in Heq. by injection Heq as <- _.
  - apply (proj2 (max_lines_fires_once threeLines (thresholdConfig 3)
                    (Finite (inject_Z 3)) eq_refl)).
    vm_compute. discriminate.
Defined.

(** C7: when the rule is enabled, a non-comment line gets a
    require-semicolon diagnostic exactly when its code part (the trimmed
    line up to the first [//], trimmed again) is not empty, does not end
    with one of [; { } :] and does not start with [if], [else], [for] or
    [while] as a whole word; by default [info x] gets one, of severity
    error, and [if (x > 1)] gets none. *)
Theorem semicolon_rule_trigger (code : jsstring) (config : DelugeConfig)
    (k : nat) (content : jsstring) :
  rules config !! "require-semicolon" <> Some (VStr "off") ->
  split [newline] code !! k = Some content ->
  isCommentLine content = false ->
  ((exists d, d ∈ analyzeDeluge code config
              /\ line d = k + 1
              /\ ruleId d = Some "require-semicolon")
   <-> semicolonExpected (codePartOf content))
  /\ (exists p rest,
        trim content = p ++ rest
        /\ (rest = [] \/ startsWith (js "//") rest = true)
        /\ (forall i, i < length p ->
              startsWith (js "//") (drop i (trim content)) = false)
        /\ codePartOf content = trim p)
  /\ analyzeDeluge (js "info x") defaultConfig
     = [ {| line := 1;
            message := Text (js "Missing semicolon at the end of the line.");
            type := error;
            ruleId := Some "require-semicolon" |} ]
  /\ analyzeDeluge (js "if (x > 1)") defaultConfig = [].
Proof.
  intros Hon Hk Hc. split_and!.
  - rewrite <- semicolonFires_expected.
    rewrite analyzeDeluge_eq. split.
    + intros (d & Hd & Hl & Hid). apply elem_of_app in Hd.
      destruct Hd as [Hd|Hd].
      * apply checkMaxLines_elem in Hd. destruct Hd as (Hid' & _).
        congruence.
      * eapply (diagsFrom_semicolon config Hon); [exact Hk|].
        exists d. split_and!; [exact Hd|lia|done].
    + intros Hfire.
      destruct (proj2 (diagsFrom_semicolon config Hon _ 0 ([], false)
                         k content Hk) (conj Hc Hfire))
        as (d & Hd & Hl & Hid).
      exists d. split_and!; [apply elem_of_app; by right|lia|done].
  - apply codePartOf_before_comment.
  - vm_compute. reflexivity.
  - vm_compute. reflexivity.
Qed.

Lemma semicolon_rule_trigger_witness :
  ((exists d, d ∈ analyzeDeluge (joinLines ["x = 1;"; "info x // note"])
                    defaultConfig
              /\ line d = 1 + 1
              /\ ruleId d = Some "require-semicolon")
   <-> semicolonExpected (codePartOf (js "info x // note")))
  /\ codePartOf (js "info x // note") = js "info x".
Proof.
  split; [|vm_compute; reflexivity].
  apply (semicolon_rule_trigger (joinLines ["x = 1;"; "info x // note"])
           defaultConfig 1 (js "info x // note")).
  - vm_compute. discriminate.
  - vm_compute. reflexivity.
  - vm_compute. reflexivity.
Defined.

(** C8: when the value configured for max-lines-per-function is not a
    number, the rule is disabled: no diagnostic of the rule is produced
    and the result is the one obtained without the key. *)
Theorem non_numeric_max_lines_disabled (code : jsstring)
    (config : DelugeConfig) :
  (forall n, rules config !! "max-lines-per-function" <> Some (VNum n)) ->
  (forall d, d ∈ analyzeDeluge code config ->
     ruleId d <> Some "max-lines-per-function")
  /\ analyzeDeluge code config
     = analyzeDeluge code (unsetRule "max-lines-per-function" config)
  /\ analyzeDeluge code config
     = diagsFrom config (split [newline] code) 0 ([], false).
Proof.
  intros Hnot. split_and!.
  - intros d Hd. apply analyzeDeluge_provenance in Hd.
    destruct Hd as [(_ & _ & _ & n & Hn)|[_ Hline]].
    + by apply Hnot in Hn.
    + by apply fromLineRule_not_maxLines in Hline.
  - apply analyzeDeluge_agree. split.
    + intros id dv _ Hev. simpl.
      apply lineEvaluators_not_maxLines in Hev.
      by rewrite lookup_delete_ne.
    + intros lines. unfold checkMaxLines. simpl.
      rewrite lookup_delete_eq.
      destruct (rules config !! "max-lines-per-function") as [[s|n]|] eqn:E;
        try reflexivity.
      by destruct (Hnot n).
  - rewrite analyzeDeluge_eq. unfold checkMaxLines.
    destruct (rules config !! "max-lines-per-function") as [[s|n]|] eqn:E;
      try reflexivity.
    by destruct (Hnot n).
Qed.

Lemma non_numeric_max_lines_disabled_witness :
  (forall d,
     d ∈ analyzeDeluge threeLines
           (setRule "max-lines-per-function" (VStr "100") defaultConfig) ->
     ruleId d <> Some "max-lines-per-function")
  /\ analyzeDeluge threeLines
       (setRule "max-lines-per-function" (VStr "100") defaultConfig)
     = analyzeDeluge threeLines
         (unsetRule "max-lines-per-function"
            (setRule "max-lines-per-function" (VStr "100") defaultConfig))
  /\ analyzeDeluge threeLines
       (setRule "max-lines-per-function" (VStr "100") defaultConfig)
     = diagsFrom
         (setRule "max-lines-per-function" (VStr "100") defaultConfig)
         (split [newline] threeLines) 0 ([], false).
Proof.
  apply (non_numeric_max_lines_disabled threeLines
           (setRule "max-lines-per-function" (VStr "100") defaultConfig)).
  intros n. vm_compute. discriminate.
Defined.

(** C9: the text is split at every line feed (the lines hold no line
    feed and joined by line feeds give the text back), so a text that
    ends with a line feed has one more, empty, last line; with the threshold set
    to the line count of [code], the rule fires for [code] followed by a
    line feed and not for [code]. *)
Theorem trailing_newline_counts (code : jsstring) (config : DelugeConfig) :
  rules config !! "max-lines-per-function"
    = Some (VNum (Finite (inject_Z (Z.of_nat
                                      (length (split [newline] code)))))) ->
  join [newline] (split [newline] code) = code
  /\ Forall (fun l => newline ∉ l) (split [newline] code)
  /\ split [newline] (code ++ [newline]) = split [newline] code ++ [[]]
  /\ length (split [newline] (code ++ [newline]))
     = length (split [newline] code) + 1
  /\ (exists d, d ∈ analyzeDeluge (code ++ [newline]) config
               /\ ruleId d = Some "max-lines-per-function")
  /\ (forall d, d ∈ analyzeDeluge code config ->
                ruleId d <> Some "max-lines-per-function").
Proof.
  intros Hcfg.
  pose proof (split_newline_snoc code) as Hsplit.
  assert (Hlen : length (split [newline] (code ++ [newline]))
                 = length (split [newline] code) + 1).
  { rewrite Hsplit, length_app. reflexivity. }
  split_and!; [apply split_newline_lines..|done|done| |].
  - destruct (proj1 (maxLines_diagnostics (code ++ [newline]) config _ Hcfg))
      as (d & rest & Heq & Hid & _).
    + simpl. rewrite Hlen, <- Zlt_Qlt. lia.
    + exists d. split; [|done]. rewrite Heq. apply elem_of_cons. by left.
  - intros d Hd Hid.
    pose proof (proj2 (maxLines_diagnostics code config _ Hcfg)) as Hnone.
    assert (Hin : In d (List.filter (hasRule "max-lines-per-function")
                          (analyzeDeluge code config))).
    { apply List.filter_In. split; [by apply list_elem_of_In|].
      unfold hasRule. rewrite Hid. apply String.eqb_refl. }
    rewrite Hnone in Hin; [done|].
    simpl. apply Qle_not_lt, Qle_refl.
Qed.

Lemma trailing_newline_counts_witness :
  length (split [newline] (threeLines ++ [newline])) = 4
  /\ (exists d, d ∈ analyzeDeluge (threeLines ++ [newline]) (thresholdConfig 3)
               /\ ruleId d = Some "max-lines-per-function")
  /\ (forall d, d ∈ analyzeDeluge threeLines (thresholdConfig 3) ->
                ruleId d <> Some "max-lines-per-function").
Proof.
  destruct (trailing_newline_counts threeLines (thresholdConfig 3))
    as (_ & _ & _ & Hlen & Hfire & Hquiet).
  - vm_compute. reflexivity.
  - split; [exact Hlen|]. split; [exact Hfire|exact Hquiet].
Defined.

(** C10: a diagnostic of max-lines-per-function always has severity
    warning, never error, whatever the configuration and the input. *)
Theorem max_lines_is_a_warning (code : jsstring) (config : DelugeConfig)
    (d : LintError) :
  d ∈ analyzeDeluge code config ->
  ruleId d = Some "max-lines-per-function" ->
  type d = warning /\ type d <> error.
Proof.
  intros Hd Hid. apply analyzeDeluge_provenance in Hd.
  destruct Hd as [(_ & _ & Hty & _)|[_ Hline]].
  - rewrite Hty. split; [done|discriminate].
  - by apply fromLineRule_not_maxLines in Hline.
Qed.

Lemma max_lines_is_a_warning_witness :
  lengthDiag 3 2 ∈ analyzeDeluge threeLines (thresholdConfig 2)
  /\ type (lengthDiag 3 2) = warning /\ type (lengthDiag 3 2) <> error.
Proof.
  assert (H : lengthDiag 3 2 ∈ analyzeDeluge threeLines (thresholdConfig 2)).
  { apply (list_elem_of_lookup_2 _ 0). vm_compute. reflexivity. }
  split; [exact H|].
  apply (max_lines_is_a_warning threeLines (thresholdConfig 2) _ H).
  reflexivity.
Defined.

(** * Further properties of the engine *)

(** ** Lines of a text *)

Lemma splitGo_newline_app a : forall cur b,
  splitGo [newline] 0 cur (a ++ newline :: b)
  = splitGo [newline] 0 cur a ++ split [newline] b.
Proof.
  induction a as [|c a IH]; intros cur b.
  - reflexivity.
  - change ((c :: a) ++ newline :: b) with (c :: (a ++ newline :: b)).
    rewrite !splitGo_newline_cons.
    destruct (c =? newline)%N; by rewrite IH.
Qed.

Lemma split_newline_app a b :
  split [newline] (a ++ newline :: b)
  = split [newline] a ++ split [newline] b.
Proof. apply splitGo_newline_app. Qed.

Lemma split_newline_length code : 1 <= length (split [newline] code).
Proof.
  pose proof (splitGo_nonempty [newline] code 0 []) as H. unfold split.
  destruct (splitGo [newline] 0 [] code); [done|simpl; lia].
Qed.

(** ** Diagnostics line by line *)

Section LineByLine.

Variable config : DelugeConfig.

Lemma diagsFrom_app l1 : forall l2 index sc,
  diagsFrom config (l1 ++ l2) index sc
  = diagsFrom config l1 index sc
    ++ diagsFrom config l2 (index + length l1)
         (runEvents (flat_map lineEvents l1) sc).
Proof.
  induction l1 as [|c l1 IH]; intros l2 index sc.
  - simpl. by rewrite Nat.add_0_r.
  - simpl. rewrite IH, <- app_assoc. unfold runEvents.
    rewrite fold_left_app. do 3 f_equal. lia.
Qed.

Lemma diagsFrom_elem_line lines : forall index sc d,
  d ∈ diagsFrom config lines index sc <->
  exists k content,
    lines !! k = Some content
    /\ isCommentLine content = false
    /\ d ∈ lineDiags config content (index + k + 1)
             (runEvents (flat_map lineEvents (take (S k) lines)) sc).1.
Proof.
  induction lines as [|c rest IH]; intros index sc d.
  - simpl. split; [intros H; by apply elem_of_nil in H|].
    intros (k & content & Hk & _). by rewrite lookup_nil in Hk.
  - simpl. rewrite elem_of_app, IH. split.
    + intros [Hd|(k & content & Hk & Hc & Hd)].
      * destruct (isCommentLine c) eqn:Hc; [by apply elem_of_nil in Hd|].
        exists 0, c. split_and!; [done|done|].
        simpl. rewrite app_nil_r, Nat.add_0_r. exact Hd.
      * exists (S k), content. split_and!; [done|done|].
        replace (index + S k + 1) with (S index + k + 1) by lia.
        change (take (S (S k)) (c :: rest)) with (c :: take (S k) rest).
        simpl flat_map. by rewrite runEvents_app.
    + intros (k & content & Hk & Hc & Hd). destruct k as [|k].
      * simpl in Hk. injection Hk as ->. left. rewrite Hc.
        simpl in Hd. by rewrite app_nil_r, Nat.add_0_r in Hd.
      * right. exists k, content. simpl in Hk. split_and!; [done|done|].
        replace (index + S k + 1) with (S index + k + 1) in Hd by lia.
        change (take (S (S k)) (c :: rest)) with (c :: take (S k) rest)
          in Hd.
        simpl flat_map in Hd. by rewrite runEvents_app in Hd.
Qed.

Lemma analyzeDeluge_elem_line code d :
  d ∈ analyzeDeluge code config <->
  d ∈ checkMaxLines config (split [newline] code)
  \/ exists k content,
       split [newline] code !! k = Some content
       /\ isCommentLine content = false
       /\ d ∈ lineDiags config content (k + 1)
                (scopeAfter (split [newline] code) (S k)).1.
Proof.
  rewrite analyzeDeluge_eq, elem_of_app, diagsFrom_elem_line. reflexivity.
Qed.

Lemma lineDiagnostics_eq code :
  lineDiagnostics (analyzeDeluge code config)
  = diagsFrom config (split [newline] code) 0 ([], false).
Proof.
  unfold lineDiagnostics. rewrite analyzeDeluge_eq, List.filter_app.
  rewrite (filter_none _ (checkMaxLines _ _)).
  - simpl. apply List.forallb_filter_id, List.forallb_forall. intros d Hd.
    apply list_elem_of_In, (diagsFrom_elem _ _ _ _) in Hd.
    destruct Hd as (_ & _ & Hline).
    apply fromLineRule_not_maxLines in Hline. unfold hasRule.
    destruct (ruleId d) as [s|]; [|done].
    destruct (String.eqb_spec s "max-lines-per-function"); [|done].
    congruence.
  - intros d Hd. apply checkMaxLines_elem in Hd. destruct Hd as (Hid & _).
    unfold hasRule. by rewrite Hid.
Qed.

End LineByLine.

(** ** Texts put one after the other *)

Section Composition.

Variable config : DelugeConfig.

Ltac shift_check :=
  unfold ruleDiags; simpl;
  repeat match goal with
  | |- context [if negb ?b then _ else _] => destruct b eqn:?; simpl
  | |- context [if ?b then _ else _] => destruct b eqn:?; simpl
  | |- context [match ?o with Some _ => _ | None => _ end] =>
      destruct o eqn:?; simpl
  end;
  reflexivity.

Lemma lineDiags_shift content n m stack :
  lineDiags config content (n + m) stack
  = map (shiftLine m) (lineDiags config content n stack).
Proof.
  unfold lineDiags. rewrite !map_app. f_equal; [|f_equal; [|f_equal]].
  - unfold checkHardcodedIds. shift_check.
  - unfold checkSemicolon. shift_check.
  - unfold checkCamelCase. shift_check.
  - unfold checkTimeout. shift_check.
Qed.

Lemma diagsFrom_shift lines : forall index sc,
  diagsFrom config lines index sc
  = map (shiftLine index) (diagsFrom config lines 0 sc).
Proof.
  induction lines as [|c rest IH]; intros index sc; [reflexivity|].
  simpl. rewrite map_app, (IH (S index)), (IH 1), map_map. f_equal.
  - destruct (isCommentLine c); [done|].
    replace (index + 1) with (1 + index) by lia. apply lineDiags_shift.
  - apply map_ext. intros d. unfold shiftLine. simpl. f_equal. lia.
Qed.

Lemma analyzeDeluge_append code tail :
  lineDiagnostics (analyzeDeluge (code ++ newline :: tail) config)
  = lineDiagnostics (analyzeDeluge code config)
    ++ diagsFrom config (split [newline] tail)
         (length (split [newline] code)) (scopeOf (scan code config)).
Proof.
  rewrite !lineDiagnostics_eq, split_newline_app, diagsFrom_app.
  by rewrite scan_scope.
Qed.

End Composition.

(** X1: appending a line feed and more text to a text leaves the
    diagnostics of the line rules for the text as they are; the ones
    added all lie on later lines. *)
Theorem earlier_diagnostics_unchanged (code tail : jsstring)
    (config : DelugeConfig) :
  exists later,
    lineDiagnostics (analyzeDeluge (code ++ newline :: tail) config)
    = lineDiagnostics (analyzeDeluge code config) ++ later
    /\ forall d, d ∈ later -> length (split [newline] code) < line d.
Proof.
  eexists. split; [apply analyzeDeluge_append|].
  intros d Hd. apply (diagsFrom_elem _ _ _ _) in Hd. lia.
Qed.

(** X2: when the scan of a text ends with every block closed and no
    loop pending, the line-rule diagnostics of the text followed by a
    line feed and a second text are those of the first text followed by
    those of the second, moved down by the line count of the first. *)
Theorem closed_texts_compose (code tail : jsstring) (config : DelugeConfig) :
  scopeOf (scan code config) = ([], false) ->
  lineDiagnostics (analyzeDeluge (code ++ newline :: tail) config)
  = lineDiagnostics (analyzeDeluge code config)
    ++ map (shiftLine (length (split [newline] code)))
         (lineDiagnostics (analyzeDeluge tail config)).
Proof.
  intros Hclosed.
  rewrite analyzeDeluge_append, Hclosed, diagsFrom_shift.
  by rewrite (lineDiagnostics_eq config tail).
Qed.

Lemma closed_texts_compose_witness :
  lineDiagnostics
    (analyzeDeluge (loopExample ++ newline :: js "info x") defaultConfig)
  = lineDiagnostics (analyzeDeluge loopExample defaultConfig)
    ++ map (shiftLine 4)
         (lineDiagnostics (analyzeDeluge (js "info x") defaultConfig)).
Proof.
  apply (closed_texts_compose loopExample (js "info x") defaultConfig).
  vm_compute. reflexivity.
Defined.

(** ** Which rule reports which line *)

Lemma ruleShape_ruleId config id dv n ds d :
  ruleShape config id dv n ds -> d ∈ ds ->
  ruleId d = Some id /\ line d = n
  /\ strictEq (orElse (rules config !! id) (VStr dv)) "off" = false
  /\ type d = severityOf (orElse (rules config !! id) (VStr dv))
  /\ ds = [d].
Proof.
  intros [->|(d' & -> & Hl & Hid & Hon & Hty)] Hin.
  - by apply elem_of_nil in Hin.
  - apply list_elem_of_singleton in Hin. by subst d'.
Qed.

Section RuleAtLine.

Variable config : DelugeConfig.

Lemma lineDiags_rule content n stack id d :
  d ∈ lineDiags config content n stack ->
  ruleId d = Some id ->
  (id = "no-hardcoded-ids"
   /\ d ∈ ruleDiags checkHardcodedIds config content n stack)
  \/ (id = "require-semicolon"
      /\ d ∈ ruleDiags checkSemicolon config content n stack)
  \/ (id = "camelcase-vars"
      /\ d ∈ ruleDiags checkCamelCase config content n stack)
  \/ (id = "enforce-timeout-awareness"
      /\ d ∈ ruleDiags checkTimeout config content n stack).
Proof.
  unfold lineDiags. rewrite !elem_of_app. intros [H|[H|[H|H]]] Hid.
  - pose proof (ruleShape_ruleId _ _ _ _ _ _
                  (hardcodedIds_shape config content n stack) H) as [Hr _].
    left. split; [congruence|done].
  - pose proof (ruleShape_ruleId _ _ _ _ _ _
                  (semicolon_shape config content n stack) H) as [Hr _].
    right. left. split; [congruence|done].
  - pose proof (ruleShape_ruleId _ _ _ _ _ _
                  (camelCase_shape config content n stack) H) as [Hr _].
    do 2 right. left. split; [congruence|done].
  - pose proof (ruleShape_ruleId _ _ _ _ _ _
                  (timeout_shape config content n stack) H) as [Hr _].
    do 3 right. split; [congruence|done].
Qed.

Lemma rule_at_line code k content id :
  split [newline] code !! k = Some content ->
  isCommentLine content = false ->
  In id lineEvaluators ->
  (exists d, d ∈ analyzeDeluge code config
             /\ line d = k + 1 /\ ruleId d = Some id)
  <-> exists d,
        d ∈ lineDiags config content (k + 1)
              (scopeAfter (split [newline] code) (S k)).1
        /\ ruleId d = Some id.
Proof.
  intros Hk Hc Hev. split.
  - intros (d & Hd & Hl & Hid). apply analyzeDeluge_elem_line in Hd.
    destruct Hd as [Hd|(k' & content' & Hk' & Hc' & Hd)].
    + apply checkMaxLines_elem in Hd. destruct Hd as (Hid' & _).
      apply lineEvaluators_not_maxLines in Hev. congruence.
    + pose proof (lineDiags_elem _ _ _ _ _ Hd) as [Hl' _].
      assert (k' = k) as -> by lia.
      rewrite Hk in Hk'. injection Hk' as <-. by exists d.
  - intros (d & Hd & Hid). exists d. split_and!; [|by eapply lineDiags_elem|done].
    apply analyzeDeluge_elem_line. right. by exists k, content.
Qed.

Lemma timeout_diags content n stack :
  ruleDiags checkTimeout config content n stack <> []
  <-> rules config !! "enforce-timeout-awareness" <> Some (VStr "off")
      /\ isInsideLoop stack = true /\ test apiCallRe content = true.
Proof.
  rewrite <- (rule_enabled _ "warn") by discriminate.
  unfold ruleDiags, checkTimeout. simpl.
  destruct (strictEq _ "off"); simpl; [split; [done|by intros [? _]]|].
  destruct (isInsideLoop stack); [|split; [done|by intros (_ & ? & _)]].
  destruct (test apiCallRe content); [|split; [done|by intros (_ & _ & ?)]].
  split; [done|]. intros _. discriminate.
Qed.

Lemma hardcodedIds_diags content n stack :
  ruleDiags checkHardcodedIds config content n stack <> []
  <-> rules config !! "no-hardcoded-ids" <> Some (VStr "off")
      /\ test hardcodedIdRe content = true.
Proof.
  rewrite <- (rule_enabled _ "warn") by discriminate.
  unfold ruleDiags, checkHardcodedIds. simpl.
  destruct (strictEq _ "off"); simpl; [split; [done|by intros [? _]]|].
  destruct (test hardcodedIdRe content); [|split; [done|by intros (_ & ?)]].
  split; [done|]. intros _. discriminate.
Qed.

Lemma camelCase_diags content n stack :
  ruleDiags checkCamelCase config content n stack <> []
  <-> rules config !! "camelcase-vars" <> Some (VStr "off")
      /\ exists groups,
           matchGroups assignmentRe content = Some groups
           /\ test camelCaseRe (first groups) = false.
Proof.
  rewrite <- (rule_enabled _ "warn") by discriminate.
  unfold ruleDiags, checkCamelCase. simpl.
  destruct (strictEq _ "off"); simpl; [split; [done|by intros [? _]]|].
  destruct (matchGroups assignmentRe content) as [groups|];
    [|split; [done|by intros (_ & ? & ? & _)]].
  destruct (test camelCaseRe (first groups)) eqn:E; simpl.
  - split; [done|]. intros (_ & g & [= <-] & ?). congruence.
  - split; [|intros _; discriminate]. intros _. split; [done|]. by exists groups.
Qed.

Ltac rule_of_line shape :=
  split;
  [ intros (d & Hd & Hid);
    destruct (lineDiags_rule _ _ _ _ _ Hd Hid)
      as [[Hi Hin]|[[Hi Hin]|[[Hi Hin]|[Hi Hin]]]];
    try discriminate Hi;
    intros E; rewrite E in Hin; by apply elem_of_nil in Hin
  | intros Hne; destruct shape as [E|(d & E & _ & Hid & _)]; [done|];
    exists d; split; [|done];
    unfold lineDiags; rewrite !elem_of_app, E;
    first [ left; by apply list_elem_of_singleton
          | right; left; by apply list_elem_of_singleton
          | right; right; left; by apply list_elem_of_singleton
          | right; right; right; by apply list_elem_of_singleton ] ].

Lemma lineDiags_hardcodedIds content n stack :
  (exists d, d ∈ lineDiags config content n stack
             /\ ruleId d = Some "no-hardcoded-ids")
  <-> ruleDiags checkHardcodedIds config content n stack <> [].
Proof. rule_of_line (hardcodedIds_shape config content n stack). Qed.

Lemma lineDiags_camelCase content n stack :
  (exists d, d ∈ lineDiags config content n stack
             /\ ruleId d = Some "camelcase-vars")
  <-> ruleDiags checkCamelCase config content n stack <> [].
Proof. rule_of_line (camelCase_shape config content n stack). Qed.

Lemma lineDiags_timeout content n stack :
  (exists d, d ∈ lineDiags config content n stack
             /\ ruleId d = Some "enforce-timeout-awareness")
  <-> ruleDiags checkTimeout config content n stack <> [].
Proof. rule_of_line (timeout_shape config content n stack). Qed.

End RuleAtLine.

(** X3: with enforce-timeout-awareness not off, a non-comment line gets
    a diagnostic of the rule exactly when the line holds an API call and
    the brace stack, after the braces of that very line are processed,
    holds a loop frame. *)
Theorem timeout_rule_trigger (code : jsstring) (config : DelugeConfig)
    (k : nat) (content : jsstring) :
  rules config !! "enforce-timeout-awareness" <> Some (VStr "off") ->
  split [newline] code !! k = Some content ->
  isCommentLine content = false ->
  (exists d, d ∈ analyzeDeluge code config
             /\ line d = k + 1
             /\ ruleId d = Some "enforce-timeout-awareness")
  <-> isInsideLoop (scopeAfter (split [newline] code) (S k)).1 = true
      /\ test apiCallRe content = true.
Proof.
  intros Hon Hk Hc.
  rewrite (rule_at_line config code k content) by (simpl; tauto).
  rewrite lineDiags_timeout, timeout_diags. tauto.
Qed.

Lemma timeout_rule_trigger_witness :
  (exists d,
     d ∈ analyzeDeluge (js "for each r in rows { invokeurl(r);")
           defaultConfig
     /\ line d = 0 + 1
     /\ ruleId d = Some "enforce-timeout-awareness")
  /\ ~ (exists d,
          d ∈ analyzeDeluge
                (joinLines ["for each r in rows {"; "invokeurl(r); }"])
                defaultConfig
          /\ line d = 1 + 1
          /\ ruleId d = Some "enforce-timeout-awareness").
Proof.
  split.
  - apply (timeout_rule_trigger (js "for each r in rows { invokeurl(r);")
             defaultConfig 0 (js "for each r in rows { invokeurl(r);")).
    + vm_compute. discriminate.
    + vm_compute. reflexivity.
    + vm_compute. reflexivity.
    + split; vm_compute; reflexivity.
  - intros H.
    apply (timeout_rule_trigger
             (joinLines ["for each r in rows {"; "invokeurl(r); }"])
             defaultConfig 1 (js "invokeurl(r); }")) in H.
    + destruct H as [H _]. vm_compute in H. discriminate.
    + vm_compute. discriminate.
    + vm_compute. reflexivity.
    + vm_compute. reflexivity.
Defined.

(** ** Loop frames come from keyword lines *)

Lemma runEvents_no_keyword evs : forall sc,
  Keyword ∉ evs -> isInsideLoop sc.1 = false -> sc.2 = false ->
  isInsideLoop (runEvents evs sc).1 = false.
Proof.
  induction evs as [|e evs IH]; intros sc Hno Hstack Hflag; [done|].
  rewrite runEvents_cons. apply not_elem_of_cons in Hno as [Hne Hno].
  destruct e; [done| |]; apply IH; try done; simpl.
  - unfold isInsideLoop in *. rewrite existsb_app, Hstack, Hflag. done.
  - unfold isInsideLoop in *. destruct (existsb _ (removelast sc.1)) eqn:E;
      [|done].
    apply List.existsb_exists in E. destruct E as (b & Hin & Hb).
    assert (existsb (fun isLoop => isLoop) sc.1 = true); [|congruence].
    apply List.existsb_exists. exists b. split; [|done].
    destruct sc.1 as [|x l] eqn:El using rev_ind; [done|].
    rewrite removelast_last in Hin. apply in_or_app. by left.
Qed.

Lemma lineEvents_no_keyword content :
  (isCommentLine content = false -> test forEachRe content = false) ->
  Keyword ∉ lineEvents content.
Proof.
  unfold lineEvents. intros H.
  destruct (isCommentLine content); [apply not_elem_of_nil|].
  rewrite H by done. simpl. intros Hin.
  apply list_elem_of_In, in_map_iff in Hin. destruct Hin as (c & Hc & _).
  unfold braceEvent in Hc. by destruct (c =? ch "{")%N.
Qed.

(** X4: in a text none of whose non-comment lines holds the words
    [for each], no line gets a diagnostic of enforce-timeout-awareness,
    whatever calls and other loops it holds. *)
Theorem no_loop_keyword_no_timeout (code : jsstring)
    (config : DelugeConfig) :
  (forall content,
     content ∈ split [newline] code -> isCommentLine content = false ->
     test forEachRe content = false) ->
  forall d, d ∈ analyzeDeluge code config ->
            ruleId d <> Some "enforce-timeout-awareness".
Proof.
  intros Hno d Hd Hid. apply analyzeDeluge_elem_line in Hd.
  destruct Hd as [Hd|(k & content & Hk & Hc & Hd)].
  - apply checkMaxLines_elem in Hd. destruct Hd as (Hid' & _). congruence.
  - assert (Hex : exists d,
              d ∈ lineDiags config content (k + 1)
                    (scopeAfter (split [newline] code) (S k)).1
              /\ ruleId d = Some "enforce-timeout-awareness")
      by (by exists d).
    apply lineDiags_timeout, timeout_diags in Hex.
    destruct Hex as (_ & Hin & _).
    unfold scopeAfter in Hin. rewrite runEvents_no_keyword in Hin; try done.
    intros Hkw. apply list_elem_of_In, in_flat_map in Hkw.
    destruct Hkw as (l & Hl & Hkw).
    apply (lineEvents_no_keyword l); [|by apply list_elem_of_In].
    apply Hno. apply list_elem_of_In, elem_of_take in Hl.
    destruct Hl as (i & Hi & _). by eapply list_elem_of_lookup_2.
Qed.

Lemma no_loop_keyword_no_timeout_witness :
  List.filter (hasRule "enforce-timeout-awareness")
    (analyzeDeluge
       (joinLines ["while (x < 3)"; "{"; "zoho.crm.getRecords();"; "}"])
       defaultConfig) = [].
Proof.
  apply filter_none. intros d Hd.
  assert (Hne : ruleId d <> Some "enforce-timeout-awareness").
  { revert d Hd.
    apply (no_loop_keyword_no_timeout
             (joinLines ["while (x < 3)"; "{"; "zoho.crm.getRecords();"; "}"])
             defaultConfig).
    intros content Hin _. vm_compute in Hin.
    repeat (apply elem_of_cons in Hin as [->|Hin];
            [vm_compute; reflexivity|]).
    by apply elem_of_nil in Hin. }
  unfold hasRule. destruct (ruleId d) as [s|]; [|reflexivity].
  destruct (String.eqb_spec s "enforce-timeout-awareness"); [|reflexivity].
  congruence.
Defined.

(** ** Comment lines *)

Lemma checkMaxLines_length config lines1 lines2 :
  length lines1 = length lines2 ->
  checkMaxLines config lines1 = checkMaxLines config lines2.
Proof. unfold checkMaxLines. by intros ->. Qed.

Lemma empty_line_diags config n stack : lineDiags config [] n stack = [].
Proof.
  unfold lineDiags, ruleDiags, checkHardcodedIds, checkSemicolon,
    checkCamelCase, checkTimeout.
  replace (test hardcodedIdRe []) with false by reflexivity.
  replace (codePartOf []) with (@nil jschar) by reflexivity.
  replace (matchGroups assignmentRe []) with (@None (list jsstring))
    by reflexivity.
  replace (test apiCallRe []) with false by reflexivity.
  simpl. repeat destruct (negb _); simpl; try reflexivity;
    by destruct (isInsideLoop stack).
Qed.

(** X5: a comment line (one that, trimmed, starts with [//] or [/*])
    counts as a line and nothing more: the result is the one for the
    text with that line emptied. *)
Theorem comment_line_as_empty_line (code code' : jsstring)
    (config : DelugeConfig) (before after : list jsstring)
    (comment : jsstring) :
  split [newline] code = before ++ comment :: after ->
  split [newline] code' = before ++ [] :: after ->
  isCommentLine comment = true ->
  analyzeDeluge code config = analyzeDeluge code' config.
Proof.
  intros Hcode Hcode' Hc. rewrite !analyzeDeluge_eq, Hcode, Hcode'.
  f_equal; [apply checkMaxLines_length; by rewrite !length_app|].
  rewrite !diagsFrom_app. f_equal. simpl.
  unfold lineEvents at 1 3. rewrite Hc. simpl.
  by rewrite empty_line_diags.
Qed.

Lemma comment_line_as_empty_line_witness :
  analyzeDeluge
    (joinLines ["x = 1;"; "  // for each { zoho.a.b( 123456789012345678";
                "info x"])
    defaultConfig
  = analyzeDeluge (joinLines ["x = 1;"; ""; "info x"]) defaultConfig.
Proof.
  apply (comment_line_as_empty_line _ _ defaultConfig [js "x = 1;"]
           [js "info x"]
           (js "  // for each { zoho.a.b( 123456789012345678"));
    vm_compute; reflexivity.
Defined.

(** ** Keys of the configuration *)

(** X6: the result depends on the five rule keys that are read and on
    nothing else of the configuration: setting or removing any other
    key of [rules] (among them [no-unused-maps], which has no
    evaluator), or changing [exclude] and [env], leaves it as it is. *)
Theorem other_keys_ignored (code : jsstring) (config : DelugeConfig)
    (k : string) (v : RuleValue) :
  ~ In k ruleIds ->
  analyzeDeluge code (setRule k v config) = analyzeDeluge code config
  /\ analyzeDeluge code (unsetRule k config) = analyzeDeluge code config
  /\ forall excl e,
       analyzeDeluge code
         {| rules := rules config; exclude := excl; env := e |}
       = analyzeDeluge code config.
Proof.
  intros Hk. split_and!.
  - apply analyzeDeluge_agree. split.
    + intros id dv _ Hev. simpl. rewrite lookup_insert_ne; [done|].
      intros ->. apply Hk. by right.
    + intros lines. unfold checkMaxLines. simpl.
      rewrite lookup_insert_ne; [done|]. intros ->. apply Hk. by left.
  - apply analyzeDeluge_agree. split.
    + intros id dv _ Hev. simpl. rewrite lookup_delete_ne; [done|].
      intros ->. apply Hk. by right.
    + intros lines. unfold checkMaxLines. simpl.
      rewrite lookup_delete_ne; [done|]. intros ->. apply Hk. by left.
  - intros excl e. by apply analyzeDeluge_agree.
Qed.

Lemma other_keys_ignored_witness :
  analyzeDeluge loopExample
    (setRule "no-unused-maps" (VStr "error") defaultConfig)
  = analyzeDeluge loopExample defaultConfig
  /\ analyzeDeluge loopExample (unsetRule "no-unused-maps" defaultConfig)
     = analyzeDeluge loopExample defaultConfig.
Proof.
  destruct (other_keys_ignored loopExample defaultConfig "no-unused-maps"
              (VStr "error")) as (Hset & Hunset & _).
  - simpl. intros [H|[H|[H|[H|[H|[]]]]]]; discriminate.
  - split; [exact Hset|exact Hunset].
Defined.

(** ** Severity *)

Lemma severityOf_error v dv :
  severityOf (orElse v (VStr dv)) = error
  <-> v = Some (VStr "error") \/ (dv = "error" /\ falsyRule v).
Proof.
  unfold severityOf, falsyRule.
  destruct v as [x|]; simpl.
  - destruct (truthy x) eqn:Ht.
    + destruct x as [s|n]; simpl.
      * destruct (String.eqb_spec s "error") as [->|Hne].
        -- split; [by left|done].
        -- split; [done|]. intros [[= ?]|[_ ?]]; congruence.
      * split; [done|]. intros [?|[_ ?]]; congruence.
    + simpl. destruct (String.eqb_spec dv "error") as [->|Hne].
      * split; [by right|done].
      * split; [done|]. intros [[= ->]|[? _]]; [done|congruence].
  - destruct (String.eqb_spec dv "error") as [->|Hne].
    + split; [by right|done].
    + split; [done|]. intros [?|[? _]]; congruence.
Qed.

Lemma error_diag_source (code : jsstring) (config : DelugeConfig)
    (d : LintError) :
  d ∈ analyzeDeluge code config ->
  type d = error <-> fromErrorRule config d.
Proof.
  unfold fromErrorRule.
  intros Hd. apply analyzeDeluge_provenance in Hd.
  destruct Hd as [(Hid & _ & Hty & _)|[_ Hline]].
  - rewrite Hty. split; [discriminate|].
    intros (id & Hev & Hid' & _).
    apply lineEvaluators_not_maxLines in Hev. congruence.
  - destruct Hline as (id & dv & Hdoc & Hev & Hid & _ & Hty).
    rewrite Hty, severityOf_error. split.
    + intros H. exists id. split_and!; [done|done|].
      destruct H as [H|[-> H]]; [by left|right]. split; [|done].
      simpl in Hdoc.
      destruct Hdoc as [E|[E|[E|[E|[E|[]]]]]]; by injection E as <-.
    + intros (id' & _ & Hid' & H). rewrite Hid in Hid'.
      injection Hid' as <-. destruct H as [H|[-> H]]; [by left|right].
      split; [|done]. simpl in Hdoc.
      destruct Hdoc as [E|[E|[E|[E|[E|[]]]]]]; by injection E as <-.
Qed.


(** X7: a diagnostic has severity error exactly when its rule is one of
    the four line rules and the rule is configured as the string
    [error], or the rule is require-semicolon and its key is absent or
    falsy; every other value that is not [off] gives a warning. *)
Theorem error_severity_source (code : jsstring) (config : DelugeConfig)
    (d : LintError) :
  d ∈ analyzeDeluge code config ->
  type d = error
  <-> exists id,
        In id lineEvaluators /\ ruleId d = Some id
        /\ (rules config !! id = Some (VStr "error")
            \/ (id = "require-semicolon"
                /\ falsyRule (rules config !! id))).
Proof. apply error_diag_source. Qed.

Lemma error_severity_source_witness :
  exists d,
    analyzeDeluge (js "My_Var = 1")
      (setRule "camelcase-vars" (VStr "fatal")
         (unsetRule "require-semicolon" defaultConfig))
    = [d; {| line := 1;
             message := Text (js "Variable 'My_Var' should be in camelCase.");
             type := warning;
             ruleId := Some "camelcase-vars" |}]
    /\ type d = error /\ ruleId d = Some "require-semicolon".
Proof.
  eexists. split; [vm_compute; reflexivity|]. split; [|reflexivity].
  apply (error_severity_source (js "My_Var = 1")
           (setRule "camelcase-vars" (VStr "fatal")
              (unsetRule "require-semicolon" defaultConfig))).
  - apply (list_elem_of_lookup_2 _ 0). vm_compute. reflexivity.
  - exists "require-semicolon". split_and!; [simpl; tauto|reflexivity|].
    right. split; [reflexivity|]. vm_compute. exact I.
Defined.

(** ** Lines of the diagnostics *)

(** X8: every diagnostic carries the number of a line of the text,
    between 1 and the line count; a diagnostic of a line rule points at
    a line that is not a comment line. *)
Theorem diagnostic_lines_exist (code : jsstring) (config : DelugeConfig)
    (d : LintError) :
  d ∈ analyzeDeluge code config ->
  1 <= line d <= length (split [newline] code)
  /\ (ruleId d <> Some "max-lines-per-function" ->
      exists content,
        split [newline] code !! (line d - 1) = Some content
        /\ isCommentLine content = false).
Proof.
  intros Hd. apply analyzeDeluge_elem_line in Hd.
  destruct Hd as [Hd|(k & content & Hk & Hc & Hd)].
  - apply checkMaxLines_elem in Hd. destruct Hd as (Hid & Hl & _).
    pose proof (split_newline_length code). split; [lia|done].
  - apply lineDiags_elem in Hd. destruct Hd as (Hl & _).
    pose proof (lookup_lt_Some _ _ _ Hk). split; [lia|].
    intros _. exists content. split; [|done].
    by replace (line d - 1) with k by lia.
Qed.

Lemma diagnostic_lines_exist_witness :
  1 <= 3 <= length (split [newline] loopExample)
  /\ exists content,
       split [newline] loopExample !! (3 - 1) = Some content
       /\ isCommentLine content = false.
Proof.
  destruct (diagnostic_lines_exist loopExample defaultConfig
              {| line := 3;
                 message :=
                   Text (js "Avoid using API calls (zoho.*, invokeurl) inside loops. This may cause "
                           ++ [quote] ++ js "Time limit exceeded" ++ [quote]
                           ++ js " errors.");
                 type := warning;
                 ruleId := Some "enforce-timeout-awareness" |})
    as [Hbound Hline].
  - apply (list_elem_of_lookup_2 _ 0). vm_compute. reflexivity.
  - split; [exact Hbound|]. apply Hline. discriminate.
Defined.

Lemma sorted_filter_at (ds : list LintError) n id :
  StronglySorted diagBefore ds ->
  length (List.filter (fun d => (line d =? n) && hasRule id d) ds) <= 1.
Proof.
  induction 1 as [|x l Hs IH Hall]; [simpl; lia|].
  simpl. destruct ((line x =? n) && hasRule id x) eqn:E; [|done].
  rewrite filter_none; [simpl; lia|].
  intros y Hy. rewrite Forall_forall in Hall.
  apply andb_true_iff in E as [El Eid]. apply Nat.eqb_eq in El.
  destruct ((line y =? n) && hasRule id y) eqn:E'; [|done].
  apply andb_true_iff in E' as [El' Eid']. apply Nat.eqb_eq in El'.
  unfold hasRule in Eid, Eid'.
  destruct (ruleId x) as [sx|] eqn:Hx; [|done].
  destruct (ruleId y) as [sy|] eqn:Hy'; [|done].
  apply String.eqb_eq in Eid, Eid'. subst sx sy.
  destruct (Hall y Hy) as [Hlt|[_ Hlt]]; [lia|].
  rewrite Hx, Hy' in Hlt. lia.
Qed.

(** X9: a rule reports a line at most once, however many violations of
    the rule the line holds, so the result has at most four diagnostics
    for each line besides the one of the length rule. *)
Theorem one_diagnostic_per_rule_and_line (code : jsstring)
    (config : DelugeConfig) (n : nat) (id : string) :
  length (List.filter (fun d => (line d =? n) && hasRule id d)
            (analyzeDeluge code config)) <= 1
  /\ length (List.filter (fun d => line d =? n)
               (lineDiagnostics (analyzeDeluge code config))) <= 4.
Proof.
  split; [apply sorted_filter_at, analyzeDeluge_sorted|].
  rewrite lineDiagnostics_eq.
  assert (Hgen : forall lines index sc,
            length (List.filter (fun d => line d =? n)
                      (diagsFrom config lines index sc)) <= 4).
  { induction lines as [|c rest IH]; intros index sc; [simpl; lia|].
    simpl. rewrite List.filter_app, length_app.
    destruct (decide (index + 1 = n)) as [<-|Hne].
    - rewrite (filter_none _ (diagsFrom _ _ _ _)).
      + simpl. rewrite Nat.add_0_r.
        etrans; [apply List.filter_length_le|].
        destruct (isCommentLine c); [simpl; lia|].
        unfold lineDiags. rewrite !length_app.
        pose proof (hardcodedIds_shape config c (index + 1)
                      (runEvents (lineEvents c) sc).1) as [->|(? & -> & _)];
        pose proof (semicolon_shape config c (index + 1)
                      (runEvents (lineEvents c) sc).1) as [->|(? & -> & _)];
        pose proof (camelCase_shape config c (index + 1)
                      (runEvents (lineEvents c) sc).1) as [->|(? & -> & _)];
        pose proof (timeout_shape config c (index + 1)
                      (runEvents (lineEvents c) sc).1) as [->|(? & -> & _)];
        simpl; lia.
      + intros d Hd. apply (diagsFrom_elem _ _ _ _) in Hd.
        apply Nat.eqb_neq. lia.
    - rewrite (filter_none _ (if isCommentLine c then _ else _)).
      + simpl. apply IH.
      + intros d Hd. destruct (isCommentLine c);
          [by apply elem_of_nil in Hd|].
        apply lineDiags_elem in Hd. apply Nat.eqb_neq. lia. }
  apply Hgen.
Qed.

(** ** The matcher finds a match exactly when there is one *)

Lemma afterLit_app prev a b :
  afterLit (afterLit prev a) b = afterLit prev (a ++ b).
Proof.
  unfold afterLit. destruct b as [|y b] using rev_ind.
  - rewrite app_nil_r. simpl. by destruct (last a).
  - rewrite app_assoc, !last_snoc. reflexivity.
Qed.

Lemma starLoop_sound p k s : forall prev caps res,
  starLoop p k prev s caps = Some res ->
  exists a s',
    s = a ++ s' /\ allOf p a /\ k (afterLit prev a) s' caps = Some res.
Proof.
  induction s as [|c s IH]; intros prev caps res H; simpl in H.
  - exists [], []. split_and!; [done|constructor|done].
  - destruct (p c) eqn:Hp.
    + destruct (starLoop p k (Some c) s caps) as [r|] eqn:E.
      * injection H as <-. destruct (IH _ _ _ E) as (a & s' & -> & Ha & Hk).
        exists (c :: a), s'. split_and!; [done|by constructor|].
        by rewrite <- (afterLit_cons prev).
      * exists [], (c :: s). split_and!; [done|constructor|done].
    + exists [], (c :: s). split_and!; [done|constructor|done].
Qed.

Lemma starLoop_complete p k a : forall prev s' caps,
  allOf p a -> is_Some (k (afterLit prev a) s' caps) ->
  is_Some (starLoop p k prev (a ++ s') caps).
Proof.
  induction a as [|c a IH]; intros prev s' caps Ha Hk.
  - simpl. destruct s' as [|c s']; [done|]. simpl.
    destruct (p c); [|done].
    destruct (starLoop p k (Some c) s' caps); [done|exact Hk].
  - inversion Ha as [|? ? Hc Ha']; subst. simpl. rewrite Hc.
    rewrite <- (afterLit_cons prev) in Hk.
    destruct (IH (Some c) s' caps Ha' Hk) as [r ->]. done.
Qed.

Lemma exec_sound r : forall k prev s caps res,
  exec r k prev s caps = Some res ->
  exists prev' s' d,
    Matches r prev s prev' s' d /\ k prev' s' (caps ++ d) = Some res.
Proof.
  induction r as [|p|r1 IH1 r2 IH2|r1 IH1 r2 IH2|p|r IH| | |];
    intros k prev s caps res H; simpl in H.
  - exists prev, s, []. by rewrite app_nil_r.
  - destruct s as [|c s]; [done|]. destruct (p c) eqn:Hp; [|done].
    exists (Some c), s, []. rewrite app_nil_r. split; [|done]. by exists c.
  - apply IH1 in H. destruct H as (pm & sm & c1 & H1 & H).
    apply IH2 in H. destruct H as (prev' & s' & c2 & H2 & H).
    exists prev', s', (c1 ++ c2). rewrite app_assoc. split; [|done].
    simpl. by exists pm, sm, c1, c2.
  - destruct (exec r1 k prev s caps) as [x|] eqn:E.
    + injection H as <-. apply IH1 in E.
      destruct E as (prev' & s' & d & Hm & Hk).
      exists prev', s', d. split; [by left|done].
    + apply IH2 in H. destruct H as (prev' & s' & d & Hm & Hk).
      exists prev', s', d. split; [by right|done].
  - apply starLoop_sound in H. destruct H as (a & s' & -> & Ha & Hk).
    exists (afterLit prev a), s', []. rewrite app_nil_r. split; [|done].
    by exists a.
  - apply IH in H. destruct H as (prev' & s' & d & Hm & Hk).
    exists prev', s', (d ++ [take (length s - length s') s]).
    rewrite app_assoc. split; [|done]. by exists d.
  - destruct prev; [done|]. exists None, s, []. by rewrite app_nil_r.
  - destruct s; [|done]. exists prev, [], []. by rewrite app_nil_r.
  - destruct (xorb _ _) eqn:E; [|done].
    exists prev, s, []. by rewrite app_nil_r.
Qed.

Lemma exec_complete r : forall k prev s prev' s' d caps,
  Matches r prev s prev' s' d ->
  is_Some (k prev' s' (caps ++ d)) ->
  is_Some (exec r k prev s caps).
Proof.
  induction r as [|p|r1 IH1 r2 IH2|r1 IH1 r2 IH2|p|r IH| | |];
    intros k prev s prev' s' d caps Hm Hk; simpl in Hm.
  - destruct Hm as (-> & -> & ->). by rewrite app_nil_r in Hk.
  - destruct Hm as (c & -> & Hp & -> & ->). simpl. rewrite Hp.
    by rewrite app_nil_r in Hk.
  - destruct Hm as (pm & sm & c1 & c2 & H1 & H2 & ->). simpl.
    eapply IH1; [exact H1|]. eapply IH2; [exact H2|].
    by rewrite <- app_assoc.
  - simpl. destruct Hm as [Hm|Hm].
    + destruct (IH1 k _ _ _ _ _ caps Hm Hk) as [x ->]. done.
    + destruct (exec r1 k prev s caps); [done|]. by eapply IH2.
  - destruct Hm as (a & -> & Ha & -> & ->). simpl.
    apply starLoop_complete; [done|]. by rewrite app_nil_r in Hk.
  - destruct Hm as (c & Hm & ->). simpl.
    eapply IH; [exact Hm|]. simpl. by rewrite <- app_assoc.
  - destruct Hm as (-> & -> & -> & ->). simpl. by rewrite app_nil_r in Hk.
  - destruct Hm as (-> & -> & -> & ->). simpl. by rewrite app_nil_r in Hk.
  - destruct Hm as (Hx & -> & -> & ->). simpl. rewrite Hx.
    by rewrite app_nil_r in Hk.
Qed.

Lemma searchFrom_sound r s : forall prev caps,
  searchFrom r prev s = Some caps ->
  exists pre rest prev' s',
    s = pre ++ rest /\ Matches r (afterLit prev pre) rest prev' s' caps.
Proof.
  induction s as [|c s IH]; intros prev caps H;
    rewrite searchFrom_unfold in H.
  - destruct (exec r accept prev [] []) as [x|] eqn:E; [|done].
    injection H as <-. apply exec_sound in E.
    destruct E as (prev' & s' & d & Hm & [= <-]).
    by exists [], [], prev', s'.
  - destruct (exec r accept prev (c :: s) []) as [x|] eqn:E.
    + injection H as <-. apply exec_sound in E.
      destruct E as (prev' & s' & d & Hm & [= <-]).
      by exists [], (c :: s), prev', s'.
    + apply IH in H. destruct H as (pre & rest & prev' & s' & -> & Hm).
      exists (c :: pre), rest, prev', s'. split; [done|].
      by rewrite <- (afterLit_cons prev).
Qed.

Lemma searchFrom_complete r pre : forall prev rest prev' s' d,
  Matches r (afterLit prev pre) rest prev' s' d ->
  is_Some (searchFrom r prev (pre ++ rest)).
Proof.
  induction pre as [|c pre IH]; intros prev rest prev' s' d Hm;
    rewrite searchFrom_unfold.
  - simpl in *. change (afterLit prev []) with prev in Hm.
    destruct (exec_complete r accept _ _ _ _ _ [] Hm) as [x ->]; done.
  - change ((c :: pre) ++ rest) with (c :: (pre ++ rest)).
    destruct (exec r accept prev (c :: pre ++ rest) []); [done|].
    eapply IH. by rewrite (afterLit_cons prev).
Qed.

Lemma test_matches r s : test r s = true <-> exists caps, MatchesIn r s caps.
Proof.
  unfold test, MatchesIn. split.
  - destruct (searchFrom r None s) as [caps|] eqn:E; [|done]. intros _.
    exists caps. by apply searchFrom_sound.
  - intros (caps & pre & rest & prev' & s' & -> & Hm).
    by destruct (searchFrom_complete r pre None rest prev' s' caps Hm)
      as [x ->].
Qed.

Lemma matchGroups_sound r s caps :
  matchGroups r s = Some caps -> MatchesIn r s caps.
Proof. apply searchFrom_sound. Qed.

Lemma matchGroups_complete r s caps :
  MatchesIn r s caps -> is_Some (matchGroups r s).
Proof.
  intros (pre & rest & prev' & s' & -> & Hm).
  by eapply searchFrom_complete.
Qed.

(** ** What the building blocks match *)

Lemma Matches_Lit w : forall prev s prev' s' d,
  Matches (Lit w) prev s prev' s' d
  <-> s = w ++ s' /\ prev' = afterLit prev w /\ d = [].
Proof.
  induction w as [|c w IH]; intros prev s prev' s' d.
  - simpl. unfold afterLit. simpl. split.
    + by intros (-> & -> & ->).
    + by intros (-> & -> & ->).
  - change (Lit (c :: w)) with (Seq (Class (N.eqb c)) (Lit w)).
    cbn [Matches]. split.
    + intros (pm & sm & c1 & c2 & (x & -> & Hx & -> & ->) & Hm & ->).
      apply IH in Hm. destruct Hm as (-> & -> & ->).
      apply N.eqb_eq in Hx. subst x.
      split_and!; [done|by rewrite (afterLit_cons prev)|done].
    + intros (-> & -> & ->). exists (Some c), (w ++ s'), [], [].
      split_and!; [|apply IH|done].
      * exists c. split_and!; [done|apply N.eqb_refl|done|done].
      * split_and!; [done|by rewrite (afterLit_cons prev)|done].
Qed.

Lemma Matches_Plus p prev s prev' s' d :
  Matches (Plus p) prev s prev' s' d
  <-> exists a,
        a <> [] /\ s = a ++ s' /\ allOf p a
        /\ prev' = afterLit prev a /\ d = [].
Proof.
  unfold Plus. cbn [Matches]. split.
  - intros (pm & sm & c1 & c2 & (x & -> & Hx & -> & ->)
            & (a & -> & Ha & -> & ->) & ->).
    exists (x :: a). split_and!; [done|done|by constructor| |done].
    by rewrite (afterLit_cons prev).
  - intros (a & Hne & -> & Ha & -> & ->). destruct a as [|x a]; [done|].
    inversion Ha as [|? ? Hx Ha']; subst.
    exists (Some x), (a ++ s'), [], []. split_and!; [by exists x| |done].
    exists a. split_and!; [done|done| |done].
    by rewrite (afterLit_cons prev).
Qed.

Lemma Matches_Rep_Class n p : forall prev s prev' s' d,
  Matches (Rep n (Class p)) prev s prev' s' d
  <-> exists a,
        length a = n /\ s = a ++ s' /\ allOf p a
        /\ prev' = afterLit prev a /\ d = [].
Proof.
  induction n as [|n IH]; intros prev s prev' s' d.
  - simpl. split.
    + intros (-> & -> & ->). exists []. split_and!; try done. constructor.
    + intros (a & Hl & -> & _ & -> & ->). destruct a; [done|done].
  - change (Rep (S n) (Class p)) with (Seq (Class p) (Rep n (Class p))).
    cbn [Matches]. split.
    + intros (pm & sm & c1 & c2 & (x & -> & Hx & -> & ->) & Hm & ->).
      apply IH in Hm. destruct Hm as (a & Hl & -> & Ha & -> & ->).
      exists (x :: a). split_and!; [simpl; lia|done|by constructor| |done].
      by rewrite (afterLit_cons prev).
    + intros (a & Hl & -> & Ha & -> & ->). destruct a as [|x a]; [done|].
      inversion Ha as [|? ? Hx Ha']; subst.
      exists (Some x), (a ++ s'), [], [].
      split_and!; [by exists x| |done].
      apply IH. exists a. split_and!; try done.
      * simpl in Hl. lia.
      * by rewrite (afterLit_cons prev).
Qed.

Lemma allOf_app p a b : allOf p (a ++ b) <-> allOf p a /\ allOf p b.
Proof. apply Forall_app. Qed.

(** ** The pattern of no-hardcoded-ids *)

Lemma hardcodedIdRe_matches s :
  test hardcodedIdRe s = true
  <-> exists pre run post,
        s = pre ++ run ++ post /\ length run = 18 /\ allOf isDigit run.
Proof.
  rewrite test_matches. unfold MatchesIn, hardcodedIdRe. split.
  - intros (caps & pre & rest & prev' & s' & -> & Hm).
    cbn [Matches] in Hm.
    destruct Hm as (pm & sm & c1 & c2 & Hrep & _ & _).
    apply Matches_Rep_Class in Hrep.
    destruct Hrep as (run & Hl & -> & Hrun & _).
    by exists pre, run, sm.
  - intros (pre & run & post & -> & Hl & Hrun).
    exists [], pre, (run ++ post), (afterLit (afterLit None pre) run), post.
    split; [done|]. cbn [Matches].
    exists (afterLit (afterLit None pre) run), post, [], [].
    split_and!; [|  |done].
    + apply Matches_Rep_Class. by exists run.
    + exists (afterLit (afterLit None pre) run), post, [], [].
      split_and!; [by right|by right|done].
Qed.

(** X10: with no-hardcoded-ids not off, a non-comment line gets a
    diagnostic of the rule exactly when it holds 18 digits in a row;
    longer runs (more than the 20 of the pattern) are reported too. *)
Theorem hardcoded_ids_rule_trigger (code : jsstring)
    (config : DelugeConfig) (k : nat) (content : jsstring) :
  rules config !! "no-hardcoded-ids" <> Some (VStr "off") ->
  split [newline] code !! k = Some content ->
  isCommentLine content = false ->
  (exists d, d ∈ analyzeDeluge code config
             /\ line d = k + 1
             /\ ruleId d = Some "no-hardcoded-ids")
  <-> exists pre run post,
        content = pre ++ run ++ post
        /\ length run = 18 /\ allOf isDigit run.
Proof.
  intros Hon Hk Hc.
  rewrite (rule_at_line config code k content) by (simpl; tauto).
  rewrite lineDiags_hardcodedIds, hardcodedIds_diags, hardcodedIdRe_matches.
  tauto.
Qed.

Lemma hardcoded_ids_rule_trigger_witness :
  exists d,
    d ∈ analyzeDeluge (js "id = 1234567890123456789012345;") defaultConfig
    /\ line d = 0 + 1 /\ ruleId d = Some "no-hardcoded-ids".
Proof.
  apply (hardcoded_ids_rule_trigger (js "id = 1234567890123456789012345;")
           defaultConfig 0 (js "id = 1234567890123456789012345;")).
  - vm_compute. discriminate.
  - vm_compute. reflexivity.
  - vm_compute. reflexivity.
  - exists (js "id = "), (js "123456789012345678"), (js "9012345;").
    split_and!; [reflexivity|reflexivity|].
    repeat constructor.
Defined.

(** ** The patterns of camelcase-vars *)

Lemma afterLit_None pre : afterLit None pre = None <-> pre = [].
Proof.
  unfold afterLit. split; [|by intros ->].
  destruct (last pre) eqn:E; [done|]. intros _. by apply last_None.
Qed.

Lemma camelCaseRe_matches s : test camelCaseRe s = true <-> CamelCase s.
Proof.
  rewrite test_matches. unfold MatchesIn, camelCaseRe, CamelCase. split.
  - intros (caps & pre & rest & prev' & s' & -> & Hm). cbn [Matches] in Hm.
    destruct Hm as (pm & sm & c1 & c2 & (Hbol & -> & -> & ->) & Hm & _).
    apply afterLit_None in Hbol. subst pre.
    destruct Hm as (pm & sm & c1 & c2' & (c & -> & Hc & -> & ->) & Hm & _).
    destruct Hm as (pm & sm' & c1 & c2'' & (a & -> & Ha & -> & ->)
                    & (-> & _) & _).
    exists c, a. by rewrite app_nil_r.
  - intros (c & rest & -> & Hc & Hrest).
    exists [], [], (c :: rest), (afterLit (Some c) rest), []. split; [done|].
    cbn [Matches]. exists None, (c :: rest), [], [].
    split; [done|split; [|done]].
    exists (Some c), rest, [], []. split; [by exists c|split; [|done]].
    exists (afterLit (Some c) rest), [], [], [].
    split; [|split; [done|done]].
    exists rest. by rewrite app_nil_r.
Qed.

Lemma word_not_space c : isWordChar c = true -> isSpace c = false.
Proof.
  intros Hw. apply not_true_is_false. intros Hs. revert Hw Hs.
  unfold isWordChar, isSpace, inRange.
  rewrite !orb_true_iff, !andb_true_iff, !N.leb_le, !N.eqb_eq. lia.
Qed.

Lemma run_unique p a : forall a' b b',
  a ++ b = a' ++ b' -> allOf p a -> allOf p a' ->
  stops p b -> stops p b' -> a = a' /\ b = b'.
Proof.
  induction a as [|x a IH]; intros a' b b' Heq Ha Ha' Hb Hb'.
  - destruct a' as [|y a']; [done|]. simpl in Heq. subst b.
    inversion Ha'; subst. simpl in Hb. congruence.
  - destruct a' as [|y a'].
    + simpl in Heq. subst b'. inversion Ha; subst. simpl in Hb'. congruence.
    + injection Heq as -> Heq. inversion Ha; inversion Ha'; subst.
      destruct (IH a' b b' Heq) as [-> ->]; done.
Qed.

Lemma AssignmentTo_unique n1 n2 content :
  AssignmentTo n1 content -> AssignmentTo n2 content -> n1 = n2.
Proof.
  intros (ws1 & ws1' & r1 & -> & Hws1 & Hn1 & Hw1 & Hws1')
         (ws2 & ws2' & r2 & Heq & Hws2 & Hn2 & Hw2 & Hws2').
  assert (Hstop : forall n ws' r,
            n <> [] -> allOf isWordChar n ->
            stops isSpace (n ++ ws' ++ ch "=" :: r)).
  { intros [|c n] ws' r Hn Hw; [done|]. inversion Hw; subst. simpl.
    by apply word_not_space. }
  assert (Hstop' : forall ws' r,
            allOf isSpace ws' -> stops isWordChar (ws' ++ ch "=" :: r)).
  { intros [|c ws'] r Hs; [reflexivity|]. inversion Hs; subst. simpl.
    destruct (isWordChar c) eqn:E; [|done].
    apply word_not_space in E. congruence. }
  destruct (run_unique isSpace _ _ _ _ Heq) as [_ Heq']; auto.
  by destruct (run_unique isWordChar _ _ _ _ Heq') as [-> _]; auto.
Qed.

Lemma take_app_sub {A} (a b : list A) :
  take (length (a ++ b) - length b) (a ++ b) = a.
Proof.
  rewrite length_app. replace (length a + length b - length b) with
    (length a) by lia.
  by rewrite take_app_length.
Qed.

Lemma assignmentRe_sound s caps :
  MatchesIn assignmentRe s caps ->
  exists name, caps = [name] /\ AssignmentTo name s.
Proof.
  unfold MatchesIn, assignmentRe.
  intros (pre & rest & prev' & s' & -> & Hm). cbn [Matches] in Hm.
  destruct Hm as (? & ? & ? & ? & (Hbol & -> & -> & ->) & Hm & ->).
  apply afterLit_None in Hbol. subst pre.
  destruct Hm as (? & ? & ? & ? & (ws & -> & Hws & -> & ->) & Hm & ->).
  destruct Hm as (? & ? & ? & ? & (? & Hplus & ->) & Hm & ->).
  apply Matches_Plus in Hplus.
  destruct Hplus as (name & Hne & -> & Hname & -> & ->).
  destruct Hm as (? & ? & ? & ? & (ws' & -> & Hws' & -> & ->) & Hm & ->).
  apply (Matches_Lit (js "=")) in Hm. destruct Hm as (-> & -> & ->).
  exists name. split.
  - simpl. by rewrite take_app_sub.
  - by exists ws, ws', s'.
Qed.

Lemma assignmentRe_complete s name :
  AssignmentTo name s -> exists caps, MatchesIn assignmentRe s caps.
Proof.
  intros (ws & ws' & rest & -> & Hws & Hne & Hname & Hws').
  eexists. exists [], (ws ++ name ++ ws' ++ ch "=" :: rest). do 2 eexists.
  split; [done|]. unfold assignmentRe. cbn [Matches].
  do 4 eexists. split; [repeat split; reflexivity|split; [|reflexivity]].
  do 4 eexists. split; [|split; [|reflexivity]].
  { exists ws. split; [reflexivity|split; [exact Hws|split; reflexivity]]. }
  do 4 eexists. split; [|split; [|reflexivity]].
  { eexists. split; [|reflexivity]. apply Matches_Plus.
    exists name. split; [exact Hne|split; [reflexivity|]].
    split; [exact Hname|split; reflexivity]. }
  do 4 eexists. split; [|split; [|reflexivity]].
  { exists ws'. split; [reflexivity|split; [exact Hws'|split; reflexivity]]. }
  apply (Matches_Lit (js "=")). repeat split; reflexivity.
Qed.

Lemma assignmentRe_groups s caps :
  matchGroups assignmentRe s = Some caps
  <-> exists name, caps = [name] /\ AssignmentTo name s.
Proof.
  split.
  - intros H. by apply assignmentRe_sound, matchGroups_sound.
  - intros (name & -> & Hform).
    destruct (assignmentRe_complete s name Hform) as (caps & Hm).
    destruct (matchGroups_complete _ _ _ Hm) as [caps' Hcaps'].
    rewrite Hcaps'. f_equal.
    apply matchGroups_sound, assignmentRe_sound in Hcaps'.
    destruct Hcaps' as (name' & -> & Hform').
    by rewrite (AssignmentTo_unique name' name s).
Qed.

Lemma camelCase_diag_elem config content n stack d :
  d ∈ ruleDiags checkCamelCase config content n stack
  <-> rules config !! "camelcase-vars" <> Some (VStr "off")
      /\ exists name,
           AssignmentTo name content /\ ~ CamelCase name
           /\ d = {| line := n;
                     message := camelCaseMessage name;
                     type := severityOf
                               (orElse (rules config !! "camelcase-vars")
                                  (VStr "warn"));
                     ruleId := Some "camelcase-vars" |}.
Proof.
  rewrite <- (rule_enabled _ "warn") by discriminate.
  unfold ruleDiags, checkCamelCase. simpl.
  destruct (strictEq _ "off"); simpl;
    [split; [intros H; by apply elem_of_nil in H|by intros [? _]]|].
  destruct (matchGroups assignmentRe content) as [groups|] eqn:Hg.
  - apply assignmentRe_groups in Hg. destruct Hg as (name & -> & Hform).
    simpl. destruct (test camelCaseRe name) eqn:Ht; simpl.
    + apply camelCaseRe_matches in Ht. split.
      * intros H. by apply elem_of_nil in H.
      * intros (_ & name' & Hform' & Hnot & _).
        by rewrite (AssignmentTo_unique name' name content) in Hnot.
    + rewrite list_elem_of_singleton. split.
      * intros ->. split; [done|]. exists name. split_and!; [done| |done].
        intros Hc. apply camelCaseRe_matches in Hc. congruence.
      * intros (_ & name' & Hform' & _ & ->).
        by rewrite (AssignmentTo_unique name' name content).
  - split; [intros H; by apply elem_of_nil in H|].
    intros (_ & name & Hform & _). exfalso.
    assert (Hsome : matchGroups assignmentRe content = Some [name])
      by (apply assignmentRe_groups; by exists name).
    congruence.
Qed.

Lemma camelCaseMessage_inj n1 n2 :
  camelCaseMessage n1 = camelCaseMessage n2 -> n1 = n2.
Proof.
  unfold camelCaseMessage. intros [= H].
  by apply app_inv_tail in H.
Qed.

(** X11: with camelcase-vars not off, a non-comment line gets the
    diagnostic that names the variable [name] exactly when the line
    starts, after white space, with [name], white space and an equals
    sign, and [name] is not a lower-case letter followed by letters and
    digits; only this first name of the line is checked. *)
Theorem camelcase_rule_trigger (code : jsstring) (config : DelugeConfig)
    (k : nat) (content name : jsstring) :
  rules config !! "camelcase-vars" <> Some (VStr "off") ->
  split [newline] code !! k = Some content ->
  isCommentLine content = false ->
  (exists d, d ∈ analyzeDeluge code config
             /\ line d = k + 1
             /\ ruleId d = Some "camelcase-vars"
             /\ message d = camelCaseMessage name)
  <-> AssignmentTo name content /\ ~ CamelCase name.
Proof.
  intros Hon Hk Hc. split.
  - intros (d & Hd & Hl & Hid & Hmsg). apply analyzeDeluge_elem_line in Hd.
    destruct Hd as [Hd|(k' & content' & Hk' & Hc' & Hd)].
    + apply checkMaxLines_elem in Hd. destruct Hd as (Hid' & _). congruence.
    + pose proof (lineDiags_elem _ _ _ _ _ Hd) as [Hl' _].
      assert (k' = k) as -> by lia.
      rewrite Hk in Hk'. injection Hk' as <-.
      destruct (lineDiags_rule _ _ _ _ _ _ Hd Hid)
        as [[Hi _]|[[Hi _]|[[_ Hin]|[Hi _]]]]; try discriminate Hi.
      apply camelCase_diag_elem in Hin.
      destruct Hin as (_ & name' & Hform & Hnot & ->). simpl in Hmsg.
      apply camelCaseMessage_inj in Hmsg. by subst name'.
  - intros [Hform Hnot].
    exists {| line := k + 1;
              message := camelCaseMessage name;
              type := severityOf
                        (orElse (rules config !! "camelcase-vars")
                           (VStr "warn"));
              ruleId := Some "camelcase-vars" |}.
    split_and!; [|reflexivity|reflexivity|reflexivity].
    apply analyzeDeluge_elem_line. right. exists k, content.
    split_and!; [done|done|].
    unfold lineDiags. rewrite !elem_of_app. do 2 right. left.
    apply camelCase_diag_elem. split; [done|]. by exists name.
Qed.

Lemma camelcase_rule_trigger_witness :
  exists d,
    d ∈ analyzeDeluge (js "  Total_2 = a_b + 1;") defaultConfig
    /\ line d = 0 + 1
    /\ ruleId d = Some "camelcase-vars"
    /\ message d = camelCaseMessage (js "Total_2").
Proof.
  apply (camelcase_rule_trigger (js "  Total_2 = a_b + 1;") defaultConfig
           0 (js "  Total_2 = a_b + 1;") (js "Total_2")).
  - vm_compute. discriminate.
  - vm_compute. reflexivity.
  - vm_compute. reflexivity.
  - split.
    + exists (js "  "), (js " "), (js " a_b + 1;").
      split_and!; [reflexivity|repeat constructor|discriminate| |].
      * repeat constructor.
      * repeat constructor.
    + intros (c & rest & Heq & Hc & _). injection Heq as <- _.
      vm_compute in Hc. discriminate.
Defined.

(** ** The patterns of the loop rule *)

Lemma afterLit_last pre : afterLit None pre = last pre.
Proof. unfold afterLit. by destruct (last pre). Qed.

Lemma isWordAt_head_stops s :
  isWordAt (head s) = false <-> stops isWordChar s.
Proof. by destruct s. Qed.

Lemma apiCallRe_matches content :
  test apiCallRe content = true <-> ApiCall content.
Proof.
  rewrite test_matches. unfold MatchesIn, apiCallRe, ApiCall. split.
  - intros (caps & pre & rest & prev' & s' & -> & Hm). cbn [Matches] in Hm.
    destruct Hm as (? & ? & ? & ? & (? & Hg & ->) & Hm & ->).
    destruct Hm as (? & ? & ? & ? & (ws & -> & Hws & -> & ->) & Hm & ->).
    apply (Matches_Lit (js "(")) in Hm. destruct Hm as (-> & -> & ->).
    exists pre, ws, s'. split; [done|]. destruct Hg as [Hg|Hg].
    + left.
      destruct Hg as (? & ? & ? & ? & Hz & Hg & ->).
      apply (Matches_Lit (js "zoho.")) in Hz. destruct Hz as (-> & -> & ->).
      destruct Hg as (? & ? & ? & ? & Hm & Hg & ->).
      apply Matches_Plus in Hm. destruct Hm as (m & Hm & -> & Hmw & -> & ->).
      destruct Hg as (? & ? & ? & ? & Hd & Hf & ->).
      apply (Matches_Lit (js ".")) in Hd. destruct Hd as (-> & -> & ->).
      apply Matches_Plus in Hf. destruct Hf as (f & Hf & -> & Hfw & -> & ->).
      by exists m, f.
    + right. apply (Matches_Lit (js "invokeurl")) in Hg.
      by destruct Hg as (-> & -> & ->).
  - intros (pre & ws & post & Hws & [(m & f & Hm & Hmw & Hf & Hfw & ->)| ->]).
    + eexists. exists pre. do 3 eexists. split; [reflexivity|].
      cbn [Matches]. do 4 eexists. split; [|split; [|reflexivity]].
      { eexists. split; [|reflexivity]. left.
        do 4 eexists. split; [|split; [|reflexivity]].
        { apply (Matches_Lit (js "zoho.")).
          split; [reflexivity|split; reflexivity]. }
        do 4 eexists. split; [|split; [|reflexivity]].
        { apply Matches_Plus. exists m.
          split; [exact Hm|split; [reflexivity|]].
          split; [exact Hmw|split; reflexivity]. }
        do 4 eexists. split; [|split; [|reflexivity]].
        { apply (Matches_Lit (js ".")).
          split; [reflexivity|split; reflexivity]. }
        apply Matches_Plus. exists f.
        split; [exact Hf|split; [reflexivity|]].
        split; [exact Hfw|split; reflexivity]. }
      do 4 eexists. split; [|split; [|reflexivity]].
      { exists ws. split; [reflexivity|split; [exact Hws|split; reflexivity]]. }
      apply (Matches_Lit (js "(")). split; [reflexivity|split; reflexivity].
    + eexists. exists pre. do 3 eexists. split; [reflexivity|].
      cbn [Matches]. do 4 eexists. split; [|split; [|reflexivity]].
      { eexists. split; [|reflexivity]. right.
        apply (Matches_Lit (js "invokeurl")).
        split; [reflexivity|split; reflexivity]. }
      do 4 eexists. split; [|split; [|reflexivity]].
      { exists ws. split; [reflexivity|split; [exact Hws|split; reflexivity]]. }
      apply (Matches_Lit (js "(")). split; [reflexivity|split; reflexivity].
Qed.

(** X12: the pattern of API calls accepts exactly the lines that hold
    [zoho.module.function] or [invokeurl], followed by optional white
    space and an opening parenthesis, anywhere in the line. *)
Theorem api_call_pattern (content : jsstring) :
  test apiCallRe content = true <-> ApiCall content.
Proof. apply apiCallRe_matches. Qed.

(** X13: the loop-keyword pattern accepts exactly the lines that hold
    [for], one or more white-space characters and [each], with no word
    character just before [for] or just after [each]. *)
Theorem loop_keyword_pattern (content : jsstring) :
  test forEachRe content = true <-> LoopKeyword content.
Proof.
  rewrite test_matches. unfold MatchesIn, forEachRe, LoopKeyword. split.
  - intros (caps & pre & rest & prev' & s' & -> & Hm). cbn [Matches] in Hm.
    destruct Hm as (? & ? & ? & ? & (Hb & -> & -> & ->) & Hm & ->).
    destruct Hm as (? & ? & ? & ? & Hfor & Hm & ->).
    apply (Matches_Lit (js "for")) in Hfor. destruct Hfor as (-> & -> & ->).
    destruct Hm as (? & ? & ? & ? & Hws & Hm & ->).
    apply Matches_Plus in Hws. destruct Hws as (ws & Hne & -> & Hws & -> & ->).
    destruct Hm as (? & ? & ? & ? & Heach & (He & -> & -> & ->) & ->).
    apply (Matches_Lit (js "each")) in Heach.
    destruct Heach as (-> & -> & ->).
    match goal with H : xorb _ (isWordAt (head ?x)) = true |- _ =>
      exists pre, ws, x end.
    split_and!; [done|done|done| |].
    + rewrite afterLit_last in Hb. simpl in Hb.
      by destruct (isWordAt (last pre)).
    + apply isWordAt_head_stops.
      change (afterLit ?p (js "each")) with (Some (ch "h")) in He.
      change (isWordAt (Some (ch "h"))) with true in He.
      match goal with |- ?t = false => destruct t eqn:E end;
        [discriminate He|reflexivity].
  - intros (pre & ws & post & -> & Hne & Hws & Hpre & Hpost).
    eexists. exists pre. do 3 eexists. split; [reflexivity|].
    cbn [Matches]. do 4 eexists. split; [|split; [|reflexivity]].
    { split; [|split; [reflexivity|split; reflexivity]].
      rewrite afterLit_last, Hpre. reflexivity. }
    do 4 eexists. split; [|split; [|reflexivity]].
    { apply (Matches_Lit (js "for")).
      split; [reflexivity|split; reflexivity]. }
    do 4 eexists. split; [|split; [|reflexivity]].
    { apply Matches_Plus. exists ws.
      split; [exact Hne|split; [reflexivity|]].
      split; [exact Hws|split; reflexivity]. }
    do 4 eexists. split; [|split; [|reflexivity]].
    { apply (Matches_Lit (js "each")).
      split; [reflexivity|split; reflexivity]. }
    split; [|split; [reflexivity|split; reflexivity]].
    apply isWordAt_head_stops in Hpost. rewrite Hpost. reflexivity.
Qed.

(** ** The command line *)

Lemma hasError_elem results :
  hasError results = true <-> exists d, d ∈ results /\ type d = error.
Proof.
  unfold hasError. rewrite List.existsb_exists. split.
  - intros (d & Hin & Ht). exists d. split; [by apply list_elem_of_In|].
    by destruct (type d).
  - intros (d & Hin & Ht). exists d. split; [by apply list_elem_of_In|].
    by rewrite Ht.
Qed.

Lemma includes_init p :
  existsb (String.eqb "--init") (argv p) = true <-> In "--init" (argv p).
Proof.
  rewrite List.existsb_exists. split.
  - intros (x & Hin & Heq). apply String.eqb_eq in Heq. by subst x.
  - intros Hin. exists "--init". split; [done|apply String.eqb_refl].
Qed.

Lemma main_lints p filePath config :
  lintsFile p filePath config ->
  main p
  = if isExcluded p config (normalizedPathOf p filePath) then
      {| outputs := [LogIgnored (normalizedPathOf p filePath)];
         status := Exit 0 |}
    else
      match readFileSync p filePath with
      | None => {| outputs := [ErrorProcessing]; status := Exit 1 |}
      | Some code =>
          if length (analyzeDeluge code config) =? 0 then
            {| outputs := [LogClean]; status := Returns |}
          else
            {| outputs := map render (analyzeDeluge code config);
               status :=
                 if hasError (analyzeDeluge code config) then Exit 1
                 else Returns |}
      end.
Proof.
  intros (Hinit & Harg & Hne & Hcfg). unfold main.
  destruct (existsb _ (argv p)) eqn:E; [by apply includes_init in E|].
  rewrite Harg. apply String.eqb_neq in Hne. by rewrite Hne, Hcfg.
Qed.

Lemma main_without_rules p filePath :
  ~ In "--init" (argv p) ->
  nth_error (argv p) 2 = Some filePath -> filePath <> "" ->
  (forall excl code,
     getConfig (search p) = Some (WithoutRules excl) ->
     excludedBy p excl (normalizedPathOf p filePath) = false ->
     readFileSync p filePath = Some code ->
     main p = {| outputs := [ErrorProcessing]; status := Exit 1 |})
  /\ (getConfig (search p) = Some NoObject ->
      main p = {| outputs := [ErrorProcessing]; status := Exit 1 |}).
Proof.
  intros Hinit Harg Hne. unfold main.
  destruct (existsb _ (argv p)) eqn:E; [by apply includes_init in E|].
  rewrite Harg. apply String.eqb_neq in Hne. rewrite Hne. split.
  - intros excl code Hcfg Hex Hread. rewrite Hcfg. simpl.
    by rewrite Hex, Hread.
  - intros Hcfg. by rewrite Hcfg.
Qed.

(** X14: a run that lints a readable file that is not excluded, under a
    loaded configuration of the declared type (or the default one), ends
    with [process.exit(1)] exactly when the result holds a diagnostic
    of a rule configured as [error] (or of require-semicolon left
    unset), and returns otherwise; it logs one line for each diagnostic,
    in the order of the result, or the clean-code line when there is
    none.  Under a configuration object without [rules], or a
    configuration file that holds no object, the run logs the processing
    error and ends with [process.exit(1)] whatever the file holds. *)
Theorem lint_run_outcome (p : Process) (filePath : string)
    (code : jsstring) :
  ~ In "--init" (argv p) ->
  nth_error (argv p) 2 = Some filePath -> filePath <> "" ->
  readFileSync p filePath = Some code ->
  (forall config,
     getConfig (search p) = Some (Typed config) ->
     isExcluded p config (normalizedPathOf p filePath) = false ->
     (status (main p) = Exit 1
      <-> exists d, d ∈ analyzeDeluge code config /\ fromErrorRule config d)
     /\ (status (main p) <> Exit 1 -> status (main p) = Returns)
     /\ outputs (main p)
        = match analyzeDeluge code config with
          | [] => [LogClean]
          | results => map render results
          end)
  /\ (forall excl,
        getConfig (search p) = Some (WithoutRules excl) ->
        excludedBy p excl (normalizedPathOf p filePath) = false ->
        main p = {| outputs := [ErrorProcessing]; status := Exit 1 |})
  /\ (getConfig (search p) = Some NoObject ->
      main p = {| outputs := [ErrorProcessing]; status := Exit 1 |}).
Proof.
  intros Hinit Harg Hne Hread.
  destruct (main_without_rules p filePath Hinit Harg Hne) as [Hnr Hno].
  split_and!; [|intros excl Hcfg Hex; by eapply Hnr|exact Hno].
  intros config Hcfg Hexcl.
  rewrite (main_lints p filePath config) by done.
  rewrite Hexcl, Hread.
  destruct (analyzeDeluge code config) as [|d0 rest] eqn:Hres.
  - simpl. split_and!; [|done|done]. split; [done|].
    intros (d & Hd & _). by apply elem_of_nil in Hd.
  - change (length (d0 :: rest) =? 0) with false. cbv iota.
    cbn [status outputs]. split_and!; [| |done].
    + destruct (hasError (d0 :: rest)) eqn:E.
      * split; [|done]. intros _. apply hasError_elem in E.
        destruct E as (d & Hd & Ht). exists d. split; [done|].
        rewrite <- Hres in Hd. by apply (error_diag_source code config d Hd).
      * split; [done|]. intros (d & Hd & Hsrc). exfalso.
        assert (hasError (d0 :: rest) = true); [|congruence].
        apply hasError_elem. exists d. split; [done|].
        rewrite <- Hres in Hd. by apply (error_diag_source code config d Hd).
    + by destruct (hasError (d0 :: rest)).
Qed.

Lemma lint_run_outcome_witness :
  ((status (main (exampleRun ["script.dg"] (js "info x"))) = Exit 1
    <-> exists d,
          d ∈ analyzeDeluge (js "info x") defaultConfig
          /\ fromErrorRule defaultConfig d)
   /\ (status (main (exampleRun ["script.dg"] (js "info x"))) <> Exit 1 ->
       status (main (exampleRun ["script.dg"] (js "info x"))) = Returns)
   /\ outputs (main (exampleRun ["script.dg"] (js "info x")))
      = match analyzeDeluge (js "info x") defaultConfig with
        | [] => [LogClean]
        | results => map render results
        end)
  /\ main (rulesLessRun (js "x = 1;"))
     = {| outputs := [ErrorProcessing]; status := Exit 1 |}.
Proof.
  assert (Hargs : ~ In "--init" ["node"; "deluge-lint"; "script.dg"]).
  { simpl. intros [H|[H|[H|[]]]]; discriminate. }
  split.
  - destruct (lint_run_outcome (exampleRun ["script.dg"] (js "info x"))
                "script.dg" (js "info x")) as (Htyped & _ & _);
      [exact Hargs|reflexivity|discriminate|reflexivity|].
    apply (Htyped defaultConfig); reflexivity.
  - destruct (lint_run_outcome (rulesLessRun (js "x = 1;")) "script.dg"
                (js "x = 1;")) as (_ & Hwithout & _);
      [exact Hargs|reflexivity|discriminate|reflexivity|].
    apply (Hwithout None); reflexivity.
Defined.

(** X15: when no line rule is configured as [error] and
    require-semicolon holds a truthy value, a run that lints a readable
    file never ends with [process.exit(1)], whatever the file holds. *)
Theorem warnings_never_fail (p : Process) (filePath : string)
    (config : DelugeConfig) (code : jsstring) :
  lintsFile p filePath config ->
  readFileSync p filePath = Some code ->
  (forall id, In id lineEvaluators ->
              rules config !! id <> Some (VStr "error")) ->
  ~ falsyRule (rules config !! "require-semicolon") ->
  status (main p) = Exit 0 \/ status (main p) = Returns.
Proof.
  intros Hlint Hread Hnoerr Hsemi.
  rewrite (main_lints p filePath config Hlint), Hread.
  destruct (isExcluded _ _ _); [by left|right].
  destruct (length _ =? 0); [done|]. cbn [status].
  destruct (hasError (analyzeDeluge code config)) eqn:E; [|done].
  apply hasError_elem in E. destruct E as (d & Hd & Ht).
  apply (error_diag_source code config d Hd) in Ht.
  destruct Ht as (id & Hev & _ & [Herr|[-> Hf]]).
  - by apply Hnoerr in Herr.
  - done.
Qed.

Lemma warnings_never_fail_witness :
  status (main {| argv := ["node"; "deluge-lint"; "script.dg"];
                  existsSync := true; writeFileSync := true;
                  search := Found (Typed (setRule "require-semicolon"
                                            (VStr "warn") defaultConfig));
                  normalizedPathOf := fun f => f;
                  minimatch := fun _ _ => false;
                  readFileSync := fun _ => Some (js "info x") |}) = Exit 0
  \/ status (main {| argv := ["node"; "deluge-lint"; "script.dg"];
                     existsSync := true; writeFileSync := true;
                     search := Found (Typed (setRule "require-semicolon"
                                               (VStr "warn") defaultConfig));
                     normalizedPathOf := fun f => f;
                     minimatch := fun _ _ => false;
                     readFileSync := fun _ => Some (js "info x") |})
     = Returns.
Proof.
  apply (warnings_never_fail _ "script.dg"
           (setRule "require-semicolon" (VStr "warn") defaultConfig)
           (js "info x")).
  - split_and!; [|reflexivity|discriminate|reflexivity].
    simpl. intros [H|[H|[H|[]]]]; discriminate.
  - reflexivity.
  - intros id Hev. simpl in Hev.
    destruct Hev as [<-|[<-|[<-|[<-|[]]]]]; vm_compute; discriminate.
  - vm_compute. discriminate.
Defined.

Lemma render_not_write results c : WriteConfig c ∉ map render results.
Proof.
  intros H. apply list_elem_of_In, in_map_iff in H.
  by destruct H as (d & Hd & _).
Qed.

(** X16: [main] writes a configuration file only when [--init] is among
    the arguments and no [.delugerc] exists, and what it writes is the
    initial configuration; an existing file is never written over. *)
Theorem config_written_only_by_init (p : Process) (c : DelugeConfig) :
  WriteConfig c ∈ outputs (main p)
  <-> In "--init" (argv p) /\ existsSync p = false
      /\ writeFileSync p = true /\ c = initialConfig.
Proof.
  unfold main. destruct (existsb _ (argv p)) eqn:E.
  - apply includes_init in E.
    destruct (existsSync p); [|destruct (writeFileSync p)]; simpl.
    + rewrite list_elem_of_singleton. split; [done|]. by intros (_ & ? & _).
    + rewrite elem_of_cons, list_elem_of_singleton. split.
      * intros [[= ->]|?]; done.
      * intros (_ & _ & _ & ->). by left.
    + split; [intros H; by apply elem_of_nil in H|]. by intros (_ & _ & ? & _).
  - assert (Hno : ~ In "--init" (argv p)).
    { intros H. apply includes_init in H. congruence. }
    split; [|by intros [? _]]. intros H. exfalso. unfold report in H.
    repeat match type of H with
    | context [match ?x with _ => _ end] => destruct x
    end; cbn [outputs] in H;
      try (apply list_elem_of_singleton in H; discriminate H);
      by apply render_not_write in H.
Qed.

(** X17: the content of the file matters only to a run that lints a
    file that is not excluded: with [--init], without a file argument,
    when the configuration search fails, when the configuration file
    holds no object, or when an [exclude] pattern matches, the run is
    the same whatever reading the file would give; an excluded file
    ends the run with [process.exit(0)]. *)
Theorem file_read_only_when_linted (p : Process)
    (reader : string -> option jsstring) :
  (In "--init" (argv p)
   \/ nth_error (argv p) 2 = None
   \/ nth_error (argv p) 2 = Some ""
   \/ getConfig (search p) = None
   \/ (exists filePath config,
         nth_error (argv p) 2 = Some filePath
         /\ getConfig (search p) = Some (Typed config)
         /\ isExcluded p config (normalizedPathOf p filePath) = true)
   \/ getConfig (search p) = Some NoObject
   \/ (exists filePath excl,
         nth_error (argv p) 2 = Some filePath
         /\ getConfig (search p) = Some (WithoutRules excl)
         /\ excludedBy p excl (normalizedPathOf p filePath) = true)) ->
  main (withReader p reader) = main p
  /\ (~ In "--init" (argv p) ->
      (exists filePath config,
         filePath <> "" /\ nth_error (argv p) 2 = Some filePath
         /\ getConfig (search p) = Some (Typed config)
         /\ isExcluded p config (normalizedPathOf p filePath) = true) ->
      status (main p) = Exit 0).
Proof.
  intros H. split.
  - unfold main, withReader.
    cbn [argv existsSync writeFileSync search normalizedPathOf minimatch
         readFileSync].
    destruct (existsb _ (argv p)) eqn:E; [done|].
    destruct H as [H|[H|[H|[H|[(f & config & Hf & Hc & Hex)
                     |[H|(f & excl & Hf & Hc & Hex)]]]]]].
    + apply includes_init in H. congruence.
    + by rewrite H.
    + by rewrite H.
    + rewrite H. by destruct (nth_error _ _) as [f|]; [destruct (_ =? _)%string|].
    + rewrite Hf, Hc. cbn [excludeOf]. unfold isExcluded in Hex.
      unfold excludedBy at 1 2.
      cbn [minimatch]. rewrite Hex. by destruct (_ =? _)%string.
    + rewrite H. by destruct (nth_error _ _) as [f|]; [destruct (_ =? _)%string|].
    + rewrite Hf, Hc. cbn [excludeOf]. unfold excludedBy in *.
      cbn [minimatch]. rewrite Hex. by destruct (_ =? _)%string.
  - intros Hinit (f & config & Hne & Hf & Hc & Hex).
    rewrite (main_lints p f config); [by rewrite Hex|]. done.
Qed.

Lemma file_read_only_when_linted_witness :
  main (withReader
          {| argv := ["node"; "deluge-lint"; "tests/a.dg"];
             existsSync := false; writeFileSync := true; search := NotFound;
             normalizedPathOf := fun f => f;
             minimatch := fun path pattern => String.eqb pattern "tests/**";
             readFileSync := fun _ => Some (js "info x") |}
          (fun _ => None))
  = main {| argv := ["node"; "deluge-lint"; "tests/a.dg"];
            existsSync := false; writeFileSync := true; search := NotFound;
            normalizedPathOf := fun f => f;
            minimatch := fun path pattern => String.eqb pattern "tests/**";
            readFileSync := fun _ => Some (js "info x") |}
  /\ status (main {| argv := ["node"; "deluge-lint"; "tests/a.dg"];
                     existsSync := false; writeFileSync := true;
                     search := NotFound;
                     normalizedPathOf := fun f => f;
                     minimatch :=
                       fun path pattern => String.eqb pattern "tests/**";
                     readFileSync := fun _ => Some (js "info x") |})
     = Exit 0.
Proof.
  destruct (file_read_only_when_linted
              {| argv := ["node"; "deluge-lint"; "tests/a.dg"];
                 existsSync := false; writeFileSync := true;
                 search := NotFound;
                 normalizedPathOf := fun f => f;
                 minimatch :=
                   fun path pattern => String.eqb pattern "tests/**";
                 readFileSync := fun _ => Some (js "info x") |}
              (fun _ => None)) as [Hsame Hexit].
  - do 4 right. left. exists "tests/a.dg", defaultConfig.
    split_and!; reflexivity.
  - split; [exact Hsame|]. apply Hexit.
    + simpl. intros [H|[H|[H|[]]]]; discriminate.
    + exists "tests/a.dg", defaultConfig.
      split_and!; [discriminate|reflexivity..].
Defined.

(** * Rules switched off and rules left unset *)

Lemma ruleDiags_nonempty {A} (l : list A) : l <> [] <-> exists d, d ∈ l.
Proof.
  destruct l as [|x l].
  - split; [done|]. intros [d Hd]. by apply elem_of_nil in Hd.
  - split; [|done]. intros _. exists x. by left.
Qed.

Lemma line_rule_fires config code k content id :
  rules config !! id <> Some (VStr "off") ->
  split [newline] code !! k = Some content ->
  isCommentLine content = false ->
  In id lineEvaluators ->
  (exists d, d ∈ analyzeDeluge code config
             /\ line d = k + 1 /\ ruleId d = Some id)
  <-> ruleFires id (split [newline] code) k content.
Proof.
  intros Hon Hk Hc Hev.
  rewrite (rule_at_line config code k content id Hk Hc Hev).
  simpl in Hev. destruct Hev as [<-|[<-|[<-|[<-|[]]]]]; unfold ruleFires;
    cbn [String.eqb Ascii.eqb Bool.eqb].
  - rewrite lineDiags_hardcodedIds, hardcodedIds_diags,
      hardcodedIdRe_matches. tauto.
  - by rewrite (lineDiags_semicolon config Hon), semicolonFires_expected.
  - rewrite lineDiags_camelCase, ruleDiags_nonempty. split.
    + intros (d & Hd). apply camelCase_diag_elem in Hd.
      destruct Hd as (_ & name & Hform & Hnot & _). by exists name.
    + intros (name & Hform & Hnot). eexists.
      apply camelCase_diag_elem. split; [done|]. by exists name.
  - rewrite lineDiags_timeout, timeout_diags, apiCallRe_matches. tauto.
Qed.

Lemma default_severity code config id dv d :
  In (id, dv) documentedDefaults ->
  rules config !! id = None ->
  d ∈ analyzeDeluge code config -> ruleId d = Some id ->
  In id lineEvaluators /\ type d = severityOf (VStr dv).
Proof.
  intros Hdoc Hnone Hd Hid. apply analyzeDeluge_provenance in Hd.
  destruct Hd as [(Hid' & _ & _ & n & Hn)|[_ Hline]].
  - rewrite Hid in Hid'. injection Hid' as ->. congruence.
  - destruct Hline as (id' & dv' & Hdoc' & Hev & Hid' & _ & Hty).
    rewrite Hid in Hid'. injection Hid' as <-. split; [done|].
    rewrite Hty, Hnone. simpl in Hdoc, Hdoc'.
    destruct Hdoc as [H|[H|[H|[H|[H|[]]]]]]; injection H as <- <-;
      destruct Hdoc' as [H|[H|[H|[H|[H|[]]]]]];
      try discriminate H; by injection H as <-.
Qed.

(** C5: a rule configured as off contributes no diagnostic with its
    ruleId.  A rule whose key is absent runs with its documented
    default: the result is the one obtained with the default written
    out; a line rule reports every non-comment line on which what it
    looks for is found, and no other line, with the severity of its
    default (error for require-semicolon, warning for no-hardcoded-ids,
    camelcase-vars and enforce-timeout-awareness); and
    max-lines-per-function, whose default is off, reports nothing. *)
Theorem off_and_default_rules (code : jsstring) (config : DelugeConfig)
    (id dv : string) :
  In (id, dv) documentedDefaults ->
  (rules config !! id = Some (VStr "off") ->
   forall d, d ∈ analyzeDeluge code config -> ruleId d <> Some id)
  /\ (rules config !! id = None ->
      analyzeDeluge code config
      = analyzeDeluge code (setRule id (VStr dv) config)
      /\ (forall d, d ∈ analyzeDeluge code config -> ruleId d = Some id ->
            type d = severityOf (VStr dv))
      /\ (forall k content,
            In id lineEvaluators ->
            split [newline] code !! k = Some content ->
            isCommentLine content = false ->
            ruleFires id (split [newline] code) k content
            <-> exists d,
                  d ∈ analyzeDeluge code config
                  /\ line d = k + 1 /\ ruleId d = Some id
                  /\ type d = severityOf (VStr dv))
      /\ (In id lineEvaluators ->
          severityOf (VStr dv)
          = if String.eqb id "require-semicolon" then error else warning)
      /\ (id = "max-lines-per-function" ->
          forall d, d ∈ analyzeDeluge code config -> ruleId d <> Some id)).
Proof.
  intros Hdoc. split.
  - intros Hoff d Hd Hid. apply analyzeDeluge_provenance in Hd.
    destruct Hd as [(Hid' & _ & _ & n & Hn)|[_ Hline]].
    + rewrite Hid in Hid'. injection Hid' as ->. congruence.
    + destruct Hline as (id' & dv' & _ & _ & Hid' & Hon & _).
      rewrite Hid in Hid'. injection Hid' as <-.
      rewrite Hoff in Hon. discriminate.
  - intros Hnone. split_and!.
    + apply analyzeDeluge_agree. split.
      * intros id' dv' Hdoc' Hev. simpl.
        destruct (decide (id = id')) as [<-|Hne].
        -- rewrite lookup_insert_eq, Hnone.
           simpl in Hdoc, Hdoc'.
           destruct Hdoc as [H|[H|[H|[H|[H|[]]]]]]; injection H as <- <-;
             destruct Hdoc' as [H|[H|[H|[H|[H|[]]]]]];
             try discriminate H; by injection H as <-.
        -- by rewrite lookup_insert_ne.
      * intros lines. unfold checkMaxLines. simpl.
        destruct (decide (id = "max-lines-per-function")) as [->|Hne].
        -- rewrite lookup_insert_eq, Hnone. reflexivity.
        -- by rewrite lookup_insert_ne.
    + intros d Hd Hid.
      by destruct (default_severity code config id dv d Hdoc Hnone Hd Hid).
    + intros k content Hev Hk Hc.
      assert (Hon : rules config !! id <> Some (VStr "off"))
        by (rewrite Hnone; discriminate).
      rewrite <- (line_rule_fires config code k content id Hon Hk Hc Hev).
      split.
      * intros (d & Hd & Hl & Hid). exists d. split_and!; try done.
        by destruct (default_severity code config id dv d Hdoc Hnone Hd Hid).
      * intros (d & Hd & Hl & Hid & _). by exists d.
    + intros _. simpl in Hdoc.
      destruct Hdoc as [H|[H|[H|[H|[H|[]]]]]]; injection H as <- <-;
        reflexivity.
    + intros -> d Hd Hid.
      destruct (default_severity code config _ dv d Hdoc Hnone Hd Hid)
        as [Hev _].
      simpl in Hev. destruct Hev as [H|[H|[H|[H|[]]]]]; discriminate H.
Qed.

Lemma off_and_default_rules_witness :
  (forall d,
     d ∈ analyzeDeluge (js "info x")
           (setRule "require-semicolon" (VStr "off") defaultConfig) ->
     ruleId d <> Some "require-semicolon")
  /\ analyzeDeluge (js "info x") (unsetRule "require-semicolon" defaultConfig)
     = analyzeDeluge (js "info x")
         (setRule "require-semicolon" (VStr "error")
            (unsetRule "require-semicolon" defaultConfig))
  /\ (exists d,
        d ∈ analyzeDeluge (js "info x")
              (unsetRule "require-semicolon" defaultConfig)
        /\ line d = 0 + 1 /\ ruleId d = Some "require-semicolon"
        /\ type d = error)
  /\ (exists d,
        d ∈ analyzeDeluge (js "id = 409779000012345678;")
              (unsetRule "no-hardcoded-ids" defaultConfig)
        /\ line d = 0 + 1 /\ ruleId d = Some "no-hardcoded-ids"
        /\ type d = warning).
Proof.
  split_and!.
  - destruct (off_and_default_rules (js "info x")
                (setRule "require-semicolon" (VStr "off") defaultConfig)
                "require-semicolon" "error") as [Hoff _]; [simpl; tauto|].
    apply Hoff. vm_compute. reflexivity.
  - destruct (off_and_default_rules (js "info x")
                (unsetRule "require-semicolon" defaultConfig)
                "require-semicolon" "error") as [_ Hdefault];
      [simpl; tauto|].
    destruct Hdefault as (Hsame & _); [vm_compute; reflexivity|].
    exact Hsame.
  - destruct (off_and_default_rules (js "info x")
                (unsetRule "require-semicolon" defaultConfig)
                "require-semicolon" "error") as [_ Hdefault];
      [simpl; tauto|].
    destruct Hdefault as (_ & _ & Hfires & _); [vm_compute; reflexivity|].
    apply (Hfires 0 (js "info x"));
      [simpl; tauto|vm_compute; reflexivity|vm_compute; reflexivity|].
    apply semicolonFires_expected. vm_compute. reflexivity.
  - destruct (off_and_default_rules (js "id = 409779000012345678;")
                (unsetRule "no-hardcoded-ids" defaultConfig)
                "no-hardcoded-ids" "warn") as [_ Hdefault];
      [simpl; tauto|].
    destruct Hdefault as (_ & _ & Hfires & _); [vm_compute; reflexivity|].
    apply (Hfires 0 (js "id = 409779000012345678;"));
      [simpl; tauto|vm_compute; reflexivity|vm_compute; reflexivity|].
    exists (js "id = "), (js "409779000012345678"), (js ";").
    split_and!; [reflexivity|reflexivity|]. repeat constructor.
Defined.
